(** * shopifymod: reference resolution, mapping store and sync loop

    A shallow embedding of the parts of the repository that decide how
    spreadsheet rows become products:

    - [utils/helpers.py]: cell cleaning, reference splitting, price
      coercion, required-field validation and variant grouping;
    - [db/mysql_connector.py], [db/migrations.py], [db/product_mapper.py]:
      the three mapping tables and the statements the mapper sends;
    - [main.py]: the per-product loop of [process_products], the two
      creators with the remote shop as an oracle, the images of a row and
      the mode argument of the command line;
    - [update-new.py], [update-original.py], [update_from_presta.py]: the
      analysis of the references of an export and the lookup of a product
      by its reference.

    Conventions.  A Python [str] is a [string] whose characters are read as
    code points below 256.  A call that may raise returns a [result].  The
    first half of the file holds the definitions, the second half the
    theorems about them. *)

From Stdlib Require Import String Ascii List Bool Arith ZArith Lia.
From Stdlib Require Import Sorting.Sorted Sorting.Permutation.
From Stdlib Require Import Numbers.DecimalString.
From Stdlib Require Numbers.DecimalPos.
Import ListNotations.

Local Open Scope string_scope.
Local Open Scope list_scope.

Set Implicit Arguments.

(* ===================================================================== *)
(** * Part I: the embedding                                               *)
(* ===================================================================== *)

(** ** Python values shared by the modules *)

Module py.

(** Exceptions the modelled code can meet.  [DbError] stands for
    [mysql.connector.Error] with its message. *)
Inductive exn : Type :=
| KeyError (key : string)
| ValueError
| TypeError
| OverflowError
| DbError (msg : string)
| OtherError (msg : string).

Inductive result (A : Type) : Type :=
| Ok (a : A)
| Raise (e : exn).
Arguments Ok {A} a.
Arguments Raise {A} e.

Definition bind {A B} (r : result A) (k : A -> result B) : result B :=
  match r with
  | Ok a => k a
  | Raise e => Raise e
  end.

(** [str(e)] as the handlers of [product_mapper.py] use it. *)
Definition exn_str (e : exn) : string :=
  match e with
  | KeyError k => ("'" ++ k ++ "'")%string
  | ValueError => "ValueError"
  | TypeError => "TypeError"
  | OverflowError => "int too large to convert to float"
  | DbError m => m
  | OtherError m => m
  end.

(** [c in s] for a one-character needle. *)
Fixpoint contains (c : ascii) (s : string) : bool :=
  match s with
  | EmptyString => false
  | String d rest => if (d =? c)%char then true else contains c rest
  end.

(** [s.split(sep)] for a one-character separator: the segments between
    the separators, in order; never the empty list. *)
Fixpoint split (sep : ascii) (s : string) : list string :=
  match s with
  | EmptyString => [EmptyString]
  | String c rest =>
      if (c =? sep)%char then EmptyString :: split sep rest
      else match split sep rest with
           | seg :: segs => String c seg :: segs
           | [] => [String c EmptyString]
           end
  end.

(** [str.isspace] on code points below 256: TAB..CR, FS..US, SPACE,
    NEL (0x85) and NBSP (0xA0). *)
Definition isspace (c : ascii) : bool :=
  let n := nat_of_ascii c in
  ((9 <=? n)%nat && (n <=? 13)%nat) || ((28 <=? n)%nat && (n <=? 32)%nat)
  || (n =? 133)%nat || (n =? 160)%nat.

Fixpoint lstrip (s : string) : string :=
  match s with
  | EmptyString => EmptyString
  | String c rest => if isspace c then lstrip rest else s
  end.

Fixpoint rstrip (s : string) : string :=
  match s with
  | EmptyString => EmptyString
  | String c rest =>
      match rstrip rest with
      | EmptyString => if isspace c then EmptyString else String c EmptyString
      | kept => String c kept
      end
  end.

(** [s.strip()] *)
Definition strip (s : string) : string := rstrip (lstrip s).

(** [s.replace(a, b)] for one-character [a] and [b]. *)
Fixpoint replace (a b : ascii) (s : string) : string :=
  match s with
  | EmptyString => EmptyString
  | String c rest => String (if (c =? a)%char then b else c) (replace a b rest)
  end.

(** Keep the characters that satisfy [keep]; [re.sub] with a negated
    character class and an empty replacement. *)
Fixpoint keep_chars (keep : ascii -> bool) (s : string) : string :=
  match s with
  | EmptyString => EmptyString
  | String c rest =>
      if keep c then String c (keep_chars keep rest) else keep_chars keep rest
  end.

Fixpoint count_chars (p : ascii -> bool) (s : string) : nat :=
  match s with
  | EmptyString => 0
  | String c rest => (if p c then 1 else 0) + count_chars p rest
  end.

(** [\d] on code points below 256 is the ASCII digits. *)
Definition isdigit (c : ascii) : bool :=
  let n := nat_of_ascii c in (48 <=? n)%nat && (n <=? 57)%nat.

(** [str(z)] for an [int]. *)
Definition str_of_int (z : Z) : string := NilZero.string_of_int (Z.to_int z).

(** A spreadsheet cell as pandas hands it to the code.  [CNull] is any
    value for which [value is None or pd.isna(value)] holds (None, NaN,
    NaT); [CStr] is a [str]; [CScalar] is any other scalar (int, float,
    bool, timestamp), carried as the text [str(value)] gives for it. *)
Inductive cell : Type :=
| CNull
| CStr (s : string)
| CScalar (text : string).

Definition isna (v : cell) : bool :=
  match v with CNull => true | _ => false end.

(** [str(value)] of a cell that is not null. *)
Definition str (v : cell) : string :=
  match v with
  | CNull => "nan"
  | CStr s => s
  | CScalar t => t
  end.

(** [value == lit] for a string literal: only a [str] can be equal. *)
Definition eq_str (v : cell) (lit : string) : bool :=
  match v with
  | CStr s => (s =? lit)%string
  | _ => false
  end.

(** A row ([pd.Series]): column labels with their cells. *)
Definition row : Type := list (string * cell).

(** [field in row] / [row[field]] / [row.get(field, default)] *)
Fixpoint row_lookup (r : row) (field : string) : option cell :=
  match r with
  | [] => None
  | (k, v) :: rest => if (k =? field)%string then Some v else row_lookup rest field
  end.

Definition row_item (r : row) (field : string) : result cell :=
  match row_lookup r field with
  | Some v => Ok v
  | None => Raise (KeyError field)
  end.

(** The floating-point runtime.  The code only converts to [float] and
    passes the result on, so doubles stay abstract: [float_of_literal s] is
    the double [float(s)] denotes for a well-formed literal [s], and
    [float_of_int z] the double nearest to [z]. *)
Class FloatRuntime : Type := {
  float : Type;
  float_zero : float;
  float_of_literal : string -> float;
  float_of_int : Z -> float
}.

(** An argument that is not a [str]: the other builtin scalars, and
    [SObject] for an object [float()] rejects with [TypeError] (list,
    dict, ...). *)
Inductive scalar `{FloatRuntime} : Type :=
| SNone
| SBool (b : bool)
| SInt (z : Z)
| SFloat (f : float)
| SObject.

(** An arbitrary argument ([Any]), split the way [isinstance(price, str)]
    splits it. *)
Inductive value `{FloatRuntime} : Type :=
| VStr (s : string)
| VOther (x : scalar).

(** Magnitude from which [float(int)] raises [OverflowError]: halfway
    between the largest double and [2^1024], which rounds up. *)
Definition float_int_bound : Z := 2 ^ 1024 - 2 ^ 970.

(** [float(x)] for an argument that is not a [str]. *)
Definition float_of_scalar `{FloatRuntime} (x : scalar) : result float :=
  match x with
  | SNone => Raise TypeError
  | SBool b => Ok (float_of_int (if b then 1 else 0))
  | SInt z =>
      if (Z.abs z <? float_int_bound)%Z then Ok (float_of_int z)
      else Raise OverflowError
  | SFloat f => Ok f
  | SObject => Raise TypeError
  end.

Definition ispoint (c : ascii) : bool := (c =? ".")%char.

(** [float(s)] for a string of digits and points, the only strings
    [format_price] hands to [float]: well formed when it has at least one
    digit and at most one point. *)
Definition float_of_plain `{FloatRuntime} (s : string) : result float :=
  if (1 <=? count_chars isdigit s)%nat && (count_chars ispoint s <=? 1)%nat
  then Ok (float_of_literal s)
  else Raise ValueError.

(** [sorted(xs)] on strings: ascending by code point, a prefix before its
    extensions. *)
Fixpoint insert_sorted (x : string) (l : list string) : list string :=
  match l with
  | [] => [x]
  | y :: rest => if String.leb x y then x :: l else y :: insert_sorted x rest
  end.

Definition sorted (l : list string) : list string :=
  fold_right insert_sorted [] l.

(** [list(set(xs))]: the distinct elements; whatever order the set
    yields, [sorted] puts them in the same one. *)
Definition list_set (l : list string) : list string := nodup string_dec l.

End py.

(** ** utils/helpers.py *)

Module helpers.
Import py.

Definition clean_value (value : cell) : string :=
  if isna value || eq_str value "nan" || eq_str value "NaN"
     || (strip (str value) =? EmptyString)%string
  then EmptyString
  else strip (str value).

Definition is_variant_reference (reference : string) : bool :=
  contains "/" reference.

Definition get_base_reference (reference : string) : string :=
  if contains "/" reference
  then nth 0 (split "/" reference) EmptyString
  else reference.

Definition get_variant_size (reference : string) : option string :=
  if contains "/" reference
  then Some (nth 1 (split "/" reference) EmptyString)
  else None.

(** [try: ... except (ValueError, TypeError): return 0.0]; any other
    exception leaves the function. *)
Definition format_price `{FloatRuntime} (price : value) : result float :=
  let attempt :=
    match price with
    | VStr s =>
        let price1 :=
          keep_chars (fun c => isdigit c || ispoint c || (c =? ",")%char) s in
        let price2 := replace "," "." price1 in
        float_of_plain price2
    | VOther x => float_of_scalar x
    end in
  match attempt with
  | Ok f => Ok f
  | Raise ValueError => Ok float_zero
  | Raise TypeError => Ok float_zero
  | Raise e => Raise e
  end.

Definition o_acute : string := String (ascii_of_nat 243) EmptyString.

Definition required_fields : list (string * string) :=
  [ ("REFERENCIA", "referencia");
    ("DESCRIPCION", ("descripci" ++ o_acute ++ "n")%string);
    ("PRECIO", "precio");
    ("TIPO", "tipo") ].

(** The test of the loop body of [validate_product_data]. *)
Definition field_missing (data : row) (field : string) : bool :=
  match row_lookup data field with
  | None => true
  | Some v => isna v || (strip (str v) =? EmptyString)%string
  end.

Definition validate_product_data (data : row) : bool * list string :=
  let missing_fields :=
    map snd (filter (fun fn => field_missing data (fst fn)) required_fields) in
  ((length missing_fields =? 0)%nat, missing_fields).

(** One entry of the dict [group_variants] returns. *)
Record bucket : Type := {
  is_variant_product : bool;
  base_data : row;
  variants : list row
}.

(** A [dict] with string keys: insertion order is kept, assignment to a
    key that exists replaces the value in place. *)
Definition dict (V : Type) : Type := list (string * V).

Fixpoint dict_get {V} (d : dict V) (k : string) : option V :=
  match d with
  | [] => None
  | (k', v) :: rest => if (k' =? k)%string then Some v else dict_get rest k
  end.

Definition dict_mem {V} (d : dict V) (k : string) : bool :=
  match dict_get d k with Some _ => true | None => false end.

Fixpoint dict_set {V} (d : dict V) (k : string) (v : V) : dict V :=
  match d with
  | [] => [(k, v)]
  | (k', v') :: rest =>
      if (k' =? k)%string then (k', v) :: rest else (k', v') :: dict_set rest k v
  end.

(** In-place mutation of the object stored under [k]. *)
Fixpoint dict_alter {V} (f : V -> V) (d : dict V) (k : string) : dict V :=
  match d with
  | [] => []
  | (k', v') :: rest =>
      if (k' =? k)%string then (k', f v') :: rest
      else (k', v') :: dict_alter f rest k
  end.

Definition mark_variant (r : row) (b : bucket) : bucket :=
  {| is_variant_product := true;
     base_data := base_data b;
     variants := variants b ++ [r] |}.

Definition append_if_empty (r : row) (b : bucket) : bucket :=
  if (length (variants b) =? 0)%nat
  then {| is_variant_product := is_variant_product b;
          base_data := base_data b;
          variants := variants b ++ [r] |}
  else b.

(** The body of the [for] loop of [group_variants]. *)
Definition group_row (products : dict bucket) (r : row) : result (dict bucket) :=
  bind (row_item r "REFERENCIA") (fun v =>
    let reference := clean_value v in
    let base_reference := get_base_reference reference in
    let products1 :=
      if dict_mem products base_reference then products
      else dict_set products base_reference
             {| is_variant_product := false; base_data := r; variants := [] |} in
    Ok (if is_variant_reference reference
        then dict_alter (mark_variant r) products1 base_reference
        else dict_alter (append_if_empty r) products1 base_reference)).

Fixpoint group_rows (products : dict bucket) (df : list row)
  : result (dict bucket) :=
  match df with
  | [] => Ok products
  | r :: rest => bind (group_row products r) (fun products1 => group_rows products1 rest)
  end.

Definition group_variants (df : list row) : result (dict bucket) :=
  group_rows [] df.

End helpers.

(** ** db/migrations.py: the schema *)

Module migrations.

(** Comparison of two key values under the collation of the tables
    ([utf8mb4_unicode_ci]): an equivalence on strings, coarser than
    equality.  Unique keys, [WHERE col = %s] and the foreign key all
    compare with it. *)
Class Collation : Type := {
  key_eqb : string -> string -> bool;
  key_eqb_refl : forall a, key_eqb a a = true;
  key_eqb_sym : forall a b, key_eqb a b = key_eqb b a;
  key_eqb_trans :
    forall a b c, key_eqb a b = true -> key_eqb b c = true -> key_eqb a c = true
}.

(** A row of [product_mappings].  The surrogate [id] column is assigned by
    the server and is neither written nor read by the code; it is left
    out.  Timestamps are server clock readings. *)
Record ProductMapping : Type := {
  internal_reference : string;
  shopify_product_id : Z;
  shopify_handle : string;
  title : string;
  first_created_at : nat;
  last_updated_at : nat
}.

(** A row of [variant_mappings]; [price] is the DECIMAL(10,2) value in
    hundredths. *)
Record VariantMapping : Type := {
  internal_sku : string;
  shopify_variant_id : Z;
  variant_product_id : Z;
  parent_reference : string;
  size : option string;
  price : Z;
  created_at : nat;
  variant_updated_at : nat
}.

(** A row of [sync_log]. *)
Record SyncLogEntry : Type := {
  log_reference : string;
  action : string;
  status : string;
  message : string;
  log_created_at : nat
}.

Record Database : Type := {
  product_mappings : list ProductMapping;
  variant_mappings : list VariantMapping;
  sync_log : list SyncLogEntry
}.

(** The tables as [create_tables] leaves them on a fresh server. *)
Definition create_tables : Database :=
  {| product_mappings := []; variant_mappings := []; sync_log := [] |}.

End migrations.

(** ** db/mysql_connector.py *)

Module mysql_connector.
Import py migrations.

(** What the program cannot control: whether the server rejects the n-th
    statement sent over the connection (lost connection, server-side
    limits), with the error text, and the server clock at that moment. *)
Record Server : Type := {
  fault : nat -> option string;
  now : nat -> nat
}.

(** The connector: the committed tables and the number of statements
    sent so far. *)
Record Connection : Type := {
  database : Database;
  statements : nat
}.

(** A method of the connector: it may raise, and it leaves a connection
    behind either way. *)
Definition DB (A : Type) : Type := Server -> Connection -> result A * Connection.

Definition ret {A} (a : A) : DB A := fun _ c => (Ok a, c).

Definition raise {A} (e : exn) : DB A := fun _ c => (Raise e, c).

Definition bind {A B} (m : DB A) (k : A -> DB B) : DB B :=
  fun srv c =>
    match m srv c with
    | (Ok a, c1) => k a srv c1
    | (Raise e, c1) => (Raise e, c1)
    end.

(** [try: body except Exception as e: handler(e)] *)
Definition try_except {A} (body : DB A) (handler : exn -> DB A) : DB A :=
  fun srv c =>
    match body srv c with
    | (Ok a, c1) => (Ok a, c1)
    | (Raise e, c1) => handler e srv c1
    end.

(** [execute_query]: the statement is given by its effect on the tables at
    a clock reading.  Success commits the new tables (and hands back the
    fetched rows); an error rolls back to the tables as they were and is
    raised again. *)
Definition execute_query {A} (stmt : nat -> Database -> result (Database * A))
  : DB A :=
  fun srv c =>
    let n := statements c in
    let rolled_back := {| database := database c; statements := S n |} in
    match fault srv n with
    | Some msg => (Raise (DbError msg), rolled_back)
    | None =>
        match stmt (now srv n) (database c) with
        | Ok (db1, a) => (Ok a, {| database := db1; statements := S n |})
        | Raise e => (Raise e, rolled_back)
        end
    end.

End mysql_connector.

Declare Scope db_scope.
Delimit Scope db_scope with db.
Notation "x <- m ;; k" := (mysql_connector.bind m (fun x => k))
  (at level 61, m at next level, right associativity) : db_scope.
Notation "m ;; k" := (mysql_connector.bind m (fun _ => k))
  (at level 61, right associativity) : db_scope.

(** ** db/product_mapper.py *)

Module product_mapper.
Import py migrations mysql_connector.

Section Statements.
Context `{Collation}.

(** [INSERT INTO product_mappings ... ON DUPLICATE KEY UPDATE ...]: the row
    whose key collides is updated in place and keeps its stored reference
    and creation time; without a collision a row is added. *)
Fixpoint upsert_product (ref : string) (pid : Z) (handle ttl : string) (t : nat)
  (rows : list ProductMapping) : list ProductMapping :=
  match rows with
  | [] =>
      [ {| internal_reference := ref; shopify_product_id := pid;
           shopify_handle := handle; title := ttl;
           first_created_at := t; last_updated_at := t |} ]
  | p :: rest =>
      if key_eqb (internal_reference p) ref
      then {| internal_reference := internal_reference p;
              shopify_product_id := pid;
              shopify_handle := handle; title := ttl;
              first_created_at := first_created_at p;
              last_updated_at := t |} :: rest
      else p :: upsert_product ref pid handle ttl t rest
  end.

Definition sql_upsert_product (ref : string) (pid : Z) (handle ttl : string)
  (t : nat) (db : Database) : result (Database * unit) :=
  Ok ({| product_mappings := upsert_product ref pid handle ttl t (product_mappings db);
         variant_mappings := variant_mappings db;
         sync_log := sync_log db |}, tt).

Definition has_product (ref : string) (rows : list ProductMapping) : bool :=
  existsb (fun p => key_eqb (internal_reference p) ref) rows.

Definition has_variant (sku : string) (rows : list VariantMapping) : bool :=
  existsb (fun v => key_eqb (internal_sku v) sku) rows.

(** The update arm of the variant upsert: [parent_reference] is not in
    its assignment list and stays as stored. *)
Fixpoint update_variant (sku : string) (vid pid : Z) (sz : option string)
  (pr : Z) (t : nat) (rows : list VariantMapping) : list VariantMapping :=
  match rows with
  | [] => []
  | v :: rest =>
      if key_eqb (internal_sku v) sku
      then {| internal_sku := internal_sku v;
              shopify_variant_id := vid; variant_product_id := pid;
              parent_reference := parent_reference v;
              size := sz; price := pr;
              created_at := created_at v; variant_updated_at := t |} :: rest
      else v :: update_variant sku vid pid sz pr t rest
  end.

Definition fk_message : string :=
  "Cannot add or update a child row: a foreign key constraint fails".

(** [INSERT INTO variant_mappings ... ON DUPLICATE KEY UPDATE ...]: a new
    row needs its parent in [product_mappings] (the foreign key), else the
    server raises. *)
Definition sql_upsert_variant (sku : string) (vid pid : Z) (parent : string)
  (sz : option string) (pr : Z) (t : nat) (db : Database)
  : result (Database * unit) :=
  if has_variant sku (variant_mappings db)
  then Ok ({| product_mappings := product_mappings db;
              variant_mappings :=
                update_variant sku vid pid sz pr t (variant_mappings db);
              sync_log := sync_log db |}, tt)
  else if has_product parent (product_mappings db)
  then Ok ({| product_mappings := product_mappings db;
              variant_mappings :=
                variant_mappings db ++
                [ {| internal_sku := sku; shopify_variant_id := vid;
                     variant_product_id := pid; parent_reference := parent;
                     size := sz; price := pr;
                     created_at := t; variant_updated_at := t |} ];
              sync_log := sync_log db |}, tt)
  else Raise (DbError fk_message).

(** [SELECT * FROM product_mappings WHERE internal_reference = %s] *)
Definition sql_select_product (ref : string) (t : nat) (db : Database)
  : result (Database * list ProductMapping) :=
  Ok (db, filter (fun p => key_eqb (internal_reference p) ref) (product_mappings db)).

(** [SELECT * FROM variant_mappings WHERE parent_reference = %s] *)
Definition sql_select_variants (ref : string) (t : nat) (db : Database)
  : result (Database * list VariantMapping) :=
  Ok (db, filter (fun v => key_eqb (parent_reference v) ref) (variant_mappings db)).

(** [SELECT * FROM variant_mappings WHERE internal_sku = %s] *)
Definition sql_select_variant (sku : string) (t : nat) (db : Database)
  : result (Database * list VariantMapping) :=
  Ok (db, filter (fun v => key_eqb (internal_sku v) sku) (variant_mappings db)).

(** [DELETE FROM product_mappings WHERE internal_reference = %s], with
    [ON DELETE CASCADE]: the variants whose parent is a deleted row go
    with it. *)
Definition sql_delete_product (ref : string) (t : nat) (db : Database)
  : result (Database * unit) :=
  let deleted := filter (fun p => key_eqb (internal_reference p) ref) (product_mappings db) in
  Ok ({| product_mappings :=
           filter (fun p => negb (key_eqb (internal_reference p) ref)) (product_mappings db);
         variant_mappings :=
           filter (fun v => negb (has_product (parent_reference v) deleted))
                  (variant_mappings db);
         sync_log := sync_log db |}, tt).

(** [INSERT INTO sync_log ...] *)
Definition sql_insert_log (ref act st msg : string) (t : nat) (db : Database)
  : result (Database * unit) :=
  Ok ({| product_mappings := product_mappings db;
         variant_mappings := variant_mappings db;
         sync_log := sync_log db ++
           [ {| log_reference := ref; action := act; status := st;
                message := msg; log_created_at := t |} ] |}, tt).

Local Open Scope db_scope.

Definition _log_sync (internal_reference action status message : string) : DB unit :=
  try_except
    (execute_query (sql_insert_log internal_reference action status message))
    (fun e => ret tt).

(** The attributes of a [shopify.Product] the mapper reads. *)
Record ShopifyProduct : Type := {
  sp_id : Z;
  sp_handle : string;
  sp_title : string
}.

(** The attributes of a [shopify.Variant] the mapper reads. *)
Record ShopifyVariant : Type := {
  sv_id : Z;
  sv_product_id : Z;
  sv_price : Z
}.

Definition save_product_mapping (internal_reference : string)
  (shopify_product : ShopifyProduct) : DB bool :=
  try_except
    (execute_query
       (sql_upsert_product internal_reference (sp_id shopify_product)
          (sp_handle shopify_product) (sp_title shopify_product)) ;;
     _log_sync internal_reference "create_product" "success"
       ("Product mapped successfully. Shopify ID: "
          ++ str_of_int (sp_id shopify_product))%string ;;
     ret true)
    (fun e =>
       _log_sync internal_reference "create_product" "error" (exn_str e) ;;
       ret false).

(** [price or variant.price]: [None] and zero are falsy. *)
Definition price_or (price : option Z) (fallback : Z) : Z :=
  match price with
  | Some p => if (p =? 0)%Z then fallback else p
  | None => fallback
  end.

Definition save_variant_mapping (internal_sku : string) (variant : ShopifyVariant)
  (parent_reference : string) (size : option string) (price : option Z) : DB bool :=
  try_except
    (execute_query
       (sql_upsert_variant internal_sku (sv_id variant) (sv_product_id variant)
          parent_reference size (price_or price (sv_price variant))) ;;
     _log_sync internal_sku "create_variant" "success"
       ("Variant mapped successfully. Shopify ID: "
          ++ str_of_int (sv_id variant))%string ;;
     ret true)
    (fun e =>
       _log_sync internal_sku "create_variant" "error" (exn_str e) ;;
       ret false).

(** The dict [get_product_mapping] returns. *)
Record Mapping : Type := {
  product : ProductMapping;
  mapped_variants : list VariantMapping
}.

Definition get_product_mapping (internal_reference : string) : DB (option Mapping) :=
  try_except
    (products <- execute_query (sql_select_product internal_reference) ;;
     match products with
     | [] => ret None
     | p :: _ =>
         variants <- execute_query (sql_select_variants internal_reference) ;;
         ret (Some {| product := p; mapped_variants := variants |})
     end)
    (fun e => ret None).

Definition get_variant_mapping (internal_sku : string) : DB (option VariantMapping) :=
  try_except
    (variants <- execute_query (sql_select_variant internal_sku) ;;
     ret (hd_error variants))
    (fun e => ret None).

Definition delete_product_mapping (internal_reference : string) : DB bool :=
  try_except
    (execute_query (sql_delete_product internal_reference) ;;
     _log_sync internal_reference "delete_product" "success"
       "Product mapping deleted successfully" ;;
     ret true)
    (fun e =>
       _log_sync internal_reference "delete_product" "error" (exn_str e) ;;
       ret false).

End Statements.

End product_mapper.

(** ** main.py *)

Module main.
Import py helpers.

Section Orchestrator.
Context `{FloatRuntime}.

(** One element of the list [prepare_variants_data] returns. *)
Record variant_data : Type := {
  vd_size : string;
  vd_price : float;
  vd_sku : string;
  vd_stock : Z;
  vd_weight : string;
  vd_cost : string
}.

(** The dict [prepare_product_data] returns, without its metafields and
    images. *)
Record product_data : Type := {
  pd_title : string;
  pd_body_html : string;
  pd_vendor : string;
  pd_product_type : string;
  pd_tags : string;
  pd_sku : string;
  pd_price : float;
  pd_stock : Z;
  pd_weight : string;
  pd_cost : string
}.

(** Conversions through [float] that the code applies to cells and
    strings; each may raise. *)
Variable price_of_cell : cell -> result float.   (* round(float(x) * 2.2, 2) *)
Variable int_of_cell : cell -> result Z.         (* int(x) *)
Variable grams_of_weight : string -> result Z.   (* int(float(s)) *)

(** [row.get(field, 0)] followed by [clean_value]. *)
Definition clean_or_zero (r : row) (field : string) : string :=
  match row_lookup r field with
  | Some v => clean_value v
  | None => "0"
  end.

Fixpoint prepare_variants_data (variants_rows : list row) : result (list variant_data) :=
  match variants_rows with
  | [] => Ok []
  | r :: rest =>
      py.bind (row_item r "REFERENCIA") (fun ref_cell =>
        let variant_reference := clean_value ref_cell in
        match get_variant_size variant_reference with
        | Some (String c sz) =>
            py.bind (row_item r "PRECIO") (fun precio =>
            py.bind (price_of_cell precio) (fun pr =>
            py.bind (row_item r "STOCK") (fun stock_cell =>
            py.bind (int_of_cell stock_cell) (fun stock =>
            py.bind (prepare_variants_data rest) (fun others =>
              Ok ({| vd_size := String c sz; vd_price := pr;
                     vd_sku := variant_reference; vd_stock := stock;
                     vd_weight := clean_or_zero r "PESO G.";
                     vd_cost := clean_value precio |} :: others))))))
        | _ => prepare_variants_data rest
        end)
  end.

(** A [shopify.Variant] as [create_variant_product] fills it in. *)
Record Variant : Type := {
  option1 : string;
  v_price : float;
  v_sku : string;
  inventory_management : string;
  inventory_policy : string;
  grams : Z;
  v_cost : string
}.

Record ProductOption : Type := {
  opt_name : string;
  opt_values : list string
}.

(** The [shopify.Product] as it stands when [save()] is called. *)
Record Product : Type := {
  p_title : string;
  p_body_html : string;
  p_vendor : string;
  p_product_type : string;
  p_tags : string;
  p_published : bool;
  p_options : list ProductOption;
  p_variants : list Variant
}.

Fixpoint build_variants (variants_data : list variant_data) : result (list Variant) :=
  match variants_data with
  | [] => Ok []
  | var_data :: rest =>
      py.bind (grams_of_weight (vd_weight var_data)) (fun g =>
      py.bind (build_variants rest) (fun others =>
        Ok ({| option1 := vd_size var_data;
               v_price := vd_price var_data;
               v_sku := vd_sku var_data;
               inventory_management := "shopify";
               inventory_policy := "deny";
               grams := g;
               v_cost := vd_cost var_data |} :: others)))
  end.

(** [create_variant_product] up to [new_product.save()]: the product
    object with its size option and its variants. *)
Definition new_variant_product (pd : product_data) (variants_data : list variant_data)
  : result Product :=
  let tallas := map vd_size variants_data in
  let options := [ {| opt_name := "Talla"; opt_values := sorted (list_set tallas) |} ] in
  py.bind (build_variants variants_data) (fun variants =>
    Ok {| p_title := pd_title pd;
          p_body_html := pd_body_html pd;
          p_vendor := pd_vendor pd;
          p_product_type := pd_product_type pd;
          p_tags := pd_tags pd;
          p_published := true;
          p_options := options;
          p_variants := variants |}).

(** The remote shop together with the mapping store, and the calls of
    [process_products] that reach them.  The two creators catch every
    exception themselves and answer with a bool. *)
Variable World : Type.
Variable Location : Type.
Variable get_location_id : World -> result Location.
Variable prepare_product_data : row -> string -> result product_data.
Variable create_variant_product :
  product_data -> list variant_data -> Location -> World -> bool * World.
Variable create_simple_product :
  product_data -> Location -> World -> bool * World.

(** The counters of [process_products], the world it acts on, and (for
    the statements below) the product data prepared so far, newest last. *)
Record Run : Type := {
  products_processed : nat;
  products_failed : nat;
  world : World;
  prepared : list product_data
}.

Definition count_failed (st : Run) : Run :=
  {| products_processed := products_processed st;
     products_failed := S (products_failed st);
     world := world st;
     prepared := prepared st |}.

Definition count_created (ok : bool) (w : World) (st : Run) : Run :=
  {| products_processed := (if ok then S (products_processed st) else products_processed st);
     products_failed := (if ok then products_failed st else S (products_failed st));
     world := w;
     prepared := prepared st |}.

Definition note_prepared (pd : product_data) (st : Run) : Run :=
  {| products_processed := products_processed st;
     products_failed := products_failed st;
     world := world st;
     prepared := prepared st ++ [pd] |}.

(** The body of the loop over [grouped_products.items()], with its
    [try ... except Exception]. *)
Definition process_product (location_id : option Location) (st : Run)
  (item : string * bucket) : Run :=
  let base_reference := fst item in
  let product_info := snd item in
  let base_row := base_data product_info in
  match row_item base_row "DESCRIPCION" with
  | Raise _ => count_failed st
  | Ok _ =>
      let (is_valid, missing_fields) := validate_product_data base_row in
      if negb is_valid then count_failed st
      else
        match prepare_product_data base_row base_reference with
        | Raise _ => count_failed st
        | Ok pd =>
            let st1 := note_prepared pd st in
            match location_id with
            | None => st1
            | Some loc =>
                if is_variant_product product_info
                then match prepare_variants_data (variants product_info) with
                     | Raise _ => count_failed st1
                     | Ok variants_data =>
                         let (ok, w) := create_variant_product pd variants_data loc (world st1) in
                         count_created ok w st1
                     end
                else let (ok, w) := create_simple_product pd loc (world st1) in
                     count_created ok w st1
            end
        end
  end.

Definition process_items (location_id : option Location) (st : Run)
  (items : dict bucket) : Run :=
  fold_left (process_product location_id) items st.

(** [process_products]: [location_id] stays [None] in display mode; an
    exception of [get_location_id] or [group_variants] ends the run. *)
Definition process_products (df : list row) (display_mode : bool) (w : World)
  : result Run :=
  let start := {| products_processed := 0; products_failed := 0;
                  world := w; prepared := [] |} in
  py.bind (if display_mode then Ok None
           else py.bind (get_location_id w) (fun loc => Ok (Some loc)))
    (fun location_id =>
  py.bind (group_variants df) (fun grouped_products =>
    Ok (process_items location_id start grouped_products))).

End Orchestrator.

End main.

(** ** Vocabulary of the statements *)

Module vocabulary.
Import py helpers.

(** C1 as the specification words it: the reference splits at its first
    slash into the base and the whole remainder. *)
Definition splits_at_first_slash (reference : string) : Prop :=
  exists base suffix,
    reference = (base ++ "/" ++ suffix)%string /\
    contains "/" base = false /\
    get_base_reference reference = base /\
    get_variant_size reference = Some suffix.

(** The cleaned reference [group_variants] computes for a row. *)
Definition reference_of (r : row) : string :=
  match row_lookup r "REFERENCIA" with
  | Some v => clean_value v
  | None => EmptyString
  end.

(** The row falls into the bucket of base reference [b]. *)
Definition in_bucket (b : string) (r : row) : bool :=
  (get_base_reference (reference_of r) =? b)%string.

(** The row carries a [/]-suffix. *)
Definition carries_suffix (r : row) : bool :=
  is_variant_reference (reference_of r).

Definition has_reference (r : row) : Prop :=
  row_lookup r "REFERENCIA" <> None.

(** What grouping makes of the rows of one base reference, read off the
    data frame directly: nothing without such a row; otherwise the first
    such row as base data, the variant flag when one of them carries a
    suffix, and as variants the first row if it is plain, followed by
    the suffixed rows in order. *)
Definition bucket_of_rows (mine : list row) : option bucket :=
  match mine with
  | [] => None
  | first :: _ =>
      Some {| is_variant_product := existsb carries_suffix mine;
              base_data := first;
              variants := (if carries_suffix first then [] else [first])
                            ++ filter carries_suffix mine |}
  end.

Definition bucket_for (b : string) (df : list row) : option bucket :=
  bucket_of_rows (filter (in_bucket b) df).

(** The base references of the rows, in row order. *)
Definition bases (df : list row) : list string :=
  map (fun r => get_base_reference (reference_of r)) df.

(** The distinct elements of a list, each at its first occurrence. *)
Definition first_seen (l : list string) : list string :=
  rev (nodup string_dec (rev l)).

(** The sizes [prepare_variants_data] keeps: those that are not empty. *)
Definition stated_size (r : row) : list string :=
  match get_variant_size (reference_of r) with
  | Some (String c rest) => [String c rest]
  | _ => []
  end.

(** A row that holds only a reference. *)
Definition reference_row (reference : string) : row :=
  [("REFERENCIA", CStr reference)].

End vocabulary.

(** ** Vocabulary of the statements about the mapping store *)

Module store_vocabulary.
Import py migrations mysql_connector product_mapper.

(** Comparison by code units, the collation [utf8mb4_bin]. *)
Definition binary_collation : Collation :=
  {| key_eqb := String.eqb;
     key_eqb_refl := String.eqb_refl;
     key_eqb_sym := String.eqb_sym;
     key_eqb_trans := fun a b c Hab Hbc =>
       proj2 (String.eqb_eq a c)
         (eq_trans (proj1 (String.eqb_eq a b) Hab) (proj1 (String.eqb_eq b c) Hbc)) |}.

(** A server that accepts every statement; its clock counts them. *)
Definition steady_server : Server :=
  {| fault := fun _ => None; now := fun n => n |}.

(** A connection to freshly migrated tables. *)
Definition fresh_connection : Connection :=
  {| database := create_tables; statements := 0 |}.

Section Store.
Context `{Collation}.

(** Number of keys in a column that compare equal to [k]. *)
Definition count_key (k : string) (keys : list string) : nat :=
  length (filter (fun k' => key_eqb k' k) keys).

(** A UNIQUE column. *)
Definition unique_keys (keys : list string) : Prop :=
  forall k, count_key k keys <= 1.

Definition product_keys (db : Database) : list string :=
  map internal_reference (product_mappings db).

Definition variant_keys (db : Database) : list string :=
  map internal_sku (variant_mappings db).

(** A product row without its update time. *)
Definition stored_columns (p : ProductMapping) : string * Z * string * string * nat :=
  (internal_reference p, shopify_product_id p, shopify_handle p, title p,
   first_created_at p).

(** The foreign key: every variant row has its parent row. *)
Definition parents_exist (db : Database) : Prop :=
  forall v, In v (variant_mappings db) ->
            has_product (parent_reference v) (product_mappings db) = true.

(** The constraints the schema declares; the server keeps them. *)
Definition consistent (db : Database) : Prop :=
  unique_keys (product_keys db) /\ unique_keys (variant_keys db) /\ parents_exist db.

(** The tables after one attempt to append a log row as statement [k]. *)
Definition log_attempt (srv : Server) (k : nat) (ref act st msg : string)
  (db : Database) : Database :=
  match fault srv k with
  | None =>
      {| product_mappings := product_mappings db;
         variant_mappings := variant_mappings db;
         sync_log := sync_log db ++
           [ {| log_reference := ref; action := act; status := st;
                message := msg; log_created_at := now srv k |} ] |}
  | Some _ => db
  end.

(** The three mutating calls of the mapper. *)
Inductive mutation : Type :=
| SaveProduct (internal_reference : string) (shopify_product : ShopifyProduct)
| SaveVariant (internal_sku : string) (variant : ShopifyVariant)
    (parent_reference : string) (size : option string) (price : option Z)
| DeleteProduct (internal_reference : string).

Definition run_mutation (m : mutation) : DB bool :=
  match m with
  | SaveProduct ref p => save_product_mapping ref p
  | SaveVariant sku v parent sz pr => save_variant_mapping sku v parent sz pr
  | DeleteProduct ref => delete_product_mapping ref
  end.

(** The statement a mutating call sends first. *)
Definition primary_statement (m : mutation)
  : nat -> Database -> result (Database * unit) :=
  match m with
  | SaveProduct ref p => sql_upsert_product ref (sp_id p) (sp_handle p) (sp_title p)
  | SaveVariant sku v parent sz pr =>
      sql_upsert_variant sku (sv_id v) (sv_product_id v) parent sz
        (price_or pr (sv_price v))
  | DeleteProduct ref => sql_delete_product ref
  end.

(** Reference and action under which a mutating call logs. *)
Definition logged_reference (m : mutation) : string :=
  match m with
  | SaveProduct ref _ => ref
  | SaveVariant sku _ _ _ _ => sku
  | DeleteProduct ref => ref
  end.

Definition logged_action (m : mutation) : string :=
  match m with
  | SaveProduct _ _ => "create_product"
  | SaveVariant _ _ _ _ _ => "create_variant"
  | DeleteProduct _ => "delete_product"
  end.

Definition success_message (m : mutation) : string :=
  match m with
  | SaveProduct _ p =>
      ("Product mapped successfully. Shopify ID: " ++ str_of_int (sp_id p))%string
  | SaveVariant _ v _ _ _ =>
      ("Variant mapped successfully. Shopify ID: " ++ str_of_int (sv_id v))%string
  | DeleteProduct _ => "Product mapping deleted successfully"
  end.

(** What the first statement of a call does to the tables: the new tables
    when the server takes it, or the error it raises. *)
Definition primary_outcome (m : mutation) (srv : Server) (c : Connection)
  : result Database :=
  match fault srv (statements c) with
  | Some msg => Raise (DbError msg)
  | None =>
      match primary_statement m (now srv (statements c)) (database c) with
      | Ok (db1, _) => Ok db1
      | Raise e => Raise e
      end
  end.

Definition same_mappings (db1 db2 : Database) : Prop :=
  product_mappings db1 = product_mappings db2 /\
  variant_mappings db1 = variant_mappings db2.

End Store.

End store_vocabulary.

(** ** Sample data for the statements about the mapping store *)

Module store_samples.
Import py migrations mysql_connector product_mapper store_vocabulary.

Definition remote_product (id : Z) : ShopifyProduct :=
  {| sp_id := id; sp_handle := "abc-ring"; sp_title := "ABC - Ring" |}.

Definition remote_variant (id : Z) : ShopifyVariant :=
  {| sv_id := id; sv_product_id := 1; sv_price := 9900 |}.

(** A server that takes every statement but the log appends of the first
    two calls (statements 1 and 3). *)
Definition log_failing_server : Server :=
  {| fault := fun n => if (n =? 1)%nat || (n =? 3)%nat then Some "gone away" else None;
     now := fun n => n |}.

(** Two products and the two variants of the first, as the mapper itself
    stores them on fresh tables. *)
Definition stocked_connection : Connection :=
  let run (m : mutation) (c : Connection) : Connection :=
    snd (run_mutation (H := binary_collation) m steady_server c) in
  run (SaveVariant "ABC/M" (remote_variant 12) "ABC" (Some "M") None)
    (run (SaveVariant "ABC/S" (remote_variant 11) "ABC" (Some "S") (Some 4500%Z))
       (run (SaveProduct "XYZ" (remote_product 2))
          (run (SaveProduct "ABC" (remote_product 1)) fresh_connection))).

End store_samples.

(** ** Vocabulary of the statements about prices and the sync loop *)

Module sync_vocabulary.
Import py helpers main.

(** Only whitespace, or nothing at all. *)
Fixpoint all_spaces (s : string) : bool :=
  match s with
  | EmptyString => true
  | String c rest => isspace c && all_spaces rest
  end.

(** The field is not a column of the record, or its cell is null, or the
    text of its cell is blank. *)
Definition absent_or_blank (data : row) (field : string) : Prop :=
  row_lookup data field = None \/
  row_lookup data field = Some CNull \/
  exists v, row_lookup data field = Some v /\ all_spaces (str v) = true.

(** The four columns a record must carry. *)
Definition required_columns : list string :=
  ["REFERENCIA"; "DESCRIPCION"; "PRECIO"; "TIPO"].

(** Strictly ascending order of [str]. *)
Definition string_lt (s1 s2 : string) : Prop := String.ltb s1 s2 = true.

(** Ascending order of [str], equal neighbours allowed. *)
Definition leb_rel (s1 s2 : string) : Prop := String.leb s1 s2 = true.

(** Doubles named by what they were converted from. *)
Inductive written_float : Type :=
| FromLiteral (s : string)
| FromInt (z : Z).

Definition written_floats : FloatRuntime :=
  {| float := written_float;
     float_zero := FromInt 0;
     float_of_literal := FromLiteral;
     float_of_int := FromInt |}.

End sync_vocabulary.

(** ** Sample data for the statements about the sync loop *)

Module sync_samples.
Import py helpers main sync_vocabulary.

(** A record whose description is blank. *)
Definition blank_description_row : row :=
  [ ("REFERENCIA", CStr "ABC"); ("DESCRIPCION", CStr "   ");
    ("PRECIO", CScalar "10.5"); ("TIPO", CStr "anillo") ].

Definition blank_description_item : string * bucket :=
  ("ABC", {| is_variant_product := false;
             base_data := blank_description_row;
             variants := [blank_description_row] |}).

Definition sample_price : @float written_floats := FromLiteral "23.1".

Definition sample_product_data : product_data (H := written_floats) :=
  {| pd_title := "ABC - Anillo"; pd_body_html := "anillo";
     pd_vendor := "Joyas Armaan"; pd_product_type := "Anillo";
     pd_tags := "Anillos"; pd_sku := "ABC";
     pd_price := sample_price; pd_stock := 1;
     pd_weight := "2"; pd_cost := "10.5" |}.

(** A shop that counts the products created in it. *)
Definition counting_variant_creator (pd : product_data (H := written_floats))
  (vs : list (variant_data (H := written_floats))) (loc : unit) (w : nat)
  : bool * nat := (true, S w).

Definition counting_simple_creator (pd : product_data (H := written_floats))
  (loc : unit) (w : nat) : bool * nat := (true, S w).

Definition sample_start : Run (H := written_floats) nat :=
  {| products_processed := 0; products_failed := 0; world := 0; prepared := [] |}.

Definition sample_variant (sz wt : string) : variant_data (H := written_floats) :=
  {| vd_size := sz; vd_price := sample_price;
     vd_sku := ("ABC/" ++ sz)%string; vd_stock := 1;
     vd_weight := wt; vd_cost := "10.5" |}.

(** Sizes as they come from a sheet: unordered, one repeated. *)
Definition sample_variants : list (variant_data (H := written_floats)) :=
  [ sample_variant "8" "2"; sample_variant "12" "2";
    sample_variant "10" "3"; sample_variant "12" "2" ].

Definition plain_row : row :=
  [ ("REFERENCIA", CStr "XYZ"); ("DESCRIPCION", CStr "18K sello");
    ("PRECIO", CScalar "10.5"); ("TIPO", CStr "sello") ].

(** A stand-in for [int(float(s))] on the weights used here. *)
Definition sample_grams (s : string) : result Z :=
  if (s =? "2")%string then Ok 2%Z
  else if (s =? "3")%string then Ok 3%Z
  else Raise ValueError.

End sync_samples.

(** ** Vocabulary of the further statements about the helpers *)

Module helper_vocabulary.
Import py helpers vocabulary.

(** A point or a comma: the two characters [format_price] reads as the
    decimal separator. *)
Definition isseparator (c : ascii) : bool := ispoint c || (c =? ",")%char.

(** What [format_price] keeps of a string. *)
Definition price_text (s : string) : string :=
  replace "," "." (keep_chars (fun c => isdigit c || ispoint c || (c =? ",")%char) s).

(** The names [validate_product_data] reports, in its order. *)
Definition field_names : list string := map snd required_fields.

(** [l1] is [l2] with some elements left out. *)
Inductive subsequence {A : Type} : list A -> list A -> Prop :=
| sub_nil : subsequence [] []
| sub_skip : forall x l1 l2, subsequence l1 l2 -> subsequence l1 (x :: l2)
| sub_keep : forall x l1 l2, subsequence l1 l2 -> subsequence (x :: l1) (x :: l2).

End helper_vocabulary.

(** ** Sample sheet for the further statements about grouping *)

Module grouping_samples.
Import py helpers vocabulary.

(** A simple product entered twice, and a variant product whose plain
    row follows its first size. *)
Definition mixed_sheet : list row :=
  [ reference_row "XYZ"; reference_row "ABC/S"; reference_row "XYZ";
    reference_row "ABC"; reference_row "ABC/M" ].

End grouping_samples.

(** ** Vocabulary of the further statements about the mapping store *)

Module store_more_vocabulary.
Import py migrations mysql_connector product_mapper store_vocabulary.

Section Sequences.
Context `{Collation}.

(** A caller that issues mutating calls one after the other, as the
    creators of [main.py] do, and collects their answers. *)
Fixpoint run_all (ms : list mutation) : DB (list bool) :=
  match ms with
  | [] => ret []
  | m :: rest =>
      mysql_connector.bind (run_mutation m) (fun ok =>
      mysql_connector.bind (run_all rest) (fun oks => ret (ok :: oks)))
  end.

End Sequences.

(** What a log row says, without its time and message. *)
Definition log_line (e : SyncLogEntry) : string * string * string :=
  (log_reference e, action e, status e).

(** The log line a call leaves when it answers [ok]. *)
Definition expected_line `{Collation} (m : mutation) (ok : bool) : string * string * string :=
  (logged_reference m, logged_action m, if ok then "success" else "error").

(** Key and parent of a variant row. *)
Definition sku_and_parent (v : VariantMapping) : string * string :=
  (internal_sku v, parent_reference v).

End store_more_vocabulary.

(** ** Vocabulary and samples of the further statements about the sync loop *)

Module loop_vocabulary.
Import py helpers main vocabulary sync_vocabulary sync_samples.

(** The row has a size that is not empty. *)
Definition has_size (r : row) : bool :=
  match stated_size r with
  | [] => false
  | _ => true
  end.

(** The reference cell is there but null or blank. *)
Definition lacks_reference (r : row) : Prop :=
  exists v, row_lookup r "REFERENCIA" = Some v /\
            (v = CNull \/ all_spaces (str v) = true).

(** A full row of a sheet. *)
Definition sheet_row (reference description : string) : row :=
  [ ("REFERENCIA", CStr reference); ("DESCRIPCION", CStr description);
    ("PRECIO", CScalar "10.5"); ("STOCK", CScalar "1"); ("TIPO", CStr "sello") ].

(** A ring with a plain row and two sizes, the last row with a reference
    that ends in its slash. *)
Definition sized_sheet : list row :=
  [ sheet_row "ABC" "18K sello"; sheet_row "ABC/12" "18K sello";
    sheet_row "ABC/14" "18K sello"; sheet_row "ABC/" "18K sello" ].

Definition sample_price_of_cell (v : cell) : result (@float written_floats) :=
  Ok sample_price.

Definition sample_int_of_cell (v : cell) : result Z := Ok 1%Z.

(** Rows whose reference cell is empty, as below the last product of a
    sheet. *)
Definition empty_rows : list row :=
  [ [("REFERENCIA", CNull); ("DESCRIPCION", CNull)];
    [("REFERENCIA", CStr "  "); ("DESCRIPCION", CStr "x")];
    [("REFERENCIA", CNull); ("DESCRIPCION", CNull)] ].

End loop_vocabulary.

(** ** main.py: the two creators *)

Module main_creators.
Import py helpers migrations mysql_connector product_mapper main.

Section Creators.
Context `{FloatRuntime} `{Collation}.

Variable grams_of_weight : string -> result Z.   (* int(float(s)) *)

(** The [price] argument as the statement of [save_variant_mapping]
    receives it: [None] for a float that is falsy, else its
    DECIMAL(10,2) value in hundredths. *)
Variable decimal_of_price : float -> option Z.

(** The single [shopify.Variant] of a simple product: it has no
    [option1]. *)
Record SimpleVariant : Type := {
  simple_price : float;
  simple_sku : string;
  simple_inventory_management : string;
  simple_inventory_policy : string;
  simple_grams : Z;
  simple_cost : string
}.

(** The [shopify.Product] of [create_simple_product] as it stands when
    [save()] is called. *)
Record SimpleProduct : Type := {
  s_title : string;
  s_body_html : string;
  s_vendor : string;
  s_product_type : string;
  s_tags : string;
  s_published : bool;
  s_variants : list SimpleVariant
}.

(** [create_simple_product] up to [new_product.save()]. *)
Definition new_simple_product (pd : product_data) : result SimpleProduct :=
  py.bind (grams_of_weight (pd_weight pd)) (fun g =>
    Ok {| s_title := pd_title pd;
          s_body_html := pd_body_html pd;
          s_vendor := pd_vendor pd;
          s_product_type := pd_product_type pd;
          s_tags := pd_tags pd;
          s_published := true;
          s_variants :=
            [ {| simple_price := pd_price pd;
                 simple_sku := pd_sku pd;
                 simple_inventory_management := "shopify";
                 simple_inventory_policy := "deny";
                 simple_grams := g;
                 simple_cost := pd_cost pd |} ] |}).

(** A variant of the product object after a [save()] that succeeded: the
    attributes the mapper reads, and [inventory_item_id] when the answer
    of the shop carries it. *)
Record RemoteVariant : Type := {
  rv_variant : ShopifyVariant;
  inventory_item_id : option Z
}.

(** The product object after a [save()] that succeeded. *)
Record Saved : Type := {
  saved_product : ShopifyProduct;
  saved_variants : list RemoteVariant
}.

(** The remote shop.  [save()] raises, answers [False] ([None] here) or
    answers [True] and reloads the object from the answer of the shop;
    [InventoryLevel.set] raises or returns.  [create_product_metafields]
    and [setup_product_images] catch what their calls raise, so that
    they only act on the shop. *)
Variable Shop : Type.
Variable Location : Type.
Variable save_variant_product : Product -> Shop -> result (option Saved) * Shop.
Variable save_simple_product : SimpleProduct -> Shop -> result (option Saved) * Shop.
Variable inventory_level_set : Location -> Z -> Z -> Shop -> result unit * Shop.
Variable decorate : product_data -> Z -> Shop -> Shop.

(** The server behind the [ProductMapper] the creators are given. *)
Variable srv : Server.

Definition World : Type := (Shop * Connection)%type.

Definition create_simple_product (pd : product_data) (location_id : Location)
  (w : World) : bool * World :=
  match new_simple_product pd with
  | Raise _ => (false, w)
  | Ok new_product =>
      match save_simple_product new_product (fst w) with
      | (Ok (Some saved), shop1) =>
          match save_product_mapping (pd_sku pd) (saved_product saved) srv (snd w) with
          | (Ok true, c1) =>
              match saved_variants saved with
              | [] => (false, (shop1, c1))
              | first :: _ =>
                  match inventory_item_id first with
                  | None => (false, (shop1, c1))
                  | Some item =>
                      match inventory_level_set location_id item (pd_stock pd) shop1 with
                      | (Ok _, shop2) =>
                          (true, (decorate pd (sp_id (saved_product saved)) shop2, c1))
                      | (Raise _, shop2) => (false, (shop2, c1))
                      end
                  end
              end
          | (_, c1) => (false, (shop1, c1))
          end
      | (_, shop1) => (false, (shop1, snd w))
      end
  end.

(** The loop over [zip(new_product.variants, variants_data)]: [true]
    when it ran to its end, [false] when an exception left it. *)
Fixpoint map_variants (parent : string) (location_id : Location)
  (pairs : list (RemoteVariant * variant_data)) (w : World) : bool * World :=
  match pairs with
  | [] => (true, w)
  | (variant, var_data) :: rest =>
      match save_variant_mapping (vd_sku var_data) (rv_variant variant) parent
              (Some (vd_size var_data)) (decimal_of_price (vd_price var_data))
              srv (snd w) with
      | (Ok true, c1) =>
          match inventory_item_id variant with
          | None => (false, (fst w, c1))
          | Some item =>
              match inventory_level_set location_id item (vd_stock var_data) (fst w) with
              | (Ok _, shop1) => map_variants parent location_id rest (shop1, c1)
              | (Raise _, shop1) => (false, (shop1, c1))
              end
          end
      | (_, c1) => (false, (fst w, c1))
      end
  end.

Definition create_variant_product (pd : product_data) (variants_data : list variant_data)
  (location_id : Location) (w : World) : bool * World :=
  match new_variant_product grams_of_weight pd variants_data with
  | Raise _ => (false, w)
  | Ok new_product =>
      match save_variant_product new_product (fst w) with
      | (Ok (Some saved), shop1) =>
          match save_product_mapping (pd_sku pd) (saved_product saved) srv (snd w) with
          | (Ok true, c1) =>
              match map_variants (pd_sku pd) location_id
                      (combine (saved_variants saved) variants_data) (shop1, c1) with
              | (true, (shop2, c2)) =>
                  (true, (decorate pd (sp_id (saved_product saved)) shop2, c2))
              | (false, w2) => (false, w2)
              end
          | (_, c1) => (false, (shop1, c1))
          end
      | (_, shop1) => (false, (shop1, snd w))
      end
  end.

End Creators.

End main_creators.

(** ** Vocabulary and samples of the statements about the creators *)

Module creator_vocabulary.
Import py helpers migrations mysql_connector product_mapper main main_creators.
Import store_vocabulary sync_vocabulary sync_samples store_samples.

Section Calls.
Context `{FloatRuntime} `{Collation}.
Variable grams_of_weight : string -> result Z.
Variable decimal_of_price : float -> option Z.
Variable Shop : Type.
Variable save_variant_product : Product -> Shop -> result (option Saved) * Shop.

(** The mapper calls [create_variant_product] makes for a product the
    shop accepted, in its order: the product, then one call for each
    pair of [zip(new_product.variants, variants_data)]. *)
Definition variant_calls (parent : string)
  (pairs : list (RemoteVariant * variant_data)) : list mutation :=
  map (fun pair =>
         SaveVariant (vd_sku (snd pair)) (rv_variant (fst pair)) parent
           (Some (vd_size (snd pair))) (decimal_of_price (vd_price (snd pair))))
      pairs.

Definition creator_calls (pd : product_data) (saved : Saved)
  (variants_data : list variant_data) : list mutation :=
  SaveProduct (pd_sku pd) (saved_product saved)
    :: variant_calls (pd_sku pd) (combine (saved_variants saved) variants_data).

(** The mapper calls that lie ahead when [create_variant_product] is
    entered: none unless the product object can be built and the shop
    accepts it. *)
Definition planned_calls (pd : product_data) (variants_data : list variant_data)
  (shop : Shop) : list mutation :=
  match new_variant_product grams_of_weight pd variants_data with
  | Ok new_product =>
      match save_variant_product new_product shop with
      | (Ok (Some saved), _) => creator_calls pd saved variants_data
      | _ => []
      end
  | Raise _ => []
  end.

End Calls.

(** A shop that accepts every product, numbers its variants from 1 and
    counts the calls it received. *)
Definition answer_of_shop (n : nat) : Saved :=
  {| saved_product := remote_product 7;
     saved_variants :=
       map (fun i => {| rv_variant := remote_variant (Z.of_nat i);
                        inventory_item_id := Some (Z.of_nat i) |})
           (seq 1 n) |}.

Definition sample_save_variant_product (p : Product (H := written_floats)) (shop : nat)
  : result (option Saved) * nat :=
  (Ok (Some (answer_of_shop (length (p_variants p)))), S shop).

Definition sample_inventory_level_set (loc : unit) (item available : Z) (shop : nat)
  : result unit * nat :=
  (Ok tt, S shop).

Definition sample_decorate (pd : product_data (H := written_floats)) (id : Z) (shop : nat)
  : nat := S shop.

Definition sample_decimal_of_price (p : @float written_floats) : option Z := Some 2310%Z.

End creator_vocabulary.

(** ** main.py: the arguments of the command line *)

Module main_arguments.
Import py.

(** The whitespace [int()] skips around a numeral: TAB..CR, SPACE, NEL
    and NBSP.  FS..US, which [str.strip] removes, are not among them. *)
Definition int_space (c : ascii) : bool :=
  let n := nat_of_ascii c in
  ((9 <=? n)%nat && (n <=? 13)%nat) || (n =? 32)%nat
  || (n =? 133)%nat || (n =? 160)%nat.

Fixpoint skip_spaces (s : string) : string :=
  match s with
  | EmptyString => EmptyString
  | String c rest => if int_space c then skip_spaces rest else s
  end.

Fixpoint all_int_spaces (s : string) : bool :=
  match s with
  | EmptyString => true
  | String c rest => int_space c && all_int_spaces rest
  end.

Definition digit_value (c : ascii) : Z := Z.of_nat (nat_of_ascii c) - 48.

(** The digits of a numeral in base ten, single underscores allowed
    between two digits, whitespace allowed after the last digit: the
    value and the number of digits read. *)
Fixpoint int_digits (acc : Z) (count : nat) (after_digit : bool) (s : string)
  : option (Z * nat) :=
  match s with
  | EmptyString => if after_digit then Some (acc, count) else None
  | String c rest =>
      if isdigit c then int_digits (10 * acc + digit_value c) (S count) true rest
      else if (c =? "_")%char
      then (if after_digit then int_digits acc count false rest else None)
      else if after_digit && all_int_spaces s then Some (acc, count)
      else None
  end.

(** The sign a numeral may begin with, and what follows it. *)
Definition split_sign (numeral : string) : bool * string :=
  match numeral with
  | String c rest =>
      if (c =? "-")%char then (true, rest)
      else if (c =? "+")%char then (false, rest)
      else (false, numeral)
  | EmptyString => (false, numeral)
  end.

Section Int.

(** [sys.get_int_max_str_digits()]: 0 when the interpreter sets no limit
    to the digits of a numeral, else the limit (4300 unless changed, and
    never below 640). *)
Variable max_str_digits : nat.

(** [int(s)] for a [str]. *)
Definition int_of_str (s : string) : result Z :=
  let (negative, digits) := split_sign (skip_spaces s) in
  match int_digits 0 0 false digits with
  | Some (n, count) =>
      if (0 <? max_str_digits)%nat && (max_str_digits <? count)%nat
      then Raise ValueError
      else Ok (if negative then (- n)%Z else n)
  | None => Raise ValueError
  end.

(** The three ways in which [main] refuses its mode argument, by the
    message it logs before [sys.exit(1)]. *)
Inductive refusal : Type :=
| WrongPrefix      (* "El modo debe comenzar con 'screen-' o 'api-' ..." *)
| NotPositive      (* "El numero de lineas debe ser mayor que 0" *)
| InvalidFormat.   (* "Formato de modo invalido" *)

Inductive mode_check : Type :=
| Accepted (mode_type : string) (num_lines : Z)
| Refused (why : refusal).

(** The validation of [sys.argv[2]] in [main]. *)
Definition check_mode (mode : string) : mode_check :=
  if negb (prefix "screen-" mode || prefix "api-" mode) then Refused WrongPrefix
  else
    match split "-" mode with
    | [mode_type; num_lines] =>
        match int_of_str num_lines with
        | Ok n => if (n <=? 0)%Z then Refused NotPositive else Accepted mode_type n
        | Raise _ => Refused InvalidFormat
        end
    | _ => Refused InvalidFormat
    end.

End Int.

End main_arguments.

(** ** main.py: the images of a row *)

Module main_images.
Import py helpers.

(** An element of the list [prepare_images_data] returns, without its
    alternative text. *)
Record image : Type := {
  src : string;
  position : nat
}.

Definition image_columns : list string := ["IMAGEN 1"; "IMAGEN 2"; "IMAGEN 3"].

(** [enumerate(l, start)] *)
Definition enumerate {A} (start : nat) (l : list A) : list (nat * A) :=
  combine (seq start (length l)) l.

(** [s.startswith(('http://', 'https://'))] *)
Definition has_scheme (s : string) : bool :=
  prefix "http://" s || prefix "https://" s.

(** One round of the loop of [prepare_images_data]. *)
Definition image_of (r : row) (item : nat * string) : list image :=
  let img_src :=
    clean_value (match row_lookup r (snd item) with
                 | Some v => v
                 | None => CStr EmptyString
                 end) in
  match img_src with
  | EmptyString => []
  | _ => [ {| src := (if has_scheme img_src then img_src
                      else "https://" ++ img_src)%string;
              position := fst item |} ]
  end.

Definition prepare_images_data (r : row) : list image :=
  flat_map (image_of r) (enumerate 1 image_columns).

End main_images.

(** ** update-new.py, update-original.py, update_from_presta.py *)

Module update_products.
Import py helpers migrations mysql_connector product_mapper.

(** [str.isdigit] on code points below 256: the ASCII digits and the
    superscripts two, three and one; false for the empty string. *)
Definition isdigit_char (c : ascii) : bool :=
  let n := nat_of_ascii c in
  ((48 <=? n)%nat && (n <=? 57)%nat) || (n =? 178)%nat || (n =? 179)%nat
  || (n =? 185)%nat.

Fixpoint all_digits (s : string) : bool :=
  match s with
  | EmptyString => true
  | String c rest => isdigit_char c && all_digits rest
  end.

Definition str_isdigit (s : string) : bool :=
  match s with
  | EmptyString => false
  | _ => all_digits s
  end.

Fixpoint zeros (n : nat) : string :=
  match n with
  | 0 => EmptyString
  | S m => String "0" (zeros m)
  end.

(** [s.zfill(width)]: zeros on the left up to [width], after a leading
    sign. *)
Definition zfill (width : nat) (s : string) : string :=
  let fill := zeros (width - String.length s) in
  match s with
  | String c rest =>
      if (c =? "+")%char || (c =? "-")%char then String c (fill ++ rest)%string
      else (fill ++ s)%string
  | EmptyString => fill
  end.

(** The key under which [analyze_references] files a reference. *)
Definition reference_key (reference : cell) : string :=
  if str_isdigit (str reference) then zfill 4 (str reference)
  else strip (str reference).

(** A value of the dict [analyze_references] returns. *)
Record reference_entry : Type := {
  count : nat;
  first_occurrence : row;
  row_numbers : list nat
}.

(** An element of the list of duplicated rows. *)
Record duplicated_row : Type := {
  dup_reference : string;
  dup_row_number : nat;
  dup_title : cell
}.

Definition sin_titulo : string :=
  ("Sin t" ++ String (ascii_of_nat 237) "tulo")%string.

(** [row.get(field, default)] *)
Definition row_get (r : row) (field : string) (default : cell) : cell :=
  match row_lookup r field with
  | Some v => v
  | None => default
  end.

Definition count_again (idx : nat) (e : reference_entry) : reference_entry :=
  {| count := S (count e);
     first_occurrence := first_occurrence e;
     row_numbers := row_numbers e ++ [idx + 1] |}.

(** One round of the loop over [df.iterrows()]; [idx] is the label of
    the row, which for a sheet as read is its position from 0. *)
Definition analyze_row (idx : nat) (r : row)
  (acc : dict reference_entry * list duplicated_row)
  : dict reference_entry * list duplicated_row :=
  let reference := row_get r "Variant SKU" (CStr EmptyString) in
  if isna reference || eq_str reference EmptyString then acc
  else
    let key := reference_key reference in
    if negb (dict_mem (fst acc) key)
    then (dict_set (fst acc) key
            {| count := 1; first_occurrence := r; row_numbers := [idx + 1] |},
          snd acc)
    else (dict_alter (count_again idx) (fst acc) key,
          snd acc ++
            [ {| dup_reference := key;
                 dup_row_number := idx + 1;
                 dup_title := row_get r "Title" (CStr sin_titulo) |} ]).

Fixpoint analyze_rows (idx : nat) (df : list row)
  (acc : dict reference_entry * list duplicated_row)
  : dict reference_entry * list duplicated_row :=
  match df with
  | [] => acc
  | r :: rest => analyze_rows (S idx) rest (analyze_row idx r acc)
  end.

(** [sorted(d.items())] for a dict: its keys are distinct, so that the
    order of the keys decides. *)
Fixpoint insert_item {V} (x : string * V) (l : list (string * V)) : list (string * V) :=
  match l with
  | [] => [x]
  | y :: rest =>
      if String.leb (fst x) (fst y) then x :: l else y :: insert_item x rest
  end.

Definition sorted_items {V} (d : dict V) : dict V := fold_right insert_item [] d.

Definition analyze_references (df : list row)
  : dict reference_entry * list duplicated_row :=
  let (reference_info, duplicated_rows) := analyze_rows 0 df ([], []) in
  (sorted_items reference_info, duplicated_rows).

Section Lookup.
Context `{Collation}.

(** The product document the shop gives for a product id: the answer of
    [requests.get] on [/products/{id}.json] (in [update-new.py] with the
    metafields a second request fetches), [None] when a request raises,
    answers another status than 200 or cannot be decoded. *)
Variable Document : Type.
Variable fetch_product : Z -> option Document.

Local Open Scope db_scope.

Definition get_product_by_reference (internal_reference : string)
  : DB (option Document) :=
  try_except
    (let internal_reference :=
       if str_isdigit internal_reference then zfill 4 internal_reference
       else internal_reference in
     mapping <- get_product_mapping internal_reference ;;
     match mapping with
     | None => ret None
     | Some m => ret (fetch_product (shopify_product_id (product m)))
     end)
    (fun e => ret None).

End Lookup.

End update_products.

(** ** Vocabulary of the statements about the arguments, the images and
    the update scripts *)

Module update_vocabulary.
Import py helpers migrations mysql_connector product_mapper.
Import main_arguments main_images update_products.

(** The rows of a sheet that carry a reference, each with its key and
    its row number (from 1), in sheet order. *)
Fixpoint referenced (idx : nat) (df : list row) : list (string * nat * row) :=
  match df with
  | [] => []
  | r :: rest =>
      let reference := row_get r "Variant SKU" (CStr EmptyString) in
      (if isna reference || eq_str reference EmptyString then []
       else [(reference_key reference, idx + 1, r)])
      ++ referenced (S idx) rest
  end.

Definition key_of (e : string * nat * row) : string := fst (fst e).
Definition number_of (e : string * nat * row) : nat := snd (fst e).
Definition row_of (e : string * nat * row) : row := snd e.

(** The referenced rows filed under [k]. *)
Definition filed_under (k : string) (es : list (string * nat * row))
  : list (string * nat * row) :=
  filter (fun e => (key_of e =? k)%string) es.

(** The key [get_product_by_reference] looks up. *)
Definition lookup_key (internal_reference : string) : string :=
  if str_isdigit internal_reference then zfill 4 internal_reference
  else internal_reference.

(** The cell [prepare_images_data] reads for a column. *)
Definition image_cell (r : row) (column : string) : cell :=
  match row_lookup r column with
  | Some v => v
  | None => CStr EmptyString
  end.

(** What [summary] files for a key: the value [analyze_references]
    holds for it, read off the referenced rows. *)
Definition summary (k : string) (es : list (string * nat * row))
  : option reference_entry :=
  match filed_under k es with
  | [] => None
  | e :: more =>
      Some {| count := S (length more);
              first_occurrence := row_of e;
              row_numbers := number_of e :: map number_of more |}
  end.

(** The entry of the list of duplicated rows for a referenced row. *)
Definition duplicate_of (e : string * nat * row) : duplicated_row :=
  {| dup_reference := key_of e;
     dup_row_number := number_of e;
     dup_title := row_get (row_of e) "Title" (CStr sin_titulo) |}.

(** The state of the loop of [analyze_references] after the referenced
    rows [es]: every key holds its summary, the duplicated rows of a key
    are its rows after the first, each referenced row is counted once,
    and no key is held twice. *)
Definition analysed (d : dict reference_entry) (dups : list duplicated_row)
  (es : list (string * nat * row)) : Prop :=
  (forall k, dict_get d k = summary k es) /\
  (forall k, filter (fun x => (dup_reference x =? k)%string) dups =
             map duplicate_of (tl (filed_under k es))) /\
  length d + length dups = length es /\
  NoDup (map fst d).

(** A numeral in the sense of [str(n)] for [n > 0]. *)
Definition plain_numeral (n : Z) : string := str_of_int n.

Definition sample_fetch (id : Z) : option Z := Some id.

End update_vocabulary.

(* ===================================================================== *)
(** * Part II: theorems                                                   *)
(* ===================================================================== *)

Unset Implicit Arguments.

(** ** Reference splitting *)

Module reference_facts.
Import py helpers vocabulary.

Lemma split_not_nil sep s : split sep s <> [].
Proof.
  destruct s as [|c rest]; simpl; [discriminate|].
  destruct (c =? sep)%char; [discriminate|].
  destruct (split sep rest); discriminate.
Qed.

Lemma split_without sep s : contains sep s = false -> split sep s = [s].
Proof.
  induction s as [|c rest IH]; simpl; [reflexivity|].
  destruct (c =? sep)%char; [discriminate|].
  intros Hrest. rewrite (IH Hrest). reflexivity.
Qed.

Lemma split_at_first sep base rest :
  contains sep base = false ->
  split sep (base ++ String sep rest) = base :: split sep rest.
Proof.
  induction base as [|c base IH]; simpl.
  - intros _. rewrite Ascii.eqb_refl. reflexivity.
  - destruct (c =? sep)%char; [discriminate|].
    intros Hbase. rewrite (IH Hbase). reflexivity.
Qed.

Lemma contains_app sep base rest : contains sep (base ++ String sep rest) = true.
Proof.
  induction base as [|c base IH]; simpl.
  - now rewrite Ascii.eqb_refl.
  - destruct (c =? sep)%char; [reflexivity|exact IH].
Qed.

(** A string that holds the separator splits, in exactly one way, into a
    prefix without it, the separator, and a remainder. *)
Lemma first_occurrence sep s :
  contains sep s = true ->
  exists base rest, s = (base ++ String sep rest)%string /\ contains sep base = false.
Proof.
  induction s as [|c s IH]; simpl; [discriminate|].
  destruct (c =? sep)%char eqn:E.
  - intros _. apply Ascii.eqb_eq in E. subst c.
    exists EmptyString, s. split; reflexivity.
  - intros Hs. destruct (IH Hs) as (base & rest & -> & Hbase).
    exists (String c base), rest. simpl. rewrite E. split; [reflexivity|exact Hbase].
Qed.

Lemma first_occurrence_unique sep b1 r1 b2 r2 :
  (b1 ++ String sep r1)%string = (b2 ++ String sep r2)%string ->
  contains sep b1 = false -> contains sep b2 = false ->
  b1 = b2 /\ r1 = r2.
Proof.
  revert b2. induction b1 as [|c b1 IH]; intros [|d b2]; simpl.
  - intros E _ _. inversion E. split; reflexivity.
  - intros E _. inversion E; subst. now rewrite Ascii.eqb_refl.
  - intros E. inversion E; subst. now rewrite Ascii.eqb_refl.
  - intros E. injection E as Ecd Etail. subst d.
    destruct (c =? sep)%char; [discriminate|].
    intros Hb1 Hb2. destruct (IH _ Etail Hb1 Hb2) as [-> ->]. split; reflexivity.
Qed.

(** With a separator in the string there are at least two segments: the
    indices 0 and 1 that the resolver reads exist. *)
Lemma split_two_segments sep s :
  contains sep s = true -> 2 <= length (split sep s).
Proof.
  intros Hs. destruct (first_occurrence _ _ Hs) as (base & rest & -> & Hbase).
  rewrite (split_at_first _ _ _ Hbase). simpl.
  pose proof (split_not_nil sep rest). destruct (split sep rest); [contradiction|].
  simpl. lia.
Qed.

(** The first segment of a split is the base reference, slash or not. *)
Lemma first_segment s : nth 0 (split "/" s) EmptyString = get_base_reference s.
Proof.
  unfold get_base_reference. destruct (contains "/" s) eqn:E; [reflexivity|].
  now rewrite (split_without _ _ E).
Qed.

Lemma get_base_reference_app base rest :
  contains "/" base = false ->
  get_base_reference (base ++ String "/" rest) = base.
Proof.
  intros Hbase. unfold get_base_reference.
  rewrite contains_app, (split_at_first _ _ _ Hbase). reflexivity.
Qed.

Lemma get_variant_size_app base rest :
  contains "/" base = false ->
  get_variant_size (base ++ String "/" rest) = Some (get_base_reference rest).
Proof.
  intros Hbase. unfold get_variant_size.
  rewrite contains_app, (split_at_first _ _ _ Hbase). simpl.
  now rewrite first_segment.
Qed.

Lemma get_base_reference_without s :
  contains "/" s = false -> get_base_reference s = s.
Proof. intros E. unfold get_base_reference. now rewrite E. Qed.

Lemma base_has_no_slash s : contains "/" (get_base_reference s) = false.
Proof.
  destruct (contains "/" s) eqn:E.
  - destruct (first_occurrence _ _ E) as (base & rest & -> & Hbase).
    now rewrite get_base_reference_app.
  - now rewrite get_base_reference_without.
Qed.

(** C1, as stated, fails: with a second slash in the reference,
    [get_variant_size] stops at it instead of returning the whole
    remainder. *)
Lemma size_is_not_whole_remainder :
  contains "/" "A/B/C" = true /\
  get_variant_size "A/B/C" = Some "B" /\
  ~ splits_at_first_slash "A/B/C".
Proof.
  split; [reflexivity|]. split; [reflexivity|].
  intros (base & suffix & Hsplit & Hbase & _ & Hsize).
  assert (Hab : contains "/" "A" = false) by reflexivity.
  destruct (first_occurrence_unique "/" "A" "B/C" base suffix Hsplit Hab Hbase)
    as [_ <-].
  discriminate Hsize.
Qed.

(** C1 (amended): a reference with a slash splits at its first slash into
    base and remainder; [get_base_reference] returns the base and
    [get_variant_size] the remainder up to its own first slash, which is
    the whole remainder when the reference holds a single slash.  Without
    a slash the reference is its own base and there is no size. *)
Theorem reference_split (reference : string) :
  (contains "/" reference = true ->
   exists base suffix,
     reference = (base ++ "/" ++ suffix)%string /\
     contains "/" base = false /\
     get_base_reference reference = base /\
     get_variant_size reference = Some (get_base_reference suffix) /\
     (contains "/" suffix = false -> get_variant_size reference = Some suffix)) /\
  (contains "/" reference = false ->
   get_base_reference reference = reference /\ get_variant_size reference = None).
Proof.
  split.
  - intros Hslash.
    destruct (first_occurrence _ _ Hslash) as (base & suffix & -> & Hbase).
    exists base, suffix.
    rewrite (get_base_reference_app _ _ Hbase), (get_variant_size_app _ _ Hbase).
    repeat split; try assumption.
    intros Hsuffix. now rewrite (get_base_reference_without _ Hsuffix).
  - intros Hnone. unfold get_base_reference, get_variant_size.
    rewrite Hnone. split; reflexivity.
Qed.

Lemma reference_split_witness :
  (exists base suffix,
     "ABC/S" = (base ++ "/" ++ suffix)%string /\
     contains "/" base = false /\
     get_base_reference "ABC/S" = base /\
     get_variant_size "ABC/S" = Some (get_base_reference suffix) /\
     (contains "/" suffix = false -> get_variant_size "ABC/S" = Some suffix)) /\
  (get_base_reference "XYZ" = "XYZ" /\ get_variant_size "XYZ" = None).
Proof.
  split.
  - apply (proj1 (reference_split "ABC/S")). reflexivity.
  - apply (proj2 (reference_split "XYZ")). reflexivity.
Defined.

End reference_facts.

(** ** Grouping rows by base reference *)

Module grouping_facts.
Import py helpers vocabulary.

Lemma dict_get_set {V} (d : dict V) k v k' :
  dict_get (dict_set d k v) k' =
  if (k =? k')%string then Some v else dict_get d k'.
Proof.
  induction d as [|[k0 v0] d IH]; simpl.
  - reflexivity.
  - destruct (k0 =? k)%string eqn:E0; simpl.
    + apply String.eqb_eq in E0. subst k0.
      destruct (k =? k')%string; reflexivity.
    + rewrite IH. destruct (k0 =? k')%string eqn:E1; [|reflexivity].
      apply String.eqb_eq in E1. subst k0.
      rewrite String.eqb_sym in E0. now rewrite E0.
Qed.

Lemma dict_get_alter {V} (f : V -> V) (d : dict V) k k' :
  dict_get (dict_alter f d k) k' =
  if (k =? k')%string then option_map f (dict_get d k') else dict_get d k'.
Proof.
  induction d as [|[k0 v0] d IH]; simpl.
  - now destruct (k =? k')%string.
  - destruct (k0 =? k)%string eqn:E0; simpl.
    + apply String.eqb_eq in E0. subst k0.
      destruct (k =? k')%string; reflexivity.
    + rewrite IH. destruct (k0 =? k')%string eqn:E1; [|reflexivity].
      apply String.eqb_eq in E1. subst k0.
      rewrite String.eqb_sym in E0. now rewrite E0.
Qed.

Lemma group_rows_app acc df1 df2 :
  group_rows acc (df1 ++ df2) =
  bind (group_rows acc df1) (fun products => group_rows products df2).
Proof.
  revert acc. induction df1 as [|r df1 IH]; intros acc; simpl; [reflexivity|].
  destruct (group_row acc r) as [products|e]; simpl; [apply IH|reflexivity].
Qed.

Lemma group_variants_snoc df r :
  group_variants (df ++ [r]) =
  bind (group_variants df) (fun products => group_row products r).
Proof.
  unfold group_variants. rewrite group_rows_app.
  destruct (group_rows [] df) as [products|e]; simpl; [|reflexivity].
  now destruct (group_row products r).
Qed.

(** Grouping answers exactly when every row has a reference column. *)
Lemma group_variants_total df :
  Forall has_reference df -> exists products, group_variants df = Ok products.
Proof.
  induction df as [|r df IH] using rev_ind; intros Hall.
  - exists []. reflexivity.
  - apply Forall_app in Hall. destruct Hall as [Hdf Hr].
    destruct (IH Hdf) as [products Hp].
    rewrite group_variants_snoc, Hp. simpl.
    inversion Hr as [|? ? Hhas _]; subst. unfold has_reference in Hhas.
    unfold group_row, row_item.
    destruct (row_lookup r "REFERENCIA"); [|contradiction]. simpl. eauto.
Qed.

Lemma group_variants_has_reference df products :
  group_variants df = Ok products -> Forall has_reference df.
Proof.
  revert products. induction df as [|r df IH] using rev_ind; intros products.
  - constructor.
  - rewrite group_variants_snoc.
    destruct (group_variants df) as [p0|e] eqn:E; simpl; [|discriminate].
    intros Hrow. apply Forall_app. split; [now apply (IH p0)|].
    constructor; [|constructor].
    unfold group_row, row_item in Hrow. unfold has_reference.
    destruct (row_lookup r "REFERENCIA"); [discriminate|discriminate Hrow].
Qed.

Lemma bucket_of_rows_variants_nonempty mine b :
  bucket_of_rows mine = Some b -> length (variants b) <> 0.
Proof.
  destruct mine as [|first others]; simpl; [discriminate|].
  intros E. injection E as <-. simpl.
  destruct (carries_suffix first); simpl; discriminate.
Qed.

(** One step of the loop, seen from one base reference. *)
Lemma group_row_bucket products r products' df :
  (forall b, dict_get products b = bucket_for b df) ->
  group_row products r = Ok products' ->
  forall b, dict_get products' b = bucket_for b (df ++ [r]).
Proof.
  intros Hinv Hstep b.
  unfold group_row, row_item in Hstep.
  destruct (row_lookup r "REFERENCIA") as [v|] eqn:Hv; [|discriminate].
  simpl in Hstep. injection Hstep as <-.
  assert (Href : reference_of r = clean_value v)
    by (unfold reference_of; now rewrite Hv).
  unfold bucket_for. rewrite filter_app. simpl.
  unfold in_bucket at 2. rewrite Href.
  set (base := get_base_reference (clean_value v)).
  assert (Hget : forall f,
    dict_get (dict_alter f
      (if dict_mem products base then products
       else dict_set products base
              {| is_variant_product := false; base_data := r; variants := [] |})
      base) b =
    if (base =? b)%string
    then option_map f
           (match bucket_for b df with
            | Some old => Some old
            | None => Some {| is_variant_product := false; base_data := r;
                              variants := [] |}
            end)
    else bucket_for b df).
  { intros f. rewrite dict_get_alter.
    destruct (base =? b)%string eqn:Eb.
    - apply String.eqb_eq in Eb. subst b. unfold dict_mem.
      rewrite <- Hinv. destruct (dict_get products base) eqn:Eg.
      + now rewrite Eg.
      + now rewrite dict_get_set, String.eqb_refl.
    - unfold dict_mem. destruct (dict_get products base).
      + apply Hinv.
      + rewrite dict_get_set, Eb. apply Hinv. }
  assert (Hcarry : carries_suffix r = is_variant_reference (clean_value v))
    by (unfold carries_suffix; now rewrite Href).
  destruct (is_variant_reference (clean_value v)) eqn:Evar; rewrite Hget;
    unfold bucket_for;
    destruct (base =? b)%string eqn:Eb; try (now rewrite app_nil_r);
    destruct (filter (in_bucket b) df) as [|first others] eqn:Ef; simpl;
    rewrite ?Hcarry; try reflexivity.
  - (* a suffixed row joins an existing bucket *)
    rewrite existsb_app, filter_app. simpl. rewrite Hcarry.
    rewrite !Bool.orb_true_r.
    destruct (carries_suffix first); simpl; now rewrite <- ?app_assoc.
  - (* a plain row meets an existing bucket: nothing changes *)
    rewrite existsb_app, filter_app. simpl. rewrite Hcarry, app_nil_r.
    rewrite !Bool.orb_false_r.
    destruct (carries_suffix first); reflexivity.
Qed.

(** The dict [group_variants] returns, key by key. *)
Lemma group_variants_bucket df products :
  group_variants df = Ok products ->
  forall b, dict_get products b = bucket_for b df.
Proof.
  revert products. induction df as [|r df IH] using rev_ind; intros products.
  - intros E. injection E as <-. reflexivity.
  - rewrite group_variants_snoc.
    destruct (group_variants df) as [p0|e]; simpl; [|discriminate].
    intros Hstep. exact (group_row_bucket _ _ _ _ (IH p0 eq_refl) Hstep).
Qed.

Lemma dict_get_none_keys {V} (d : dict V) k :
  dict_get d k = None <-> ~ In k (map fst d).
Proof.
  induction d as [|[k0 v0] d IH]; simpl; [tauto|].
  destruct (String.eqb_spec k0 k) as [->|Hne].
  - split; [discriminate|]. intros Hnot. exfalso. apply Hnot. now left.
  - rewrite IH. tauto.
Qed.

Lemma dict_alter_keys {V} (f : V -> V) (d : dict V) k :
  map fst (dict_alter f d k) = map fst d.
Proof.
  induction d as [|[k0 v0] d IH]; simpl; [reflexivity|].
  destruct (k0 =? k)%string; simpl; [reflexivity|now rewrite IH].
Qed.

Lemma dict_set_fresh_keys {V} (d : dict V) k v :
  dict_get d k = None -> map fst (dict_set d k v) = map fst d ++ [k].
Proof.
  induction d as [|[k0 v0] d IH]; simpl; [reflexivity|].
  destruct (k0 =? k)%string; [discriminate|].
  intros Hnone. simpl. now rewrite (IH Hnone).
Qed.

Lemma first_seen_snoc l x :
  first_seen (l ++ [x]) = if in_dec string_dec x l then first_seen l else first_seen l ++ [x].
Proof.
  unfold first_seen. rewrite rev_app_distr. simpl.
  destruct (in_dec string_dec x (rev l)) as [Hin|Hnot];
    destruct (in_dec string_dec x l) as [Hin'|Hnot']; try reflexivity.
  - apply in_rev in Hin. contradiction.
  - apply in_rev in Hin'. contradiction.
Qed.

Lemma first_seen_in l x : In x (first_seen l) <-> In x l.
Proof.
  unfold first_seen. rewrite <- in_rev, nodup_In, <- in_rev. tauto.
Qed.

(** The keys of the dict are the base references of the rows, each once,
    in the order of their first rows: the order in which the sync loop
    will meet the products. *)
Lemma group_variants_keys df products :
  group_variants df = Ok products -> map fst products = first_seen (bases df).
Proof.
  revert products. induction df as [|r df IH] using rev_ind; intros products.
  - intros E. injection E as <-. reflexivity.
  - rewrite group_variants_snoc.
    destruct (group_variants df) as [p0|e]; simpl; [|discriminate].
    specialize (IH p0 eq_refl). unfold group_row, row_item.
    destruct (row_lookup r "REFERENCIA") as [v|] eqn:Hv; [|discriminate].
    simpl. intros E. injection E as <-.
    assert (Hbase : get_base_reference (reference_of r)
                    = get_base_reference (clean_value v))
      by (unfold reference_of; now rewrite Hv).
    unfold bases. rewrite map_app. simpl. rewrite first_seen_snoc, Hbase.
    fold (bases df). set (base := get_base_reference (clean_value v)).
    assert (Hkeys : map fst (if dict_mem p0 base then p0
                             else dict_set p0 base
                                    {| is_variant_product := false;
                                       base_data := r; variants := [] |})
                    = if in_dec string_dec base (bases df)
                      then first_seen (bases df)
                      else first_seen (bases df) ++ [base]).
    { unfold dict_mem. destruct (dict_get p0 base) eqn:Eg.
      - destruct (in_dec string_dec base (bases df)) as [_|Hnot]; [exact IH|].
        exfalso. apply Hnot. apply first_seen_in. rewrite <- IH.
        destruct (in_dec string_dec base (map fst p0)) as [Hin|Hout]; [exact Hin|].
        apply dict_get_none_keys in Hout. congruence.
      - rewrite (dict_set_fresh_keys _ _ _ Eg), IH.
        destruct (in_dec string_dec base (bases df)) as [Hin|_]; [|reflexivity].
        exfalso. apply first_seen_in in Hin. rewrite <- IH in Hin.
        apply dict_get_none_keys in Eg. contradiction. }
    destruct (is_variant_reference (clean_value v)); now rewrite dict_alter_keys.
Qed.

Lemma filter_first {A} (P : A -> bool) (l : list A) x rest :
  filter P l = x :: rest ->
  exists before after,
    l = before ++ x :: after /\ P x = true /\
    Forall (fun y => P y = false) before /\ filter P after = rest.
Proof.
  induction l as [|a l IH]; simpl; [discriminate|].
  destruct (P a) eqn:Ea.
  - intros E. injection E as -> <-. exists [], l. repeat split; auto.
  - intros E. destruct (IH E) as (before & after & -> & Hx & Hb & Ha).
    exists (a :: before), after. repeat split; auto.
Qed.

Lemma filter_skip {A} (P : A -> bool) (before l : list A) :
  Forall (fun y => P y = false) before -> filter P (before ++ l) = filter P l.
Proof.
  induction 1 as [|a before Ha _ IH]; simpl; [reflexivity|]. now rewrite Ha.
Qed.

(** C4, as stated, fails: the bucket of a lone plain row is a simple
    product, but its variants list is not empty; it holds the row. *)
Lemma lone_row_is_listed_as_variant :
  group_variants [reference_row "XYZ"] =
    Ok [("XYZ", {| is_variant_product := false;
                   base_data := reference_row "XYZ";
                   variants := [reference_row "XYZ"] |})] /\
  ~ (exists b, group_variants [reference_row "XYZ"] = Ok [("XYZ", b)] /\
               is_variant_product b = false /\ length (variants b) = 0).
Proof.
  split; [reflexivity|].
  intros (b & Hgroup & _ & Hlen).
  vm_compute in Hgroup. injection Hgroup as <-. discriminate Hlen.
Qed.

(** C4 (amended): grouping a single row with a slashless reference yields
    exactly one bucket, keyed by that reference, that is a simple product;
    its variants list holds that one row, which carries no suffix. *)
Theorem lone_plain_row (r : row) (v : cell) :
  row_lookup r "REFERENCIA" = Some v ->
  contains "/" (clean_value v) = false ->
  group_variants [r] =
    Ok [(clean_value v, {| is_variant_product := false;
                          base_data := r;
                          variants := [r] |})] /\
  carries_suffix r = false.
Proof.
  intros Hv Hplain. unfold carries_suffix, reference_of, is_variant_reference.
  rewrite Hv. split; [|exact Hplain].
  unfold group_variants, group_rows, group_row, row_item. rewrite Hv. simpl.
  unfold is_variant_reference, get_base_reference. rewrite Hplain. simpl.
  now rewrite String.eqb_refl.
Qed.

Lemma lone_plain_row_witness :
  group_variants [reference_row "XYZ"] =
    Ok [("XYZ", {| is_variant_product := false;
                   base_data := reference_row "XYZ";
                   variants := [reference_row "XYZ"] |})] /\
  carries_suffix (reference_row "XYZ") = false.
Proof.
  apply (lone_plain_row (reference_row "XYZ") (CStr "XYZ")); reflexivity.
Defined.



(** C9: when the first row of a base reference is plain and a later row of
    the same base carries a suffix, the bucket ends up a variant product
    whose variants list starts with the plain row and goes on with the
    suffixed rows of that base, in order. *)
Theorem plain_row_stays_among_variants
  (df before between after : list row) (r0 r1 : row) (b : string) :
  df = before ++ r0 :: between ++ r1 :: after ->
  Forall has_reference df ->
  Forall (fun r => in_bucket b r = false) before ->
  in_bucket b r0 = true -> carries_suffix r0 = false ->
  in_bucket b r1 = true -> carries_suffix r1 = true ->
  exists products B,
    group_variants df = Ok products /\
    dict_get products b = Some B /\
    is_variant_product B = true /\
    base_data B = r0 /\
    variants B = r0 :: filter carries_suffix (filter (in_bucket b) df) /\
    In r1 (variants B).
Proof.
  intros -> Hall Hbefore Hb0 Hplain Hb1 Hsuffix.
  destruct (group_variants_total _ Hall) as [products Hp].
  pose proof (group_variants_bucket _ _ Hp b) as HB.
  unfold bucket_for in HB. rewrite (filter_skip _ _ _ Hbefore) in HB.
  rewrite (filter_skip _ _ _ Hbefore).
  simpl in HB |- *. rewrite Hb0 in HB |- *. simpl in HB.
  rewrite Hplain in HB. simpl in HB.
  exists products. eexists. split; [exact Hp|]. split; [exact HB|].
  cbn [is_variant_product base_data variants]. simpl. rewrite Hplain.
  assert (Hin : In r1 (filter carries_suffix
                         (filter (in_bucket b) (between ++ r1 :: after)))).
  { apply filter_In. split; [|exact Hsuffix].
    apply filter_In. split; [|exact Hb1].
    apply in_or_app. right. now left. }
  repeat split.
  - apply existsb_exists. exists r1. split; [|exact Hsuffix].
    apply filter_In in Hin. tauto.
  - now right.
Qed.

Lemma plain_row_stays_among_variants_witness :
  exists products B,
    group_variants [reference_row "ABC"; reference_row "ABC/S"] = Ok products /\
    dict_get products "ABC" = Some B /\
    is_variant_product B = true /\
    base_data B = reference_row "ABC" /\
    variants B =
      reference_row "ABC" ::
        filter carries_suffix
          (filter (in_bucket "ABC") [reference_row "ABC"; reference_row "ABC/S"]) /\
    In (reference_row "ABC/S") (variants B).
Proof.
  apply (plain_row_stays_among_variants
           [reference_row "ABC"; reference_row "ABC/S"] [] [] []
           (reference_row "ABC") (reference_row "ABC/S") "ABC").
  - reflexivity.
  - repeat constructor; discriminate.
  - constructor.
  - reflexivity.
  - reflexivity.
  - reflexivity.
  - reflexivity.
Defined.

End grouping_facts.

(** ** The mapping store *)

Module store_facts.
Import py migrations mysql_connector product_mapper store_vocabulary.

Create HintDb db_ops.
#[local] Hint Unfold mysql_connector.bind ret raise try_except execute_query : db_ops.

Ltac run_db := autounfold with db_ops; cbn [statements database fst snd].

Section Runs.
Context `{Collation}.

(** The log append never raises and always costs one statement. *)
Lemma log_sync_run ref act st msg srv c :
  _log_sync ref act st msg srv c =
  (Ok tt, {| database := log_attempt srv (statements c) ref act st msg (database c);
             statements := S (statements c) |}).
Proof.
  unfold _log_sync, log_attempt. run_db. unfold sql_insert_log.
  destruct (fault srv (statements c)); reflexivity.
Qed.

(** Every mutating call is its first statement followed by one log
    append, whose wording depends on how the first statement went. *)
Lemma run_mutation_run m srv c :
  run_mutation m srv c =
  match primary_outcome m srv c with
  | Ok db1 =>
      (Ok true,
       {| database := log_attempt srv (S (statements c)) (logged_reference m)
                        (logged_action m) "success" (success_message m) db1;
          statements := S (S (statements c)) |})
  | Raise e =>
      (Ok false,
       {| database := log_attempt srv (S (statements c)) (logged_reference m)
                        (logged_action m) "error" (exn_str e) (database c);
          statements := S (S (statements c)) |})
  end.
Proof.
  unfold primary_outcome.
  destruct m as [ref p|sku v parent sz pr|ref]; cbn [run_mutation primary_statement];
    [unfold save_product_mapping|unfold save_variant_mapping|unfold delete_product_mapping];
    unfold try_except at 1; unfold mysql_connector.bind at 1; unfold execute_query at 1;
    cbn [statements database];
    (destruct (fault srv (statements c)) as [msg|];
     [ unfold mysql_connector.bind; rewrite log_sync_run; reflexivity | ]).
  - unfold sql_upsert_product. unfold mysql_connector.bind.
    rewrite log_sync_run. reflexivity.
  - destruct (sql_upsert_variant sku (sv_id v) (sv_product_id v) parent sz
                (price_or pr (sv_price v)) (now srv (statements c)) (database c))
      as [[db1 []]|e];
      unfold mysql_connector.bind; rewrite log_sync_run; reflexivity.
  - unfold sql_delete_product. unfold mysql_connector.bind.
    rewrite log_sync_run. reflexivity.
Qed.

Lemma log_attempt_mappings srv k ref act st msg db :
  same_mappings (log_attempt srv k ref act st msg db) db.
Proof.
  unfold log_attempt, same_mappings. destruct (fault srv k); split; reflexivity.
Qed.

Lemma same_mappings_sym db1 db2 : same_mappings db1 db2 -> same_mappings db2 db1.
Proof. intros [E1 E2]. split; congruence. Qed.

Lemma same_mappings_trans db1 db2 db3 :
  same_mappings db1 db2 -> same_mappings db2 db3 -> same_mappings db1 db3.
Proof. intros [E1 E2] [E3 E4]. split; congruence. Qed.

Lemma primary_statement_keeps_log m t db db1 u :
  primary_statement m t db = Ok (db1, u) -> sync_log db1 = sync_log db.
Proof.
  destruct m as [ref p|sku v parent sz pr|ref]; cbn [primary_statement].
  - unfold sql_upsert_product. intros E. now injection E as <- _.
  - unfold sql_upsert_variant.
    destruct (has_variant sku (variant_mappings db));
      [|destruct (has_product parent (product_mappings db))];
      intros E; try discriminate; now injection E as <- _.
  - unfold sql_delete_product. intros E. now injection E as <- _.
Qed.

Lemma primary_outcome_keeps_log m srv c db1 :
  primary_outcome m srv c = Ok db1 -> sync_log db1 = sync_log (database c).
Proof.
  unfold primary_outcome. destruct (fault srv (statements c)); [discriminate|].
  destruct (primary_statement m (now srv (statements c)) (database c))
    as [[db2 u]|e] eqn:E; [|discriminate].
  intros E1. injection E1 as <-. exact (primary_statement_keeps_log _ _ _ _ _ E).
Qed.

(** The outcome of the first statement is decided by what the server does
    with that statement alone. *)
Lemma primary_outcome_local m srv srv' c :
  fault srv' (statements c) = fault srv (statements c) ->
  now srv' (statements c) = now srv (statements c) ->
  primary_outcome m srv' c = primary_outcome m srv c.
Proof. intros Hf Hn. unfold primary_outcome. now rewrite Hf, Hn. Qed.

(** C6: a mutating call of the mapper ([save_product_mapping],
    [save_variant_mapping], [delete_product_mapping]) never raises and
    sends exactly two statements, its own and one log append.  It returns
    [True] and leaves the tables as its statement made them when the
    server took the statement, and returns [False] with the mapping tables
    untouched otherwise.  When the server takes the log append, the log
    grows by exactly one entry, for the call's reference and action, with
    status success or error according to the return value; when the log
    append fails, the log stays as it was and nothing else changes: with
    any other fate of the log append the call returns the same value and
    leaves the same mapping tables. *)
Theorem every_mutation_logs_once (m : mutation) (srv : Server) (c : Connection) :
  exists (ok : bool) (c' : Connection),
    run_mutation m srv c = (Ok ok, c') /\
    statements c' = 2 + statements c /\
    match primary_outcome m srv c with
    | Ok db1 => ok = true /\ same_mappings (database c') db1
    | Raise _ => ok = false /\ same_mappings (database c') (database c)
    end /\
    match fault srv (S (statements c)) with
    | None =>
        exists msg,
          sync_log (database c') =
          sync_log (database c) ++
            [ {| log_reference := logged_reference m;
                 action := logged_action m;
                 status := (if ok then "success" else "error");
                 message := msg;
                 log_created_at := now srv (S (statements c)) |} ]
    | Some _ => sync_log (database c') = sync_log (database c)
    end /\
    forall srv' : Server,
      fault srv' (statements c) = fault srv (statements c) ->
      now srv' (statements c) = now srv (statements c) ->
      exists c'',
        run_mutation m srv' c = (Ok ok, c'') /\
        same_mappings (database c'') (database c').
Proof.
  rewrite run_mutation_run.
  destruct (primary_outcome m srv c) as [db1|e] eqn:Hprimary.
  - eexists true, _. split; [reflexivity|]. cbn [statements database].
    split; [reflexivity|]. split; [split; [reflexivity|apply log_attempt_mappings]|].
    split.
    + unfold log_attempt. destruct (fault srv (S (statements c))); cbn [sync_log].
      * apply (primary_outcome_keeps_log _ _ _ _ Hprimary).
      * eexists. rewrite (primary_outcome_keeps_log _ _ _ _ Hprimary). reflexivity.
    + intros srv' Hf Hn. rewrite run_mutation_run.
      rewrite (primary_outcome_local m srv srv' c Hf Hn), Hprimary.
      eexists. split; [reflexivity|]. cbn [database].
      eapply same_mappings_trans; [apply log_attempt_mappings|].
      apply same_mappings_sym, log_attempt_mappings.
  - eexists false, _. split; [reflexivity|]. cbn [statements database].
    split; [reflexivity|]. split; [split; [reflexivity|apply log_attempt_mappings]|].
    split.
    + unfold log_attempt. destruct (fault srv (S (statements c))); cbn [sync_log].
      * reflexivity.
      * eexists. reflexivity.
    + intros srv' Hf Hn. rewrite run_mutation_run.
      rewrite (primary_outcome_local m srv srv' c Hf Hn), Hprimary.
      eexists. split; [reflexivity|]. cbn [database].
      eapply same_mappings_trans; [apply log_attempt_mappings|].
      apply same_mappings_sym, log_attempt_mappings.
Qed.

End Runs.

(** *** Keys under a collation *)

Section Keys.
Context `{Collation}.

Lemma key_eqb_compat a b c : key_eqb a b = true -> key_eqb a c = key_eqb b c.
Proof.
  intros Hab.
  destruct (key_eqb a c) eqn:Hac, (key_eqb b c) eqn:Hbc; try reflexivity.
  - rewrite key_eqb_sym in Hab. now rewrite (key_eqb_trans _ _ _ Hab Hac) in Hbc.
  - now rewrite (key_eqb_trans _ _ _ Hab Hbc) in Hac.
Qed.

Lemma key_eqb_compat_r a b c : key_eqb a b = true -> key_eqb c a = key_eqb c b.
Proof.
  intros Hab. rewrite (key_eqb_sym c a), (key_eqb_sym c b).
  now apply key_eqb_compat.
Qed.

Lemma count_key_app k l1 l2 :
  count_key k (l1 ++ l2) = count_key k l1 + count_key k l2.
Proof. unfold count_key. now rewrite filter_app, length_app. Qed.

Lemma count_key_compat a b keys :
  key_eqb a b = true -> count_key a keys = count_key b keys.
Proof.
  intros Hab. unfold count_key. f_equal. apply filter_ext.
  intros k. now apply key_eqb_compat_r.
Qed.

Lemma has_product_count ref rows :
  has_product ref rows =
  negb (Nat.eqb (count_key ref (map internal_reference rows)) 0).
Proof.
  unfold has_product, count_key.
  induction rows as [|p rows IH]; simpl; [reflexivity|].
  destruct (key_eqb (internal_reference p) ref); simpl; [reflexivity|exact IH].
Qed.

Lemma has_variant_count sku rows :
  has_variant sku rows =
  negb (Nat.eqb (count_key sku (map internal_sku rows)) 0).
Proof.
  unfold has_variant, count_key.
  induction rows as [|v rows IH]; simpl; [reflexivity|].
  destruct (key_eqb (internal_sku v) sku); simpl; [reflexivity|exact IH].
Qed.

(** Adding a key that collides with none keeps the column unique. *)
Lemma unique_keys_snoc keys k :
  unique_keys keys -> count_key k keys = 0 -> unique_keys (keys ++ [k]).
Proof.
  intros Huniq Hfresh k'. rewrite count_key_app.
  unfold count_key at 2. simpl.
  destruct (key_eqb k k') eqn:E; simpl.
  - rewrite <- (count_key_compat _ _ keys E), Hfresh. lia.
  - specialize (Huniq k'). lia.
Qed.

Lemma unique_keys_filter (P : string -> bool) keys :
  unique_keys keys -> unique_keys (filter P keys).
Proof.
  intros Huniq k. specialize (Huniq k). unfold count_key in *.
  assert (Hle : forall (Q : string -> bool) l,
             length (filter Q (filter P l)) <= length (filter Q l)).
  { intros Q l. induction l as [|a l IH]; simpl; [lia|].
    destruct (P a); simpl; destruct (Q a); simpl; lia. }
  specialize (Hle (fun k' => key_eqb k' k) keys). lia.
Qed.

End Keys.

(** *** What the statements do to the tables *)

Section Tables.
Context `{Collation}.

Lemma upsert_product_keys ref pid handle ttl t rows :
  map internal_reference (upsert_product ref pid handle ttl t rows) =
  if has_product ref rows
  then map internal_reference rows
  else map internal_reference rows ++ [ref].
Proof.
  unfold has_product.
  induction rows as [|p rows IH]; simpl; [reflexivity|].
  destruct (key_eqb (internal_reference p) ref); simpl; [reflexivity|].
  rewrite IH. now destruct (existsb _ rows).
Qed.

(** After the upsert the table holds a row for the reference with the
    values of the call. *)
Lemma upsert_product_row ref pid handle ttl t rows :
  exists row,
    In row (upsert_product ref pid handle ttl t rows) /\
    key_eqb (internal_reference row) ref = true /\
    shopify_product_id row = pid /\
    shopify_handle row = handle /\
    title row = ttl /\
    last_updated_at row = t.
Proof.
  induction rows as [|p rows IH]; simpl.
  - eexists. split; [left; reflexivity|]. simpl.
    rewrite key_eqb_refl. repeat split.
  - destruct (key_eqb (internal_reference p) ref) eqn:E.
    + eexists. split; [left; reflexivity|]. simpl. repeat split. exact E.
    + destruct IH as (row & Hin & Hrow). exists row. split; [now right|exact Hrow].
Qed.

(** Repeating an upsert changes nothing but the update time. *)
Lemma upsert_product_twice ref pid handle ttl t1 t2 rows :
  map stored_columns
    (upsert_product ref pid handle ttl t2 (upsert_product ref pid handle ttl t1 rows)) =
  map stored_columns (upsert_product ref pid handle ttl t1 rows).
Proof.
  induction rows as [|p rows IH]; simpl.
  - now rewrite key_eqb_refl.
  - destruct (key_eqb (internal_reference p) ref) eqn:E; simpl; rewrite E.
    + reflexivity.
    + simpl. now rewrite IH.
Qed.

Lemma upsert_product_unique ref pid handle ttl t rows :
  unique_keys (map internal_reference rows) ->
  unique_keys (map internal_reference (upsert_product ref pid handle ttl t rows)).
Proof.
  intros Huniq. rewrite upsert_product_keys.
  destruct (has_product ref rows) eqn:E; [exact Huniq|].
  apply unique_keys_snoc; [exact Huniq|].
  rewrite has_product_count in E. apply Bool.negb_false_iff in E.
  now apply Nat.eqb_eq in E.
Qed.

Lemma has_product_upsert ref' ref pid handle ttl t rows :
  has_product ref' rows = true ->
  has_product ref' (upsert_product ref pid handle ttl t rows) = true.
Proof.
  rewrite !has_product_count, upsert_product_keys.
  destruct (has_product ref rows); [trivial|].
  rewrite count_key_app. intros E. apply Bool.negb_true_iff in E.
  apply Nat.eqb_neq in E. apply Bool.negb_true_iff, Nat.eqb_neq. lia.
Qed.

Lemma update_variant_keys sku vid pid sz pr t rows :
  map internal_sku (update_variant sku vid pid sz pr t rows) = map internal_sku rows.
Proof.
  induction rows as [|v rows IH]; simpl; [reflexivity|].
  destruct (key_eqb (internal_sku v) sku); simpl; [reflexivity|now rewrite IH].
Qed.

Lemma update_variant_parents sku vid pid sz pr t rows v :
  In v (update_variant sku vid pid sz pr t rows) ->
  exists v0, In v0 rows /\ parent_reference v = parent_reference v0.
Proof.
  induction rows as [|w rows IH]; simpl; [intros []|].
  destruct (key_eqb (internal_sku w) sku).
  - intros [<-|Hin].
    + exists w. split; [now left|reflexivity].
    + exists v. split; [now right|reflexivity].
  - intros [<-|Hin].
    + exists w. split; [now left|reflexivity].
    + destruct (IH Hin) as (v0 & Hin0 & E). exists v0. split; [now right|exact E].
Qed.

Lemma count_key_map_filter {A} (f : A -> string) (P : A -> bool) k rows :
  count_key k (map f (filter P rows)) <= count_key k (map f rows).
Proof.
  unfold count_key. induction rows as [|a rows IH]; simpl; [lia|].
  destruct (P a); simpl; destruct (key_eqb (f a) k); simpl; lia.
Qed.

Lemma unique_keys_map_filter {A} (f : A -> string) (P : A -> bool) rows :
  unique_keys (map f rows) -> unique_keys (map f (filter P rows)).
Proof.
  intros Huniq k. specialize (Huniq k).
  pose proof (count_key_map_filter f P k rows). lia.
Qed.

(** Under the foreign key, the variants the cascade removes are exactly
    those whose parent reference is the deleted one. *)
Lemma cascade_hits_children ref db v :
  parents_exist db -> In v (variant_mappings db) ->
  has_product (parent_reference v)
    (filter (fun p => key_eqb (internal_reference p) ref) (product_mappings db)) =
  key_eqb (parent_reference v) ref.
Proof.
  intros Hfk Hin.
  destruct (key_eqb (parent_reference v) ref) eqn:Hparent.
  - specialize (Hfk v Hin). unfold has_product in *.
    apply existsb_exists in Hfk. destruct Hfk as (p & Hp & Hpv).
    apply existsb_exists. exists p. split; [|exact Hpv].
    apply filter_In. split; [exact Hp|].
    now rewrite (key_eqb_compat _ _ ref Hpv).
  - apply Bool.not_true_is_false. unfold has_product. intros Hex.
    apply existsb_exists in Hex. destruct Hex as (p & Hp & Hpv).
    apply filter_In in Hp. destruct Hp as [_ Hpref].
    rewrite (key_eqb_compat _ _ ref Hpv) in Hpref. congruence.
Qed.

Lemma sql_delete_product_tables ref t db :
  parents_exist db ->
  exists db1,
    sql_delete_product ref t db = Ok (db1, tt) /\
    product_mappings db1 =
      filter (fun p => negb (key_eqb (internal_reference p) ref)) (product_mappings db) /\
    variant_mappings db1 =
      filter (fun v => negb (key_eqb (parent_reference v) ref)) (variant_mappings db) /\
    sync_log db1 = sync_log db.
Proof.
  intros Hfk. eexists. split; [reflexivity|]. cbn [product_mappings variant_mappings sync_log].
  split; [reflexivity|]. split; [|reflexivity].
  apply filter_ext_in. intros v Hin. now rewrite (cascade_hits_children ref db v Hfk Hin).
Qed.

(** The statements keep the constraints of the schema. *)
Lemma primary_statement_consistent m t db db1 u :
  consistent db -> primary_statement m t db = Ok (db1, u) -> consistent db1.
Proof.
  intros (Hp & Hv & Hfk).
  destruct m as [ref p|sku v parent sz pr|ref]; cbn [primary_statement].
  - unfold sql_upsert_product. intros E. injection E as <- _.
    split; [|split]; unfold product_keys, variant_keys, parents_exist in *;
      cbn [product_mappings variant_mappings].
    + now apply upsert_product_unique.
    + exact Hv.
    + intros w Hw. apply has_product_upsert. now apply Hfk.
  - unfold sql_upsert_variant.
    destruct (has_variant sku (variant_mappings db)) eqn:Hhas.
    + intros E. injection E as <- _.
      split; [|split]; unfold product_keys, variant_keys, parents_exist in *;
        cbn [product_mappings variant_mappings].
      * exact Hp.
      * now rewrite update_variant_keys.
      * intros w Hw. destruct (update_variant_parents _ _ _ _ _ _ _ _ Hw)
          as (w0 & Hw0 & ->). now apply Hfk.
    + destruct (has_product parent (product_mappings db)) eqn:Hparent;
        [|discriminate].
      intros E. injection E as <- _.
      split; [|split]; unfold product_keys, variant_keys, parents_exist in *;
        cbn [product_mappings variant_mappings].
      * exact Hp.
      * rewrite map_app. apply unique_keys_snoc; [exact Hv|].
        rewrite has_variant_count in Hhas. apply Bool.negb_false_iff in Hhas.
        now apply Nat.eqb_eq in Hhas.
      * intros w Hw. apply in_app_or in Hw. destruct Hw as [Hw|[<-|[]]];
          [now apply Hfk|exact Hparent].
  - intros E. destruct (sql_delete_product_tables ref t db Hfk)
      as (db2 & E2 & Eproducts & Evariants & _).
    rewrite E2 in E. injection E as <- _.
    split; [|split]; unfold product_keys, variant_keys, parents_exist in *.
    + rewrite Eproducts. now apply unique_keys_map_filter.
    + rewrite Evariants. now apply unique_keys_map_filter.
    + rewrite Eproducts, Evariants. intros w Hw.
      apply filter_In in Hw. destruct Hw as [Hw Hkeep].
      specialize (Hfk w Hw). unfold has_product in *.
      apply existsb_exists in Hfk. destruct Hfk as (p & Hin & Hpw).
      apply existsb_exists. exists p. split; [|exact Hpw].
      apply filter_In. split; [exact Hin|].
      now rewrite (key_eqb_compat _ _ ref Hpw).
Qed.

Lemma log_attempt_consistent srv k ref act st msg db :
  consistent db -> consistent (log_attempt srv k ref act st msg db).
Proof.
  unfold log_attempt. destruct (fault srv k); [trivial|].
  unfold consistent, product_keys, variant_keys, parents_exist. trivial.
Qed.

(** Freshly migrated tables meet the constraints, and every mutating call
    keeps them: they hold in every state the mapper can reach. *)
Lemma create_tables_consistent : consistent create_tables.
Proof.
  split; [|split].
  - intros k. unfold count_key. simpl. lia.
  - intros k. unfold count_key. simpl. lia.
  - intros v [].
Qed.

Lemma run_mutation_consistent m srv c :
  consistent (database c) ->
  consistent (database (snd (run_mutation m srv c))).
Proof.
  intros Hc. rewrite run_mutation_run.
  destruct (primary_outcome m srv c) as [db1|e] eqn:E; cbn [snd database];
    apply log_attempt_consistent; [|exact Hc].
  unfold primary_outcome in E. destruct (fault srv (statements c)); [discriminate|].
  destruct (primary_statement m (now srv (statements c)) (database c))
    as [[db2 u]|e] eqn:E2; [|discriminate].
  injection E as <-. exact (primary_statement_consistent _ _ _ _ _ Hc E2).
Qed.

End Tables.

(** *** Upsert, lookup and delete *)

Section Mappings.
Context `{Collation}.

Lemma save_product_mapping_run ref p srv c :
  fault srv (statements c) = None ->
  exists c',
    save_product_mapping ref p srv c = (Ok true, c') /\
    statements c' = 2 + statements c /\
    product_mappings (database c') =
      upsert_product ref (sp_id p) (sp_handle p) (sp_title p)
        (now srv (statements c)) (product_mappings (database c)) /\
    variant_mappings (database c') = variant_mappings (database c).
Proof.
  intros Hfault.
  change (save_product_mapping ref p) with (run_mutation (SaveProduct ref p)).
  rewrite run_mutation_run. unfold primary_outcome. rewrite Hfault.
  cbn [primary_statement]. unfold sql_upsert_product.
  eexists. split; [reflexivity|]. cbn [statements database].
  split; [reflexivity|].
  destruct (log_attempt_mappings srv (S (statements c)) ref "create_product"
              "success" (success_message (SaveProduct ref p))
              {| product_mappings :=
                   upsert_product ref (sp_id p) (sp_handle p) (sp_title p)
                     (now srv (statements c)) (product_mappings (database c));
                 variant_mappings := variant_mappings (database c);
                 sync_log := sync_log (database c) |}) as [E1 E2].
  split; [exact E1|exact E2].
Qed.

Lemma get_product_mapping_run ref srv c row :
  fault srv (statements c) = None ->
  fault srv (S (statements c)) = None ->
  filter (fun p => key_eqb (internal_reference p) ref) (product_mappings (database c))
    = [row] ->
  get_product_mapping ref srv c =
  (Ok (Some {| product := row;
               mapped_variants :=
                 filter (fun v => key_eqb (parent_reference v) ref)
                        (variant_mappings (database c)) |}),
   {| database := database c; statements := 2 + statements c |}).
Proof.
  intros Hf1 Hf2 Hrows. unfold get_product_mapping. run_db.
  rewrite Hf1. unfold sql_select_product. rewrite Hrows.
  run_db. rewrite Hf2. reflexivity.
Qed.

Lemma singleton_filter {A} (P : A -> bool) (l : list A) x :
  length (filter P l) = 1 -> In x l -> P x = true -> filter P l = [x].
Proof.
  intros Hlen Hin Hx.
  assert (Hfx : In x (filter P l)) by (apply filter_In; tauto).
  destruct (filter P l) as [|y [|z rest]]; simpl in Hlen; try discriminate.
  destruct Hfx as [->|[]]. reflexivity.
Qed.

(** C2: on a table that meets its unique key, two calls of
    [save_product_mapping] for one reference that the server takes both
    return [True] and leave exactly one row keyed by that reference; the
    second call adds no row, and with identical arguments it changes no
    column but the update time.  With different arguments the later
    values win: a following [get_product_mapping] that the server answers
    returns that single row, with the product id, handle and title of the
    second call. *)
Theorem upsert_keeps_one_row (srv : Server) (c : Connection) (ref : string)
  (first second : ShopifyProduct) :
  unique_keys (product_keys (database c)) ->
  fault srv (statements c) = None ->
  fault srv (2 + statements c) = None ->
  exists c1 c2 row,
    save_product_mapping ref first srv c = (Ok true, c1) /\
    save_product_mapping ref second srv c1 = (Ok true, c2) /\
    count_key ref (product_keys (database c1)) = 1 /\
    count_key ref (product_keys (database c2)) = 1 /\
    product_keys (database c2) = product_keys (database c1) /\
    (first = second ->
     map stored_columns (product_mappings (database c2)) =
     map stored_columns (product_mappings (database c1))) /\
    filter (fun p => key_eqb (internal_reference p) ref)
           (product_mappings (database c2)) = [row] /\
    shopify_product_id row = sp_id second /\
    shopify_handle row = sp_handle second /\
    title row = sp_title second /\
    (fault srv (4 + statements c) = None ->
     fault srv (5 + statements c) = None ->
     exists variants c3,
       get_product_mapping ref srv c2 =
         (Ok (Some {| product := row; mapped_variants := variants |}), c3)).
Proof.
  intros Huniq Hf0 Hf2.
  destruct (save_product_mapping_run ref first srv c Hf0)
    as (c1 & Hrun1 & Hn1 & Hp1 & _).
  assert (Hf2' : fault srv (statements c1) = None) by now rewrite Hn1.
  destruct (save_product_mapping_run ref second srv c1 Hf2')
    as (c2 & Hrun2 & Hn2 & Hp2 & _).
  set (rows := product_mappings (database c)) in *.
  set (rows1 := product_mappings (database c1)) in *.
  assert (Hhas1 : has_product ref rows1 = true).
  { rewrite Hp1. destruct (upsert_product_row ref (sp_id first) (sp_handle first)
      (sp_title first) (now srv (statements c)) rows) as (r & Hin & Hkey & _).
    apply existsb_exists. exists r. split; assumption. }
  assert (Huniq1 : unique_keys (product_keys (database c1))).
  { unfold product_keys. fold rows1. rewrite Hp1. now apply upsert_product_unique. }
  assert (Hone1 : count_key ref (product_keys (database c1)) = 1).
  { specialize (Huniq1 ref). rewrite has_product_count in Hhas1.
    apply Bool.negb_true_iff, Nat.eqb_neq in Hhas1.
    change (product_keys (database c1)) with (map internal_reference rows1) in *.
    lia. }
  assert (Hkeys2 : product_keys (database c2) = product_keys (database c1)).
  { unfold product_keys. rewrite Hp2, upsert_product_keys. fold rows1.
    now rewrite Hhas1. }
  destruct (upsert_product_row ref (sp_id second) (sp_handle second)
      (sp_title second) (now srv (statements c1)) rows1)
    as (row & Hin & Hkey & Hid & Hhandle & Htitle & _).
  rewrite <- Hp2 in Hin.
  assert (Hsingle : filter (fun p => key_eqb (internal_reference p) ref)
                      (product_mappings (database c2)) = [row]).
  { apply singleton_filter; [|exact Hin|exact Hkey].
    rewrite <- Hone1, <- Hkeys2. unfold count_key, product_keys.
    generalize (product_mappings (database c2)). intros l.
    induction l as [|a l IH]; simpl; [reflexivity|].
    destruct (key_eqb (internal_reference a) ref); simpl; now rewrite IH. }
  exists c1, c2, row. repeat split; try assumption.
  - now rewrite Hkeys2.
  - intros <-. rewrite Hp2. fold rows1. rewrite Hp1.
    apply upsert_product_twice.
  - intros Hf4 Hf5.
    assert (Hn : statements c2 = 4 + statements c) by (rewrite Hn2, Hn1; lia).
    eexists _, _. apply get_product_mapping_run; rewrite ?Hn; assumption.
Qed.

(** C3: on tables that meet their constraints, a [delete_product_mapping]
    that the server takes returns [True], removes the product rows of that
    reference and the variant rows whose parent reference is that
    reference, and leaves every other row of both tables as it was, in
    place; no variant row is left without its parent. *)
Theorem delete_cascades (srv : Server) (c : Connection) (ref : string) :
  consistent (database c) ->
  fault srv (statements c) = None ->
  exists c',
    delete_product_mapping ref srv c = (Ok true, c') /\
    product_mappings (database c') =
      filter (fun p => negb (key_eqb (internal_reference p) ref))
             (product_mappings (database c)) /\
    variant_mappings (database c') =
      filter (fun v => negb (key_eqb (parent_reference v) ref))
             (variant_mappings (database c)) /\
    has_product ref (product_mappings (database c')) = false /\
    (forall v, In v (variant_mappings (database c')) ->
               key_eqb (parent_reference v) ref = false) /\
    parents_exist (database c').
Proof.
  intros Hc Hfault.
  pose proof (run_mutation_consistent (DeleteProduct ref) srv c Hc) as Hc'.
  change (delete_product_mapping ref) with (run_mutation (DeleteProduct ref)).
  rewrite run_mutation_run in Hc' |- *. unfold primary_outcome in *.
  rewrite Hfault in Hc' |- *. cbn [primary_statement] in *.
  destruct Hc as (_ & _ & Hfk).
  destruct (sql_delete_product_tables ref (now srv (statements c)) (database c) Hfk)
    as (db1 & E & Eproducts & Evariants & _).
  rewrite E in Hc' |- *. cbn [snd database] in Hc'.
  eexists. split; [reflexivity|]. cbn [database].
  destruct (log_attempt_mappings srv (S (statements c)) ref "delete_product"
              "success" (success_message (DeleteProduct ref)) db1) as [E1 E2].
  cbn [logged_reference logged_action] in *.
  rewrite E1, E2, Eproducts, Evariants.
  split; [reflexivity|]. split; [reflexivity|]. split; [|split].
  - apply Bool.not_true_is_false. unfold has_product. intros Hex.
    apply existsb_exists in Hex. destruct Hex as (p & Hin & Hkey).
    apply filter_In in Hin. destruct Hin as [_ Hneg]. now rewrite Hkey in Hneg.
  - intros v Hin. apply filter_In in Hin. destruct Hin as [_ Hneg].
    now apply Bool.negb_true_iff in Hneg.
  - exact (proj2 (proj2 Hc')).
Qed.

End Mappings.

(** *** The statements on sample data *)

Import store_samples.

Example stocked_tables :
  map internal_reference (product_mappings (database stocked_connection)) = ["ABC"; "XYZ"] /\
  map internal_sku (variant_mappings (database stocked_connection)) = ["ABC/S"; "ABC/M"] /\
  map price (variant_mappings (database stocked_connection)) = [4500%Z; 9900%Z] /\
  map status (sync_log (database stocked_connection)) =
    ["success"; "success"; "success"; "success"] /\
  statements stocked_connection = 8.
Proof. vm_compute. repeat split. Qed.

(** A variant whose parent is unknown is refused by the foreign key: the
    call answers [False] and logs the error. *)
Example orphan_variant_refused :
  let '(r, c) := save_variant_mapping (H := binary_collation) "Q/1" (remote_variant 5)
                   "Q" None None steady_server fresh_connection in
  r = Ok false /\ variant_mappings (database c) = [] /\
  map status (sync_log (database c)) = ["error"].
Proof. vm_compute. repeat split. Qed.

(** With the log appends failing, both upserts still answer [True] and
    the row is there; only the log stays empty. *)
Example log_failure_is_swallowed :
  let '(r1, c1) := save_product_mapping (H := binary_collation) "ABC" (remote_product 1)
                     log_failing_server fresh_connection in
  let '(r2, c2) := save_product_mapping (H := binary_collation) "ABC" (remote_product 2)
                     log_failing_server c1 in
  r1 = Ok true /\ r2 = Ok true /\
  map shopify_product_id (product_mappings (database c2)) = [2%Z] /\
  sync_log (database c2) = [].
Proof. vm_compute. repeat split. Qed.

Lemma stocked_connection_consistent :
  consistent (H := binary_collation) (database stocked_connection).
Proof.
  unfold stocked_connection.
  repeat apply (run_mutation_consistent (H := binary_collation)).
  apply create_tables_consistent.
Qed.

Lemma upsert_keeps_one_row_witness :
  exists c1 c2 row,
    save_product_mapping (H := binary_collation) "ABC" (remote_product 1)
      steady_server fresh_connection = (Ok true, c1) /\
    save_product_mapping (H := binary_collation) "ABC" (remote_product 2)
      steady_server c1 = (Ok true, c2) /\
    count_key (H := binary_collation) "ABC" (product_keys (database c2)) = 1 /\
    shopify_product_id row = 2%Z /\
    exists variants c3,
      get_product_mapping (H := binary_collation) "ABC" steady_server c2 =
        (Ok (Some {| product := row; mapped_variants := variants |}), c3).
Proof.
  destruct (upsert_keeps_one_row (H := binary_collation) steady_server fresh_connection
              "ABC" (remote_product 1) (remote_product 2))
    as (c1 & c2 & row & H1 & H2 & _ & Hone & _ & _ & _ & Hid & _ & _ & Hget).
  - intros k. vm_compute. lia.
  - reflexivity.
  - reflexivity.
  - exists c1, c2, row. repeat split; try assumption.
    apply Hget; reflexivity.
Defined.

Lemma delete_cascades_witness :
  exists c',
    delete_product_mapping (H := binary_collation) "ABC" steady_server
      stocked_connection = (Ok true, c') /\
    map internal_reference (product_mappings (database c')) = ["XYZ"] /\
    variant_mappings (database c') = [] /\
    parents_exist (H := binary_collation) (database c').
Proof.
  destruct (delete_cascades (H := binary_collation) steady_server stocked_connection "ABC")
    as (c' & Hrun & Hproducts & Hvariants & _ & _ & Hfk).
  - exact stocked_connection_consistent.
  - reflexivity.
  - exists c'. split; [exact Hrun|].
    rewrite Hproducts, Hvariants. repeat split. exact Hfk.
Defined.

End store_facts.

(** ** Price coercion *)

Module price_facts.
Import py helpers sync_vocabulary.

Section Prices.
Context `{FloatRuntime}.

(** A string never makes [format_price] raise: what is left after
    cleaning is a literal, or the answer is zero. *)
Lemma format_price_str (s : string) :
  let cleaned :=
    replace "," "."
      (keep_chars (fun c => isdigit c || ispoint c || (c =? ",")%char) s) in
  format_price (VStr s) = Ok (float_of_literal cleaned) \/
  format_price (VStr s) = Ok float_zero.
Proof.
  cbn zeta. unfold format_price, float_of_plain.
  destruct ((1 <=? count_chars isdigit _)%nat && (count_chars ispoint _ <=? 1)%nat);
    [left|right]; reflexivity.
Qed.

(** Every argument but an [int] of huge magnitude gets a float back, and
    zero when [float] rejects it. *)
Lemma format_price_answers (price : value) :
  (forall z, price = VOther (SInt z) -> (Z.abs z < float_int_bound)%Z) ->
  exists f, format_price price = Ok f.
Proof.
  intros Hsmall. destruct price as [s|[| b | z | f |]].
  - destruct (format_price_str s) as [E|E]; rewrite E; eexists; reflexivity.
  - exists float_zero. reflexivity.
  - eexists. reflexivity.
  - specialize (Hsmall z eq_refl). apply Z.ltb_lt in Hsmall.
    unfold format_price, float_of_scalar. rewrite Hsmall. eexists. reflexivity.
  - eexists. reflexivity.
  - exists float_zero. reflexivity.
Qed.

Lemma format_price_rejected :
  format_price (VOther SNone) = Ok float_zero /\
  format_price (VOther SObject) = Ok float_zero /\
  format_price (VStr "1.234,56") = Ok float_zero /\
  format_price (VStr "n/a") = Ok float_zero /\
  format_price (VStr "12,50 EUR") = Ok (float_of_literal "12.50").
Proof. repeat split. Qed.

(** C10 fails on the code: [float] of an [int] beyond the range of a
    double raises [OverflowError], which the handler of [format_price]
    does not list, so the exception leaves the function.  These ints are
    the only arguments on which [format_price] raises. *)
Theorem format_price_overflows :
  format_price (VOther (SInt (10 ^ 400))) = Raise OverflowError /\
  forall price : value,
    (exists e, format_price price = Raise e) <->
    (exists z, price = VOther (SInt z) /\ (float_int_bound <= Z.abs z)%Z).
Proof.
  split; [reflexivity|]. intros price. split.
  - intros [e He].
    destruct price as [s|x].
    + destruct (format_price_str s) as [E|E]; rewrite E in He; discriminate.
    + destruct x as [| b | z | f |]; try discriminate He.
      exists z. split; [reflexivity|].
      unfold format_price, float_of_scalar in He.
      destruct (Z.abs z <? float_int_bound)%Z eqn:E; [discriminate|].
      now apply Z.ltb_ge in E.
  - intros (z & -> & Hbig). exists OverflowError.
    apply Z.ltb_ge in Hbig. unfold format_price, float_of_scalar.
    now rewrite Hbig.
Qed.

End Prices.

End price_facts.

(** ** Validation and the sync loop *)

Module sync_facts.
Import py helpers main vocabulary sync_vocabulary.

Lemma lstrip_blank s : lstrip s = EmptyString <-> all_spaces s = true.
Proof.
  induction s as [|c s IH]; simpl; [tauto|].
  destruct (isspace c); simpl; [exact IH|]. split; discriminate.
Qed.

Lemma lstrip_head c rest s : lstrip s = String c rest -> isspace c = false.
Proof.
  induction s as [|d s IH]; simpl; [discriminate|].
  destruct (isspace d) eqn:E; [exact IH|].
  intros E1. injection E1 as <- _. exact E.
Qed.

Lemma rstrip_keeps_head c rest : isspace c = false -> rstrip (String c rest) <> EmptyString.
Proof.
  intros Hc. simpl. destruct (rstrip rest); [rewrite Hc|]; discriminate.
Qed.

(** [strip] leaves nothing exactly of the blank strings. *)
Lemma strip_blank s : strip s = EmptyString <-> all_spaces s = true.
Proof.
  unfold strip. rewrite <- lstrip_blank.
  destruct (lstrip s) as [|c rest] eqn:E; [simpl; tauto|].
  pose proof (rstrip_keeps_head c rest (lstrip_head _ _ _ E)). split.
  - intros E1. contradiction.
  - discriminate.
Qed.

(** The test of [validate_product_data] is the one the specification
    names: absent or blank. *)
Lemma field_missing_spec data field :
  field_missing data field = true <-> absent_or_blank data field.
Proof.
  unfold field_missing, absent_or_blank.
  destruct (row_lookup data field) as [v|].
  - split.
    + intros Hm. apply Bool.orb_true_iff in Hm. destruct Hm as [Hna|Hblank].
      * right. left. destruct v; try discriminate. reflexivity.
      * right. right. exists v. split; [reflexivity|].
        apply strip_blank. now apply String.eqb_eq.
    + intros [E|[E|(w & E & Hblank)]]; try discriminate.
      * injection E as ->. reflexivity.
      * injection E as ->. apply Bool.orb_true_iff. right.
        apply String.eqb_eq. now apply strip_blank.
  - split; [intros _; now left|reflexivity].
Qed.

Lemma validate_product_data_spec data :
  fst (validate_product_data data) = false <->
  exists field, In field required_columns /\ absent_or_blank data field.
Proof.
  unfold validate_product_data, required_fields, required_columns.
  cbn [filter fst snd map].
  split.
  - destruct (field_missing data "REFERENCIA") eqn:E1;
      [intros _; exists "REFERENCIA"; split; [simpl; tauto|now apply field_missing_spec]|].
    destruct (field_missing data "DESCRIPCION") eqn:E2;
      [intros _; exists "DESCRIPCION"; split; [simpl; tauto|now apply field_missing_spec]|].
    destruct (field_missing data "PRECIO") eqn:E3;
      [intros _; exists "PRECIO"; split; [simpl; tauto|now apply field_missing_spec]|].
    destruct (field_missing data "TIPO") eqn:E4;
      [intros _; exists "TIPO"; split; [simpl; tauto|now apply field_missing_spec]|].
    discriminate.
  - intros (field & Hin & Hblank). apply field_missing_spec in Hblank.
    simpl in Hin. destruct Hin as [<-|[<-|[<-|[<-|[]]]]]; rewrite Hblank;
      repeat match goal with
             | |- context [if ?b then _ else _] => destruct b
             end; reflexivity.
Qed.

Section Loop.
Context `{FloatRuntime}.
Variable price_of_cell : cell -> result float.
Variable int_of_cell : cell -> result Z.
Variables World Location : Type.
Variable prepare_product_data : row -> string -> result product_data.
Variable create_variant_product :
  product_data -> list variant_data -> Location -> World -> bool * World.
Variable create_simple_product :
  product_data -> Location -> World -> bool * World.

Local Abbreviation step :=
  (process_product price_of_cell int_of_cell prepare_product_data
     create_variant_product create_simple_product).
Local Abbreviation loop :=
  (process_items price_of_cell int_of_cell prepare_product_data
     create_variant_product create_simple_product).

(** The count of failures is written, never read. *)
Lemma process_product_count_failed loc (st : Run World) item :
  step loc (count_failed st) item = count_failed (step loc st item).
Proof.
  unfold process_product.
  destruct (row_item (base_data (snd item)) "DESCRIPCION"); [|reflexivity].
  destruct (validate_product_data (base_data (snd item))) as [is_valid missing].
  destruct (negb is_valid); [reflexivity|].
  destruct (prepare_product_data (base_data (snd item)) (fst item)) as [pd|e];
    [|reflexivity].
  destruct loc as [loc|]; [|reflexivity].
  destruct (is_variant_product (snd item)).
  - destruct (prepare_variants_data price_of_cell int_of_cell (variants (snd item)))
      as [variants_data|e]; [|reflexivity].
    cbn [world note_prepared count_failed].
    destruct (create_variant_product pd variants_data loc (world st)) as [[|] w];
      reflexivity.
  - cbn [world note_prepared count_failed].
    destruct (create_simple_product pd loc (world st)) as [[|] w]; reflexivity.
Qed.

Lemma process_items_count_failed loc (st : Run World) items :
  loop loc (count_failed st) items = count_failed (loop loc st items).
Proof.
  unfold process_items. revert st.
  induction items as [|item items IH]; intros st; simpl; [reflexivity|].
  rewrite process_product_count_failed. apply IH.
Qed.

(** C7: a grouped record whose base row lacks one of the four required
    fields, or has it blank, is skipped: the failure count goes up by one
    and nothing else changes, so no product data is prepared and the world
    is not touched; and the records around it are processed as if it were
    not there. *)
Theorem invalid_record_is_skipped (loc : option Location) (st : Run World)
  (item : string * bucket) (field : string) :
  In field required_columns ->
  absent_or_blank (base_data (snd item)) field ->
  step loc st item = count_failed st /\
  forall before after : dict bucket,
    loop loc st (before ++ item :: after) =
    count_failed (loop loc st (before ++ after)).
Proof.
  intros Hfield Hblank.
  assert (Hskip : forall st0, step loc st0 item = count_failed st0).
  { intros st0. unfold process_product.
    destruct (row_item (base_data (snd item)) "DESCRIPCION"); [|reflexivity].
    assert (Hinvalid : fst (validate_product_data (base_data (snd item))) = false)
      by (apply validate_product_data_spec; exists field; tauto).
    destruct (validate_product_data (base_data (snd item))) as [is_valid missing].
    simpl in Hinvalid. subst is_valid. reflexivity. }
  split; [apply Hskip|].
  intros before after. unfold process_items.
  rewrite !fold_left_app. simpl. rewrite Hskip.
  apply process_items_count_failed.
Qed.

(** The variant data handed to [create_variant_product] are those of the
    rows with a size that is not empty, in row order: a plain row listed
    among the variants of a bucket, or a reference that ends in its slash,
    gets no variant. *)
Lemma prepare_variants_data_sizes rows : forall vds,
  prepare_variants_data price_of_cell int_of_cell rows = Ok vds ->
  map vd_size vds = flat_map stated_size rows.
Proof.
  induction rows as [|r rows IH]; intros vds; simpl.
  - intros E. injection E as <-. reflexivity.
  - unfold row_item at 1, stated_size, reference_of.
    destruct (row_lookup r "REFERENCIA") as [v|]; [|discriminate]. simpl.
    destruct (get_variant_size (clean_value v)) as [[|c sz]|]; try apply IH.
    destruct (row_item r "PRECIO") as [precio|]; [|discriminate]. simpl.
    destruct (price_of_cell precio) as [pr|]; [|discriminate]. simpl.
    destruct (row_item r "STOCK") as [stock_cell|]; [|discriminate]. simpl.
    destruct (int_of_cell stock_cell) as [stock|]; [|discriminate]. simpl.
    destruct (prepare_variants_data price_of_cell int_of_cell rows) as [others|];
      [|discriminate]. simpl.
    intros E. injection E as <-. simpl. now rewrite (IH others eq_refl).
Qed.

End Loop.

(** *** The size option *)

Lemma ascii_compare_trans a b c :
  Ascii.compare a b = Lt -> Ascii.compare b c = Lt -> Ascii.compare a c = Lt.
Proof.
  unfold Ascii.compare. rewrite !N.compare_lt_iff. apply N.lt_trans.
Qed.

Lemma string_compare_trans s1 : forall s2 s3,
  String.compare s1 s2 = Lt -> String.compare s2 s3 = Lt -> String.compare s1 s3 = Lt.
Proof.
  induction s1 as [|a s1 IH]; intros [|b s2] [|c s3]; simpl;
    try discriminate; try reflexivity.
  destruct (Ascii.compare a b) eqn:Eab; try discriminate;
    destruct (Ascii.compare b c) eqn:Ebc; try discriminate.
  - apply Ascii.compare_eq_iff in Eab, Ebc. subst.
    rewrite (proj2 (N.compare_eq_iff _ _) eq_refl : Ascii.compare c c = Eq).
    apply IH.
  - apply Ascii.compare_eq_iff in Eab. subst. now rewrite Ebc.
  - apply Ascii.compare_eq_iff in Ebc. subst. now rewrite Eab.
  - now rewrite (ascii_compare_trans _ _ _ Eab Ebc).
Qed.

Lemma string_compare_refl s : String.compare s s = Eq.
Proof.
  induction s as [|c s IH]; simpl; [reflexivity|].
  unfold Ascii.compare. now rewrite N.compare_refl.
Qed.

Lemma string_leb_cases s1 s2 : String.leb s1 s2 = true <-> string_lt s1 s2 \/ s1 = s2.
Proof.
  unfold String.leb, string_lt, String.ltb.
  destruct (String.compare s1 s2) eqn:E.
  - apply String.compare_eq_iff in E. tauto.
  - tauto.
  - split; [discriminate|]. intros [E1|E1]; [discriminate|]. subst s2.
    rewrite string_compare_refl in E. discriminate.
Qed.

Lemma string_lt_trans s1 s2 s3 : string_lt s1 s2 -> string_lt s2 s3 -> string_lt s1 s3.
Proof.
  unfold string_lt, String.ltb. intros H12 H23.
  destruct (String.compare s1 s2) eqn:E12; try discriminate.
  destruct (String.compare s2 s3) eqn:E23; try discriminate.
  now rewrite (string_compare_trans _ _ _ E12 E23).
Qed.

Lemma string_leb_trans s1 s2 s3 :
  String.leb s1 s2 = true -> String.leb s2 s3 = true -> String.leb s1 s3 = true.
Proof.
  rewrite !string_leb_cases. intros [H12|E12] [H23|E23]; subst; auto.
  left. now apply (string_lt_trans s1 s2 s3).
Qed.

Lemma insert_sorted_perm x l : Permutation (insert_sorted x l) (x :: l).
Proof.
  induction l as [|y l IH]; simpl; [reflexivity|].
  destruct (String.leb x y); [reflexivity|].
  rewrite IH. apply perm_swap.
Qed.

Lemma sorted_perm l : Permutation (sorted l) l.
Proof.
  induction l as [|x l IH]; simpl; [reflexivity|].
  unfold sorted in *. simpl. rewrite insert_sorted_perm. now constructor.
Qed.

Lemma insert_sorted_ordered x l :
  StronglySorted leb_rel l -> StronglySorted leb_rel (insert_sorted x l).
Proof.
  induction 1 as [|y l Hsorted IH Hall]; simpl.
  - constructor; constructor.
  - destruct (String.leb x y) eqn:E.
    + constructor; [now constructor|]. constructor; [exact E|].
      eapply Forall_impl; [|exact Hall]. intros z Hz.
      now apply (string_leb_trans x y z).
    + constructor; [exact IH|].
      eapply Permutation_Forall; [symmetry; apply insert_sorted_perm|].
      constructor; [|exact Hall].
      destruct (String.leb_total x y) as [Hxy|Hyx]; [congruence|exact Hyx].
Qed.

Lemma sorted_ordered l : StronglySorted leb_rel (sorted l).
Proof.
  induction l as [|x l IH]; simpl; [constructor|].
  now apply insert_sorted_ordered.
Qed.

Lemma strictly_sorted l :
  NoDup l -> StronglySorted leb_rel l -> StronglySorted string_lt l.
Proof.
  induction 2 as [|x l Hsorted IH Hall]; [constructor|].
  inversion H as [|? ? Hnotin Hnodup]; subst.
  constructor; [now apply IH|].
  apply Forall_forall. intros y Hy.
  rewrite Forall_forall in Hall. specialize (Hall y Hy).
  apply string_leb_cases in Hall. destruct Hall as [Hlt|Heq]; [exact Hlt|].
  subst y. contradiction.
Qed.

(** [sorted(list(set(xs)))]: strictly ascending, hence without repeats,
    and with exactly the elements of [xs]. *)
Lemma sorted_set_spec xs :
  StronglySorted string_lt (sorted (list_set xs)) /\
  NoDup (sorted (list_set xs)) /\
  forall s, In s (sorted (list_set xs)) <-> In s xs.
Proof.
  assert (Hnodup : NoDup (sorted (list_set xs))).
  { eapply Permutation_NoDup; [symmetry; apply sorted_perm|].
    apply NoDup_nodup. }
  split; [|split].
  - apply strictly_sorted; [exact Hnodup|apply sorted_ordered].
  - exact Hnodup.
  - intros s. unfold list_set. rewrite <- (nodup_In string_dec xs s). split.
    + apply Permutation_in, sorted_perm.
    + apply Permutation_in. symmetry. apply sorted_perm.
Qed.

Section Payload.
Context `{FloatRuntime}.
Variable grams_of_weight : string -> result Z.

Lemma build_variants_spec variants_data :
  Forall (fun vd => exists g, grams_of_weight (vd_weight vd) = Ok g) variants_data ->
  exists variants,
    build_variants grams_of_weight variants_data = Ok variants /\
    map option1 variants = map vd_size variants_data /\
    map v_sku variants = map vd_sku variants_data /\
    map v_price variants = map vd_price variants_data.
Proof.
  induction 1 as [|vd rest [g Hg] _ (variants & Hbuild & Hsize & Hsku & Hprice)];
    simpl.
  - exists []. repeat split.
  - rewrite Hg. cbn [bind]. rewrite Hbuild. cbn [bind].
    eexists. split; [reflexivity|]. simpl. now rewrite Hsize, Hsku, Hprice.
Qed.


End Payload.

(** *** The statements on sample data *)

Import sync_samples.

Lemma invalid_record_is_skipped_witness :
  process_product (fun _ => Raise ValueError) (fun _ => Raise ValueError)
    (fun _ _ => Ok sample_product_data)
    counting_variant_creator counting_simple_creator
    (Some tt) sample_start blank_description_item = count_failed sample_start /\
  forall before after : dict bucket,
    process_items (fun _ => Raise ValueError) (fun _ => Raise ValueError)
      (fun _ _ => Ok sample_product_data)
      counting_variant_creator counting_simple_creator
      (Some tt) sample_start (before ++ blank_description_item :: after) =
    count_failed
      (process_items (fun _ => Raise ValueError) (fun _ => Raise ValueError)
         (fun _ _ => Ok sample_product_data)
         counting_variant_creator counting_simple_creator
         (Some tt) sample_start (before ++ after)).
Proof.
  apply (invalid_record_is_skipped (H := written_floats)
           (fun _ => Raise ValueError) (fun _ => Raise ValueError) nat unit
           (fun _ _ => Ok sample_product_data)
           counting_variant_creator counting_simple_creator
           (Some tt) sample_start blank_description_item "DESCRIPCION").
  - simpl. tauto.
  - right. right. exists (CStr "   "). split; reflexivity.
Defined.

(** A run over two rows: the first has a blank description and is
    counted as failed, the second is created in the shop. *)
Example process_products_sample :
  process_products (fun _ => Raise ValueError) (fun _ => Raise ValueError)
    (fun (_ : nat) => Ok tt) (fun _ _ => Ok sample_product_data)
    counting_variant_creator counting_simple_creator
    [blank_description_row; plain_row] false 0 =
  Ok {| products_processed := 1; products_failed := 1; world := 1;
        prepared := [sample_product_data] |}.
Proof. reflexivity. Qed.

(** Sizes are ordered as strings, so 10 and 12 come before 8. *)
Example size_option_of_sample :
  match new_variant_product sample_grams sample_product_data sample_variants with
  | Ok product =>
      p_options product = [ {| opt_name := "Talla"; opt_values := ["10"; "12"; "8"] |} ] /\
      map option1 (p_variants product) = ["8"; "12"; "10"; "12"]
  | Raise _ => False
  end.
Proof. vm_compute. split; reflexivity. Qed.


End sync_facts.

(** ** Further facts about the helpers *)

Module cleaning_facts.
Import py helpers vocabulary sync_vocabulary helper_vocabulary.

Lemma lstrip_fixed s :
  lstrip s = s -> s = EmptyString \/ exists c rest, s = String c rest /\ isspace c = false.
Proof.
  destruct s as [|c rest]; [now left|]. simpl.
  destruct (isspace c) eqn:E; [|intros _; right; eauto].
  intros Hfix. exfalso.
  assert (Hlen : forall t, String.length (lstrip t) <= String.length t).
  { induction t as [|d t IH]; simpl; [lia|]. destruct (isspace d); simpl; lia. }
  specialize (Hlen rest). rewrite Hfix in Hlen. simpl in Hlen. lia.
Qed.

Lemma lstrip_idempotent s : lstrip (lstrip s) = lstrip s.
Proof.
  induction s as [|c rest IH]; simpl; [reflexivity|].
  destruct (isspace c) eqn:E; [exact IH|]. simpl. now rewrite E.
Qed.

Lemma rstrip_cons c s :
  rstrip (String c s) =
  match rstrip s with
  | EmptyString => if isspace c then EmptyString else String c EmptyString
  | kept => String c kept
  end.
Proof. reflexivity. Qed.

Lemma rstrip_idempotent s : rstrip (rstrip s) = rstrip s.
Proof.
  induction s as [|c rest IH]; [reflexivity|].
  rewrite rstrip_cons. destruct (rstrip rest) as [|d kept] eqn:E.
  - destruct (isspace c) eqn:Ec; [reflexivity|]. simpl. now rewrite Ec.
  - rewrite rstrip_cons, IH. reflexivity.
Qed.

Lemma rstrip_head c rest :
  isspace c = false -> exists kept, rstrip (String c rest) = String c kept.
Proof.
  intros Hc. simpl. destruct (rstrip rest); [rewrite Hc|]; eauto.
Qed.

(** What [strip] returns has no whitespace left at either end. *)
Lemma strip_stripped s : lstrip (strip s) = strip s /\ rstrip (strip s) = strip s.
Proof.
  unfold strip. split; [|apply rstrip_idempotent].
  destruct (lstrip_fixed (lstrip s) (lstrip_idempotent s)) as [E|(c & rest & E & Hc)];
    rewrite E; [reflexivity|].
  destruct (rstrip_head c rest Hc) as [kept ->]. simpl. now rewrite Hc.
Qed.

Lemma strip_idempotent s : strip (strip s) = strip s.
Proof.
  unfold strip at 1. destruct (strip_stripped s) as [-> ->]. reflexivity.
Qed.

Lemma clean_value_cases v :
  clean_value v = EmptyString \/
  (clean_value v = strip (str v) /\ strip (str v) <> EmptyString).
Proof.
  unfold clean_value.
  destruct (isna v || eq_str v "nan" || eq_str v "NaN"); simpl; [now left|].
  destruct (String.eqb_spec (strip (str v)) EmptyString); [now left|now right].
Qed.

Lemma clean_value_empty_iff (v : cell) :
  clean_value v = EmptyString <->
  v = CNull \/ v = CStr "nan" \/ v = CStr "NaN" \/ all_spaces (str v) = true.
Proof.
  unfold clean_value. rewrite <- sync_facts.strip_blank. split.
  - destruct v as [|s|t]; simpl.
    + intros _. now left.
    + destruct (String.eqb_spec s "nan") as [->|_]; [intros _; tauto|].
      destruct (String.eqb_spec s "NaN") as [->|_]; [intros _; tauto|]. simpl.
      destruct (String.eqb_spec (strip s) EmptyString); tauto.
    + destruct (String.eqb_spec (strip t) EmptyString); tauto.
  - intros [->|[->|[->|Hblank]]]; try reflexivity.
    rewrite Hblank, String.eqb_refl, !Bool.orb_true_r. reflexivity.
Qed.

Lemma clean_value_stripped (v : cell) :
  lstrip (clean_value v) = clean_value v /\ rstrip (clean_value v) = clean_value v.
Proof.
  destruct (clean_value_cases v) as [->|[-> _]]; [split; reflexivity|].
  apply strip_stripped.
Qed.

(** X1: [clean_value] answers the empty string exactly for a null cell,
    for the strings nan and NaN, and for blank text; otherwise it answers
    the text of the cell stripped.  Either way the answer neither begins
    nor ends with whitespace. *)
Theorem clean_value_spec (v : cell) :
  (clean_value v = EmptyString <->
   v = CNull \/ v = CStr "nan" \/ v = CStr "NaN" \/ all_spaces (str v) = true) /\
  (clean_value v <> EmptyString -> clean_value v = strip (str v)) /\
  lstrip (clean_value v) = clean_value v /\
  rstrip (clean_value v) = clean_value v.
Proof.
  split; [apply clean_value_empty_iff|]. split; [|apply clean_value_stripped].
  intros Hne. destruct (clean_value_cases v) as [E|[E _]]; [contradiction|exact E].
Qed.

(** X2: cleaning a cleaned text is the identity, with one exception: a
    text that cleans to nan or NaN (as [ nan ] with blanks around it
    does) is emptied by the second pass. *)
Theorem clean_value_twice (v : cell) :
  clean_value (CStr (clean_value v)) =
  (if (clean_value v =? "nan")%string || (clean_value v =? "NaN")%string
   then EmptyString else clean_value v) /\
  clean_value (CStr " nan ") = "nan" /\
  clean_value (CStr (clean_value (CStr " nan "))) = EmptyString.
Proof.
  split; [|split; reflexivity].
  destruct (clean_value_stripped v) as (Hl & Hr).
  assert (Hstrip : strip (clean_value v) = clean_value v)
    by (unfold strip; now rewrite Hl, Hr).
  unfold clean_value at 1. cbn [isna eq_str str orb]. rewrite Hstrip.
  destruct ((clean_value v =? "nan")%string || (clean_value v =? "NaN")%string);
    [reflexivity|]. simpl.
  destruct (String.eqb_spec (clean_value v) EmptyString) as [E|_]; [now rewrite E|].
  reflexivity.
Qed.

End cleaning_facts.

Module validation_facts.
Import py helpers vocabulary sync_vocabulary helper_vocabulary.

Ltac split_missing data :=
  destruct (field_missing data "REFERENCIA") eqn:?;
  destruct (field_missing data "DESCRIPCION") eqn:?;
  destruct (field_missing data "PRECIO") eqn:?;
  destruct (field_missing data "TIPO") eqn:?.

(** X3: the report of [validate_product_data].  The record is valid
    exactly when the list of missing fields is empty; the list keeps the
    order referencia, descripcion, precio, tipo; and it names a field
    exactly when that column is absent from the record or blank. *)
Theorem validate_product_data_report (data : row) :
  (fst (validate_product_data data) = true <->
   snd (validate_product_data data) = []) /\
  subsequence (snd (validate_product_data data)) field_names /\
  (forall field name,
      In (field, name) required_fields ->
      (In name (snd (validate_product_data data)) <-> absent_or_blank data field)).
Proof.
  unfold validate_product_data, field_names, required_fields.
  cbn [filter fst snd map]. split; [|split].
  - split_missing data; cbn; split; intros E; try reflexivity; discriminate E.
  - split_missing data; cbn;
      repeat first [apply sub_nil | apply sub_keep | apply sub_skip].
  - intros field name Hin. rewrite <- sync_facts.field_missing_spec.
    cbn in Hin.
    destruct Hin as [E|[E|[E|[E|[]]]]]; injection E as <- <-;
      split_missing data; cbn; split; intros Hm;
      try reflexivity; try discriminate Hm; try tauto;
      repeat (destruct Hm as [Hm|Hm]; try discriminate Hm); try contradiction.
Qed.

(** X4: validation and cleaning disagree on one text.  A field that
    [validate_product_data] accepts is cleaned to the empty string by
    [clean_value] exactly when it is the string nan or NaN. *)
Theorem accepted_field_cleans_empty (data : row) (field : string) (v : cell) :
  row_lookup data field = Some v ->
  field_missing data field = false ->
  (clean_value v = EmptyString <-> v = CStr "nan" \/ v = CStr "NaN").
Proof.
  intros Hv Hok. unfold field_missing in Hok. rewrite Hv in Hok.
  apply Bool.orb_false_iff in Hok. destruct Hok as [Hna Hblank].
  rewrite cleaning_facts.clean_value_empty_iff. split; [|tauto].
  intros [->|[E|[E|E]]]; try tauto; [discriminate Hna|].
  apply sync_facts.strip_blank in E. rewrite E in Hblank. discriminate Hblank.
Qed.

Lemma accepted_field_cleans_empty_witness :
  fst (validate_product_data
         [("REFERENCIA", CStr "A1"); ("DESCRIPCION", CStr "nan");
          ("PRECIO", CScalar "3"); ("TIPO", CStr "sello")]) = true /\
  (clean_value (CStr "nan") = EmptyString <-> CStr "nan" = CStr "nan" \/ CStr "nan" = CStr "NaN").
Proof.
  split; [reflexivity|].
  apply (accepted_field_cleans_empty
           [("REFERENCIA", CStr "A1"); ("DESCRIPCION", CStr "nan");
            ("PRECIO", CScalar "3"); ("TIPO", CStr "sello")] "DESCRIPCION");
    reflexivity.
Defined.

End validation_facts.

Module grouping_more_facts.
Import py helpers vocabulary helper_vocabulary grouping_samples.

Lemma group_rows_raises df : forall acc e,
  group_rows acc df = Raise e -> e = KeyError "REFERENCIA".
Proof.
  induction df as [|r df IH]; intros acc e; simpl; [discriminate|].
  unfold group_row at 1, row_item.
  destruct (row_lookup r "REFERENCIA") as [v|]; simpl.
  - apply IH.
  - intros E. now injection E as <-.
Qed.

Lemma filter_none {A} (P : A -> bool) (l : list A) :
  existsb P l = false -> filter P l = [].
Proof.
  induction l as [|a l IH]; simpl; [reflexivity|].
  destruct (P a); [discriminate|exact IH].
Qed.


(** X6: the keys of the dict are the base references of the sheet, each
    once, in the order in which they first occur. *)
Theorem group_variants_key_order (df : list row) (products : dict bucket) :
  group_variants df = Ok products ->
  map fst products = first_seen (bases df) /\
  NoDup (map fst products) /\
  (forall b, In b (map fst products) <->
             exists r, In r df /\ get_base_reference (reference_of r) = b).
Proof.
  intros Hp. pose proof (grouping_facts.group_variants_keys _ _ Hp) as Hkeys.
  rewrite Hkeys. split; [reflexivity|]. split.
  - unfold first_seen. apply NoDup_rev, NoDup_nodup.
  - intros b. rewrite grouping_facts.first_seen_in. unfold bases.
    rewrite in_map_iff. split; intros (r & H1 & H2); exists r; tauto.
Qed.

Lemma group_variants_key_order_witness :
  exists products,
    group_variants mixed_sheet = Ok products /\
    map fst products = ["XYZ"; "ABC"] /\
    NoDup (map fst products).
Proof.
  destruct (grouping_facts.group_variants_total mixed_sheet) as [products Hp].
  - repeat constructor; discriminate.
  - exists products. split; [exact Hp|].
    destruct (group_variants_key_order mixed_sheet products Hp) as (Hkeys & Hnodup & _).
    split; [exact Hkeys|exact Hnodup].
Defined.

(** X7: which rows a bucket lists.  A simple product lists its first row
    and nothing else, however many rows share its reference.  In every
    bucket all listed rows after the first carry a suffix, and the rows
    listed are the suffixed rows of that base reference, in sheet order,
    preceded by the first row when it is plain: a plain row that is not
    the first of its base reference is listed nowhere. *)
Theorem later_plain_rows_are_dropped (df : list row) (products : dict bucket)
  (b : string) (B : bucket) :
  group_variants df = Ok products ->
  dict_get products b = Some B ->
  (is_variant_product B = false -> variants B = [base_data B]) /\
  Forall (fun r => carries_suffix r = true) (tl (variants B)) /\
  variants B =
    (if carries_suffix (base_data B) then [] else [base_data B]) ++
    filter carries_suffix (filter (in_bucket b) df) /\
  length (variants B) =
    (if carries_suffix (base_data B) then 0 else 1) +
    length (filter carries_suffix (filter (in_bucket b) df)).
Proof.
  intros Hp HB. rewrite (grouping_facts.group_variants_bucket _ _ Hp b) in HB.
  unfold bucket_for, bucket_of_rows in HB.
  destruct (filter (in_bucket b) df) as [|first others] eqn:Ef; [discriminate|].
  injection HB as <-. cbn [is_variant_product base_data variants].
  assert (Hall : Forall (fun r => carries_suffix r = true)
                        (filter carries_suffix (first :: others))).
  { apply Forall_forall. intros r Hin. apply filter_In in Hin. tauto. }
  split; [|split; [|split]].
  - intros Hnone. cbn [existsb] in Hnone. apply Bool.orb_false_iff in Hnone.
    destruct Hnone as [Hfirst Hothers]. cbn [filter]. rewrite Hfirst. simpl.
    f_equal. now apply filter_none.
  - cbn [filter] in *. destruct (carries_suffix first) eqn:Hfirst; cbn [app tl].
    + now inversion Hall.
    + exact Hall.
  - reflexivity.
  - cbn [filter]. rewrite length_app. now destruct (carries_suffix first).
Qed.

Lemma later_plain_rows_are_dropped_witness :
  exists products simple sized,
    group_variants mixed_sheet = Ok products /\
    dict_get products "XYZ" = Some simple /\
    dict_get products "ABC" = Some sized /\
    variants simple = [reference_row "XYZ"] /\
    variants sized = [reference_row "ABC/S"; reference_row "ABC/M"].
Proof.
  destruct (grouping_facts.group_variants_total mixed_sheet) as [products Hp].
  - repeat constructor; discriminate.
  - pose proof (grouping_facts.group_variants_bucket _ _ Hp "XYZ") as Hx.
    pose proof (grouping_facts.group_variants_bucket _ _ Hp "ABC") as Ha.
    vm_compute in Hx, Ha.
    eexists products, _, _. split; [exact Hp|].
    split; [exact Hx|]. split; [exact Ha|].
    destruct (later_plain_rows_are_dropped mixed_sheet products "XYZ" _ Hp Hx)
      as (Hsimple & _).
    destruct (later_plain_rows_are_dropped mixed_sheet products "ABC" _ Hp Ha)
      as (_ & _ & Hsized & _).
    split; [apply Hsimple; reflexivity|exact Hsized].
Defined.

End grouping_more_facts.

Module price_more_facts.
Import py helpers helper_vocabulary.

Lemma count_chars_keep (p keep : ascii -> bool) s :
  (forall c, p c = true -> keep c = true) ->
  count_chars p (keep_chars keep s) = count_chars p s.
Proof.
  intros Hsub. induction s as [|c s IH]; simpl; [reflexivity|].
  destruct (keep c) eqn:Ek; simpl; rewrite IH; [reflexivity|].
  destruct (p c) eqn:Ep; [|reflexivity]. rewrite (Hsub c Ep) in Ek. discriminate.
Qed.

Lemma count_digits_replace s :
  count_chars isdigit (replace "," "." s) = count_chars isdigit s.
Proof.
  induction s as [|c s IH]; simpl; [reflexivity|]. rewrite IH. f_equal.
  destruct (Ascii.eqb_spec c ","); [subst; reflexivity|reflexivity].
Qed.

Lemma count_points_replace s :
  count_chars ispoint (replace "," "." s) = count_chars isseparator s.
Proof.
  induction s as [|c s IH]; simpl; [reflexivity|]. rewrite IH. f_equal.
  unfold isseparator.
  destruct (Ascii.eqb_spec c ","); [subst; reflexivity|].
  now rewrite Bool.orb_false_r.
Qed.

Lemma keep_chars_app keep s1 s2 :
  keep_chars keep (s1 ++ s2) = (keep_chars keep s1 ++ keep_chars keep s2)%string.
Proof.
  induction s1 as [|c s1 IH]; simpl; [reflexivity|].
  destruct (keep c); simpl; now rewrite IH.
Qed.

Section StringPrices.
Context `{FloatRuntime}.

(** X8: the price of a string.  Only its digits, points and commas
    count.  With at least one digit and at most one point or comma the
    price is the float of what is kept, the comma read as a point;
    otherwise (no digit, or a thousands separator beside the decimal one)
    it is zero.  Any other character can be dropped without changing the
    price; a minus sign in particular is lost. *)
Theorem format_price_of_string (s : string) :
  format_price (VStr s) =
    (if (1 <=? count_chars isdigit s)%nat && (count_chars isseparator s <=? 1)%nat
     then Ok (float_of_literal (price_text s))
     else Ok float_zero) /\
  (forall (c : ascii) (s1 s2 : string),
      isdigit c || isseparator c = false ->
      format_price (VStr (s1 ++ String c s2)) = format_price (VStr (s1 ++ s2))) /\
  format_price (VStr ("-" ++ s)) = format_price (VStr s).
Proof.
  assert (Hkeep : forall c s1 s2,
             isdigit c || isseparator c = false ->
             format_price (VStr (s1 ++ String c s2)) = format_price (VStr (s1 ++ s2))).
  { intros c s1 s2 Hc. unfold format_price. rewrite !keep_chars_app. simpl.
    unfold isseparator in Hc. rewrite Bool.orb_assoc in Hc. now rewrite Hc. }
  split; [|split; [exact Hkeep|]].
  - unfold format_price, float_of_plain, price_text.
    rewrite count_digits_replace, count_points_replace.
    rewrite !count_chars_keep.
    + now destruct ((1 <=? count_chars isdigit s)%nat
                    && (count_chars isseparator s <=? 1)%nat).
    + intros c Hc. unfold isseparator in Hc.
      rewrite <- Bool.orb_assoc, Hc. apply Bool.orb_true_r.
    + intros c Hc. now rewrite Hc.
  - apply (Hkeep "-"%char EmptyString s). reflexivity.
Qed.

End StringPrices.

End price_more_facts.

(** ** Further facts about the mapping store *)

Module store_more_facts.
Import py migrations mysql_connector product_mapper store_vocabulary.
Import store_more_vocabulary store_samples store_facts.

Ltac unfold_db :=
  unfold try_except, mysql_connector.bind, execute_query, ret, raise;
  cbn [statements database fst snd].

Section Sequences.
Context `{Collation}.

(** One call, as the log sees it. *)
Lemma run_mutation_log m srv c :
  exists ok c',
    run_mutation m srv c = (Ok ok, c') /\
    statements c' = 2 + statements c /\
    sync_log (database c') =
      sync_log (database c) ++
        match fault srv (S (statements c)) with
        | None =>
            [ {| log_reference := logged_reference m;
                 action := logged_action m;
                 status := (if ok then "success" else "error");
                 message := (if ok then success_message m
                             else match primary_outcome m srv c with
                                  | Raise e => exn_str e
                                  | Ok _ => EmptyString
                                  end);
                 log_created_at := now srv (S (statements c)) |} ]
        | Some _ => []
        end.
Proof.
  rewrite run_mutation_run.
  destruct (primary_outcome m srv c) as [db1|e] eqn:Hprimary.
  - eexists true, _. split; [reflexivity|]. cbn [statements database].
    split; [reflexivity|]. unfold log_attempt.
    rewrite <- (primary_outcome_keeps_log _ _ _ _ Hprimary).
    destruct (fault srv (S (statements c))); cbn [sync_log];
      [now rewrite app_nil_r|reflexivity].
  - eexists false, _. split; [reflexivity|]. cbn [statements database].
    split; [reflexivity|]. unfold log_attempt.
    destruct (fault srv (S (statements c))); cbn [sync_log];
      [now rewrite app_nil_r|reflexivity].
Qed.

Lemma run_all_cons m rest srv c ok c1 oks c2 :
  run_mutation m srv c = (Ok ok, c1) ->
  run_all rest srv c1 = (Ok oks, c2) ->
  run_all (m :: rest) srv c = (Ok (ok :: oks), c2).
Proof.
  intros H1 H2. cbn [run_all]. unfold mysql_connector.bind at 1. rewrite H1.
  unfold mysql_connector.bind at 1. rewrite H2. reflexivity.
Qed.

(** X15: starting from freshly created tables, whatever calls the mapper
    receives and whatever the server does with each statement, the tables
    keep the constraints of the schema: no two product rows with one
    reference, no two variant rows with one SKU, no variant without its
    product. *)
Theorem mapper_keeps_schema (srv : Server) (ms : list mutation) (n : nat) :
  exists oks c',
    run_all ms srv {| database := create_tables; statements := n |} = (Ok oks, c') /\
    length oks = length ms /\
    consistent (database c').
Proof.
  assert (Hgen : forall ms c, consistent (database c) ->
            exists oks c', run_all ms srv c = (Ok oks, c') /\
                           length oks = length ms /\ consistent (database c')).
  { clear ms n. induction ms as [|m ms IH]; intros c Hc.
    - exists [], c. split; [reflexivity|]. split; [reflexivity|exact Hc].
    - destruct (run_mutation_log m srv c) as (ok & c1 & Hrun & _).
      pose proof (run_mutation_consistent m srv c Hc) as Hc1.
      rewrite Hrun in Hc1. cbn [snd] in Hc1.
      destruct (IH c1 Hc1) as (oks & c2 & Hrest & Hlen & Hc2).
      exists (ok :: oks), c2. split; [exact (run_all_cons _ _ _ _ _ _ _ _ Hrun Hrest)|].
      split; [simpl; now rewrite Hlen|exact Hc2]. }
  apply Hgen. apply create_tables_consistent.
Qed.


End Sequences.

Section Lookups.
Context `{Collation}.

Lemma get_variant_mapping_run sku srv c :
  get_variant_mapping sku srv c =
  (Ok (match fault srv (statements c) with
       | Some _ => None
       | None => hd_error (filter (fun v => key_eqb (internal_sku v) sku)
                                  (variant_mappings (database c)))
       end),
   {| database := database c; statements := S (statements c) |}).
Proof.
  unfold get_variant_mapping. unfold_db.
  destruct (fault srv (statements c)); reflexivity.
Qed.

Lemma get_product_mapping_cases ref srv c :
  get_product_mapping ref srv c =
  match fault srv (statements c) with
  | Some _ => (Ok None, {| database := database c; statements := S (statements c) |})
  | None =>
      match filter (fun p => key_eqb (internal_reference p) ref)
                   (product_mappings (database c)) with
      | [] => (Ok None, {| database := database c; statements := S (statements c) |})
      | p :: _ =>
          (Ok (match fault srv (S (statements c)) with
               | Some _ => None
               | None =>
                   Some {| product := p;
                           mapped_variants :=
                             filter (fun v => key_eqb (parent_reference v) ref)
                                    (variant_mappings (database c)) |}
               end),
           {| database := database c; statements := S (S (statements c)) |})
      end
  end.
Proof.
  unfold get_product_mapping. unfold_db.
  destruct (fault srv (statements c)); [reflexivity|].
  unfold sql_select_product.
  destruct (filter _ (product_mappings (database c))); [reflexivity|].
  cbn [statements database]. destruct (fault srv (S (statements c))); reflexivity.
Qed.

Lemma filter_head_exists {A} (P : A -> bool) (l : list A) :
  existsb P l = true <-> exists x rest, filter P l = x :: rest.
Proof.
  induction l as [|a l IH]; simpl.
  - split; [discriminate|]. intros (x & rest & E). discriminate.
  - destruct (P a); simpl; [|exact IH]. split; [eauto|reflexivity].
Qed.

(** X12: the two lookups never raise and never change a table or the
    log, whatever the server does.  [get_product_mapping] answers a
    mapping exactly when a product row has the reference and the server
    answers both queries; the mapping then holds a row of that reference
    and all variant rows with that parent reference.  A query the server
    rejects reads as not found.  [get_variant_mapping] likewise. *)
Theorem lookups_change_nothing (srv : Server) (c : Connection) (ref sku : string) :
  (exists r c',
      get_product_mapping ref srv c = (Ok r, c') /\
      database c' = database c /\
      (r <> None <->
       fault srv (statements c) = None /\
       fault srv (S (statements c)) = None /\
       has_product ref (product_mappings (database c)) = true) /\
      (forall m, r = Some m ->
         In (product m) (product_mappings (database c)) /\
         key_eqb (internal_reference (product m)) ref = true /\
         mapped_variants m =
           filter (fun v => key_eqb (parent_reference v) ref)
                  (variant_mappings (database c)))) /\
  (exists r c',
      get_variant_mapping sku srv c = (Ok r, c') /\
      database c' = database c /\
      (r <> None <->
       fault srv (statements c) = None /\
       has_variant sku (variant_mappings (database c)) = true) /\
      (forall v, r = Some v ->
         In v (variant_mappings (database c)) /\
         key_eqb (internal_sku v) sku = true)).
Proof.
  split.
  - rewrite get_product_mapping_cases. unfold has_product.
    destruct (fault srv (statements c)) as [msg|] eqn:Hf1.
    + eexists _, _. split; [reflexivity|]. split; [reflexivity|]. split.
      * split; [congruence|]. intros (E & _). discriminate E.
      * discriminate.
    + destruct (filter (fun p => key_eqb (internal_reference p) ref)
                       (product_mappings (database c))) as [|p rest] eqn:Hrows.
      * eexists _, _. split; [reflexivity|]. split; [reflexivity|]. split.
        -- split; [congruence|]. intros (_ & _ & Hex).
           apply filter_head_exists in Hex. destruct Hex as (x & r & E).
           rewrite Hrows in E. discriminate E.
        -- discriminate.
      * assert (Hex : existsb (fun p0 => key_eqb (internal_reference p0) ref)
                        (product_mappings (database c)) = true)
          by (apply filter_head_exists; eauto).
        assert (Hp : In p (filter (fun p0 => key_eqb (internal_reference p0) ref)
                             (product_mappings (database c))))
          by (rewrite Hrows; now left).
        apply filter_In in Hp.
        eexists _, _. split; [reflexivity|]. split; [reflexivity|].
        destruct (fault srv (S (statements c))) eqn:Hf2; split.
        -- split; [congruence|]. intros (_ & E & _). discriminate E.
        -- discriminate.
        -- split; [tauto|discriminate].
        -- intros m E. injection E as <-. cbn [product mapped_variants]. tauto.
  - rewrite get_variant_mapping_run. unfold has_variant.
    destruct (fault srv (statements c)) as [msg|] eqn:Hf1.
    + eexists _, _. split; [reflexivity|]. split; [reflexivity|]. split.
      * split; [congruence|]. intros (E & _). discriminate E.
      * discriminate.
    + eexists _, _. split; [reflexivity|]. split; [reflexivity|].
      destruct (filter (fun v => key_eqb (internal_sku v) sku)
                       (variant_mappings (database c))) as [|v rest] eqn:Hrows;
        cbn [hd_error]; split.
      * split; [congruence|]. intros (_ & Hex).
        apply filter_head_exists in Hex. destruct Hex as (x & r & E).
        rewrite Hrows in E. discriminate E.
      * discriminate.
      * split; [|discriminate]. intros _. split; [reflexivity|].
        apply filter_head_exists. eauto.
      * intros w E. injection E as <-.
        assert (Hv : In v (filter (fun v0 => key_eqb (internal_sku v0) sku)
                             (variant_mappings (database c))))
          by (rewrite Hrows; now left).
        apply filter_In in Hv. exact Hv.
Qed.

(** The statement of [save_variant_mapping], case by case. *)
Lemma sql_upsert_variant_cases sku vid pid parent sz pr t db :
  sql_upsert_variant sku vid pid parent sz pr t db =
  if has_variant sku (variant_mappings db)
  then Ok ({| product_mappings := product_mappings db;
              variant_mappings := update_variant sku vid pid sz pr t (variant_mappings db);
              sync_log := sync_log db |}, tt)
  else if has_product parent (product_mappings db)
  then Ok ({| product_mappings := product_mappings db;
              variant_mappings :=
                variant_mappings db ++
                [ {| internal_sku := sku; shopify_variant_id := vid;
                     variant_product_id := pid; parent_reference := parent;
                     size := sz; price := pr;
                     created_at := t; variant_updated_at := t |} ];
              sync_log := sync_log db |}, tt)
  else Raise (DbError fk_message).
Proof. reflexivity. Qed.

Lemma save_variant_mapping_run sku variant parent sz pr srv c :
  save_variant_mapping sku variant parent sz pr srv c =
  match primary_outcome (SaveVariant sku variant parent sz pr) srv c with
  | Ok db1 =>
      (Ok true,
       {| database := log_attempt srv (S (statements c)) sku "create_variant" "success"
                        (success_message (SaveVariant sku variant parent sz pr)) db1;
          statements := S (S (statements c)) |})
  | Raise e =>
      (Ok false,
       {| database := log_attempt srv (S (statements c)) sku "create_variant" "error"
                        (exn_str e) (database c);
          statements := S (S (statements c)) |})
  end.
Proof.
  change (save_variant_mapping sku variant parent sz pr)
    with (run_mutation (SaveVariant sku variant parent sz pr)).
  apply run_mutation_run.
Qed.

Lemma update_variant_head sku vid pid sz pr t rows :
  has_variant sku rows = true ->
  exists old rest,
    hd_error (filter (fun v => key_eqb (internal_sku v) sku) rows) = Some old /\
    filter (fun v => key_eqb (internal_sku v) sku)
           (update_variant sku vid pid sz pr t rows) =
      {| internal_sku := internal_sku old;
         shopify_variant_id := vid; variant_product_id := pid;
         parent_reference := parent_reference old;
         size := sz; price := pr;
         created_at := created_at old; variant_updated_at := t |} :: rest.
Proof.
  unfold has_variant. induction rows as [|v rows IH]; simpl; [discriminate|].
  destruct (key_eqb (internal_sku v) sku) eqn:E; simpl.
  - intros _. rewrite E. eexists v, _. split; reflexivity.
  - rewrite E. exact IH.
Qed.

Lemma filter_no_match {A} (P : A -> bool) (l : list A) :
  existsb P l = false -> filter P l = [].
Proof.
  induction l as [|a l IH]; simpl; [reflexivity|].
  destruct (P a); [discriminate|exact IH].
Qed.


(** X10: a variant whose SKU is new and whose parent reference has no
    product row is refused, whatever the server does: the call answers
    [False] and both mapping tables stay as they were.  When the server
    takes both statements, the refusal is the foreign key's and the log
    gains one error row with its message. *)
Theorem orphan_variant_is_refused (srv : Server) (c : Connection) (sku : string)
  (variant : ShopifyVariant) (parent : string) (sz : option string) (pr : option Z) :
  has_variant sku (variant_mappings (database c)) = false ->
  has_product parent (product_mappings (database c)) = false ->
  exists c',
    save_variant_mapping sku variant parent sz pr srv c = (Ok false, c') /\
    same_mappings (database c') (database c) /\
    (fault srv (statements c) = None ->
     fault srv (S (statements c)) = None ->
     sync_log (database c') =
       sync_log (database c) ++
         [ {| log_reference := sku; action := "create_variant";
              status := "error"; message := fk_message;
              log_created_at := now srv (S (statements c)) |} ]).
Proof.
  intros Hnew Horphan.
  rewrite save_variant_mapping_run. unfold primary_outcome.
  cbn [primary_statement]. rewrite sql_upsert_variant_cases, Hnew, Horphan.
  destruct (fault srv (statements c)) as [msg|] eqn:Hf0.
  - eexists. split; [reflexivity|]. cbn [database].
    split; [apply log_attempt_mappings|]. discriminate.
  - eexists. split; [reflexivity|]. cbn [database].
    split; [apply log_attempt_mappings|].
    intros _ Hf1. unfold log_attempt. rewrite Hf1. reflexivity.
Qed.

Lemma update_variant_pairs sku vid pid sz pr t rows :
  map sku_and_parent (update_variant sku vid pid sz pr t rows) = map sku_and_parent rows.
Proof.
  induction rows as [|v rows IH]; simpl; [reflexivity|].
  destruct (key_eqb (internal_sku v) sku); simpl; [reflexivity|now rewrite IH].
Qed.

(** X11: a variant never changes parent.  Whatever the server does, a
    call of [save_variant_mapping] leaves the SKU and parent reference of
    every stored variant row as they were and adds at most one row; and
    when the SKU is stored already it adds none, so the parent reference
    passed in the call is ignored. *)
Theorem variant_keeps_parent (srv : Server) (c : Connection) (sku : string)
  (variant : ShopifyVariant) (parent : string) (sz : option string) (pr : option Z) :
  exists ok c' added,
    save_variant_mapping sku variant parent sz pr srv c = (Ok ok, c') /\
    map sku_and_parent (variant_mappings (database c')) =
      map sku_and_parent (variant_mappings (database c)) ++ added /\
    (added = [] \/ (added = [(sku, parent)] /\ ok = true)) /\
    (has_variant sku (variant_mappings (database c)) = true -> added = []).
Proof.
  rewrite save_variant_mapping_run. unfold primary_outcome.
  cbn [primary_statement]. rewrite sql_upsert_variant_cases.
  destruct (fault srv (statements c)) as [msg|].
  - eexists false, _, []. split; [reflexivity|]. cbn [database].
    destruct (log_attempt_mappings srv (S (statements c)) sku "create_variant"
                "error" (exn_str (DbError msg)) (database c)) as [_ ->].
    rewrite app_nil_r. repeat split. now left.
  - destruct (has_variant sku (variant_mappings (database c))) eqn:Hhas.
    + eexists true, _, []. split; [reflexivity|]. cbn [database].
      match goal with
      | |- context [log_attempt ?a ?b ?d ?e ?f ?g ?h] =>
          destruct (log_attempt_mappings a b d e f g h) as [_ ->]
      end.
      cbn [variant_mappings]. rewrite update_variant_pairs, app_nil_r.
      repeat split. now left.
    + destruct (has_product parent (product_mappings (database c))).
      * eexists true, _, [(sku, parent)]. split; [reflexivity|]. cbn [database].
        match goal with
        | |- context [log_attempt ?a ?b ?d ?e ?f ?g ?h] =>
            destruct (log_attempt_mappings a b d e f g h) as [_ ->]
        end.
        cbn [variant_mappings]. rewrite map_app.
        split; [reflexivity|]. split; [now right|discriminate].
      * eexists false, _, []. split; [reflexivity|]. cbn [database].
        match goal with
        | |- context [log_attempt ?a ?b ?d ?e ?f ?g ?h] =>
            destruct (log_attempt_mappings a b d e f g h) as [_ ->]
        end.
        rewrite app_nil_r. repeat split. now left.
Qed.

Lemma count_key_in {A} (f : A -> string) (l : list A) a :
  In a l -> 1 <= count_key (f a) (map f l).
Proof.
  unfold count_key. induction l as [|x l IH]; simpl; [intros []|].
  intros [->|Hin].
  - rewrite key_eqb_refl. simpl. lia.
  - specialize (IH Hin). destruct (key_eqb (f x) (f a)); simpl; lia.
Qed.

(** Under a unique key, two rows of a table with equal keys are one row. *)
Lemma unique_rows_equal {A} (f : A -> string) (l : list A) a b :
  unique_keys (map f l) -> In a l -> In b l -> key_eqb (f a) (f b) = true -> a = b.
Proof.
  induction l as [|x l IH]; simpl; [intros _ []|].
  intros Huniq Ha Hb Hab.
  assert (Htail : unique_keys (map f l)).
  { intros k. specialize (Huniq k). unfold count_key in *. simpl in Huniq.
    destruct (key_eqb (f x) k); simpl in Huniq; lia. }
  destruct Ha as [->|Ha], Hb as [->|Hb]; try reflexivity.
  - exfalso. specialize (Huniq (f b)). pose proof (count_key_in f l b Hb) as Hone.
    unfold count_key in *. simpl in Huniq. rewrite Hab in Huniq. simpl in Huniq. lia.
  - exfalso. specialize (Huniq (f a)). pose proof (count_key_in f l a Ha) as Hone.
    rewrite key_eqb_sym in Hab.
    unfold count_key in *. simpl in Huniq. rewrite Hab in Huniq. simpl in Huniq. lia.
  - now apply IH.
Qed.

(** X13: after a delete the mapping is gone for the lookups too.  On
    tables that meet their constraints, once [delete_product_mapping]
    has answered [True], [get_product_mapping] of that reference answers
    [None], and so does [get_variant_mapping] of the SKU of every variant
    that had that parent reference. *)
Theorem deleted_mapping_is_gone (srv : Server) (c : Connection) (ref : string) :
  consistent (database c) ->
  fault srv (statements c) = None ->
  exists c1,
    delete_product_mapping ref srv c = (Ok true, c1) /\
    (exists c2, get_product_mapping ref srv c1 = (Ok None, c2)) /\
    (forall v, In v (variant_mappings (database c)) ->
               key_eqb (parent_reference v) ref = true ->
               exists c2, get_variant_mapping (internal_sku v) srv c1 = (Ok None, c2)).
Proof.
  intros Hc Hfault. destruct Hc as (_ & Hvariants & Hfk).
  change (delete_product_mapping ref) with (run_mutation (DeleteProduct ref)).
  rewrite run_mutation_run. unfold primary_outcome. rewrite Hfault.
  cbn [primary_statement].
  destruct (sql_delete_product_tables ref (now srv (statements c)) (database c) Hfk)
    as (db1 & E & Eproducts & Evariants & _).
  rewrite E. eexists. split; [reflexivity|].
  destruct (log_attempt_mappings srv (S (statements c)) ref "delete_product"
              "success" (success_message (DeleteProduct ref)) db1) as [E1 E2].
  cbn [logged_reference logged_action] in *. split.
  - rewrite get_product_mapping_cases. cbn [statements database].
    rewrite E1, Eproducts.
    assert (Hnone : filter (fun p => key_eqb (internal_reference p) ref)
                      (filter (fun p => negb (key_eqb (internal_reference p) ref))
                         (product_mappings (database c))) = []).
    { apply filter_no_match. apply Bool.not_true_is_false. intros Hex.
      apply existsb_exists in Hex. destruct Hex as (p & Hin & Hkey).
      apply filter_In in Hin. destruct Hin as [_ Hneg]. now rewrite Hkey in Hneg. }
    rewrite Hnone. destruct (fault srv (S (S (statements c)))); eauto.
  - intros v Hin Hparent. rewrite get_variant_mapping_run. cbn [statements database].
    rewrite E2, Evariants.
    assert (Hnone : filter (fun w => key_eqb (internal_sku w) (internal_sku v))
                      (filter (fun w => negb (key_eqb (parent_reference w) ref))
                         (variant_mappings (database c))) = []).
    { apply filter_no_match. apply Bool.not_true_is_false. intros Hex.
      apply existsb_exists in Hex. destruct Hex as (w & Hw & Hkey).
      apply filter_In in Hw. destruct Hw as [Hw Hneg].
      assert (w = v) by (apply (unique_rows_equal internal_sku _ w v Hvariants Hw Hin Hkey)).
      subst w. now rewrite Hparent in Hneg. }
    rewrite Hnone. destruct (fault srv (S (S (statements c)))); eauto.
Qed.

Lemma upsert_product_head ref pid handle ttl t rows :
  exists row rest,
    filter (fun p => key_eqb (internal_reference p) ref)
           (upsert_product ref pid handle ttl t rows) = row :: rest /\
    shopify_product_id row = pid /\ shopify_handle row = handle /\ title row = ttl.
Proof.
  induction rows as [|p rows IH]; simpl.
  - rewrite key_eqb_refl. eexists _, _. split; [reflexivity|]. repeat split.
  - destruct (key_eqb (internal_reference p) ref) eqn:E; simpl; rewrite E.
    + eexists _, _. split; [reflexivity|]. repeat split.
    + exact IH.
Qed.


End Lookups.

(** *** The statements on sample data *)


Lemma orphan_variant_is_refused_witness :
  exists c',
    save_variant_mapping (H := binary_collation) "Q/1" (remote_variant 5) "Q"
      None None steady_server stocked_connection = (Ok false, c') /\
    same_mappings (database c') (database stocked_connection).
Proof.
  destruct (orphan_variant_is_refused (H := binary_collation) steady_server
              stocked_connection "Q/1" (remote_variant 5) "Q" None None)
    as (c' & Hrun & Hsame & _).
  - reflexivity.
  - reflexivity.
  - exists c'. split; assumption.
Defined.

Lemma deleted_mapping_is_gone_witness :
  exists c1,
    delete_product_mapping (H := binary_collation) "ABC" steady_server
      stocked_connection = (Ok true, c1) /\
    (exists c2, get_product_mapping (H := binary_collation) "ABC" steady_server c1
                = (Ok None, c2)) /\
    (exists c2, get_variant_mapping (H := binary_collation) "ABC/S" steady_server c1
                = (Ok None, c2)).
Proof.
  destruct (deleted_mapping_is_gone (H := binary_collation) steady_server
              stocked_connection "ABC")
    as (c1 & Hdelete & Hproduct & Hvariants).
  - exact stocked_connection_consistent.
  - reflexivity.
  - exists c1. split; [exact Hdelete|]. split; [exact Hproduct|].
    destruct (variant_mappings (database stocked_connection)) as [|v rest] eqn:Erows;
      [discriminate Erows|].
    assert (Hsku : internal_sku v = "ABC/S") by (vm_compute in Erows; now injection Erows as <- _).
    rewrite <- Hsku. apply Hvariants; [now left|].
    vm_compute in Erows. injection Erows as <- _. reflexivity.
Defined.


End store_more_facts.

(** ** Further facts about the sync loop *)

Module loop_facts.
Import py helpers main vocabulary sync_vocabulary sync_samples loop_vocabulary.

Lemma stated_size_suffix r : has_size r = true -> carries_suffix r = true.
Proof.
  unfold has_size, stated_size, carries_suffix, get_variant_size, is_variant_reference.
  destruct (contains "/" (reference_of r)); [reflexivity|discriminate].
Qed.

Lemma stated_size_none r : has_size r = false -> stated_size r = [].
Proof. unfold has_size. now destruct (stated_size r). Qed.

Lemma flat_map_sizes_suffixed rows :
  flat_map stated_size (filter carries_suffix rows) = flat_map stated_size rows.
Proof.
  induction rows as [|r rows IH]; simpl; [reflexivity|].
  destruct (carries_suffix r) eqn:E; simpl; rewrite IH; [reflexivity|].
  destruct (has_size r) eqn:Hs; [|now rewrite (stated_size_none r Hs)].
  rewrite (stated_size_suffix r Hs) in E. discriminate.
Qed.

Section Variants.
Context `{FloatRuntime}.
Variable price_of_cell : cell -> result float.
Variable int_of_cell : cell -> result Z.

Lemma prepare_variants_data_rows (rows : list row) (vds : list variant_data) :
  prepare_variants_data price_of_cell int_of_cell rows = Ok vds ->
  Forall has_reference rows /\
  map vd_sku vds = map reference_of (filter has_size rows) /\
  map vd_size vds = flat_map stated_size rows /\
  Forall (fun vd => get_variant_size (vd_sku vd) = Some (vd_size vd) /\
                    vd_size vd <> EmptyString) vds.
Proof.
  revert vds. induction rows as [|r rows IH]; intros vds.
  - intros E. injection E as <-. repeat split; constructor.
  - cbn [prepare_variants_data]. unfold row_item at 1.
    destruct (row_lookup r "REFERENCIA") as [v|] eqn:Hv; [|discriminate]. cbn [bind].
    assert (Hr : has_reference r) by (unfold has_reference; congruence).
    assert (Href : reference_of r = clean_value v)
      by (unfold reference_of; now rewrite Hv).
    cbn [filter flat_map].
    unfold has_size at 1. unfold stated_size at 1 2. rewrite Href.
    destruct (get_variant_size (clean_value v)) as [[|ch sz]|] eqn:Hsize.
    + intros E. destruct (IH _ E) as (Hall & Hsku & Hsz & Hvd).
      repeat split; try assumption. now constructor.
    + destruct (row_item r "PRECIO") as [precio|]; [|discriminate]. cbn [bind].
      destruct (price_of_cell precio) as [pr|]; [|discriminate]. cbn [bind].
      destruct (row_item r "STOCK") as [stock_cell|]; [|discriminate]. cbn [bind].
      destruct (int_of_cell stock_cell) as [stock|]; [|discriminate]. cbn [bind].
      destruct (prepare_variants_data price_of_cell int_of_cell rows) as [others|];
        [|discriminate]. cbn [bind].
      intros E. injection E as <-.
      destruct (IH _ eq_refl) as (Hall & Hsku & Hsz & Hvd).
      cbn [map app vd_sku vd_size]. rewrite Hsku, Hsz, Href.
      split; [now constructor|]. split; [reflexivity|]. split; [reflexivity|].
      constructor; [|exact Hvd]. cbn [vd_sku vd_size]. split; [exact Hsize|discriminate].
    + intros E. destruct (IH _ E) as (Hall & Hsku & Hsz & Hvd).
      repeat split; try assumption. now constructor.
Qed.

(** X17: the variant data [prepare_variants_data] returns.  When it
    answers, every row had a reference column, and the data are those of
    the rows whose reference has a size that is not empty, in row order:
    each carries the cleaned reference as SKU and that size.  Rows without
    a slash, and references that end in their slash, give no variant. *)
Theorem variant_data_follow_rows (rows : list row) (vds : list variant_data) :
  prepare_variants_data price_of_cell int_of_cell rows = Ok vds ->
  Forall has_reference rows /\
  map vd_sku vds = map reference_of (filter has_size rows) /\
  map vd_size vds = flat_map stated_size rows /\
  length vds <= length rows /\
  Forall (fun vd => get_variant_size (vd_sku vd) = Some (vd_size vd) /\
                    vd_size vd <> EmptyString) vds.
Proof.
  intros Hvds. destruct (prepare_variants_data_rows rows vds Hvds)
    as (Hall & Hsku & Hsz & Hvd).
  repeat split; try assumption.
  rewrite <- (length_map vd_sku), Hsku, length_map. apply filter_length_le.
Qed.

(** X18: the sizes a product is offered in.  For a bucket of
    [group_variants], the variant data prepared from its variants list
    carry exactly the non-empty sizes of the rows of that base reference,
    in sheet order, under SKUs of that base reference: the plain row that
    may head the list adds nothing. *)
Theorem offered_sizes (df : list row) (products : dict bucket) (b : string)
  (B : bucket) (vds : list variant_data) :
  group_variants df = Ok products ->
  dict_get products b = Some B ->
  prepare_variants_data price_of_cell int_of_cell (variants B) = Ok vds ->
  map vd_size vds = flat_map stated_size (filter (in_bucket b) df) /\
  Forall (fun vd => get_base_reference (vd_sku vd) = b) vds.
Proof.
  intros Hp HB Hvds.
  destruct (prepare_variants_data_rows _ _ Hvds) as (_ & Hsku & Hsz & _).
  rewrite (grouping_facts.group_variants_bucket _ _ Hp b) in HB.
  unfold bucket_for, bucket_of_rows in HB.
  destruct (filter (in_bucket b) df) as [|first others] eqn:Ef; [discriminate|].
  injection HB as <-. cbn [variants] in *.
  change (if carries_suffix first
          then first :: filter carries_suffix others
          else filter carries_suffix others)
    with (filter carries_suffix (first :: others)) in *.
  assert (Hmine : Forall (fun r => in_bucket b r = true) (first :: others)).
  { rewrite <- Ef. apply Forall_forall. intros r Hin. apply filter_In in Hin. tauto. }
  split.
  - rewrite Hsz, flat_map_app, flat_map_sizes_suffixed.
    destruct (carries_suffix first) eqn:Hfirst; [reflexivity|].
    cbn [flat_map app]. rewrite app_nil_r.
    destruct (has_size first) eqn:Hs;
      [|now rewrite (stated_size_none first Hs)].
    rewrite (stated_size_suffix first Hs) in Hfirst. discriminate.
  - apply Forall_forall. intros vd Hvd.
    apply (in_map vd_sku) in Hvd. rewrite Hsku in Hvd.
    apply in_map_iff in Hvd. destruct Hvd as (r & <- & Hr).
    apply filter_In in Hr. destruct Hr as [Hr _].
    rewrite Forall_forall in Hmine.
    assert (Hin : In r (first :: others)).
    { apply in_app_or in Hr. destruct Hr as [Hr|Hr].
      - destruct (carries_suffix first); [destruct Hr|].
        destruct Hr as [<-|[]]. now left.
      - apply filter_In in Hr. tauto. }
    specialize (Hmine r Hin). unfold in_bucket in Hmine.
    now apply String.eqb_eq in Hmine.
Qed.

End Variants.

Lemma first_seen_repeat x n : first_seen (repeat x (S n)) = [x].
Proof.
  induction n as [|n IH]; [reflexivity|].
  change (repeat x (S (S n))) with (x :: repeat x (S n)).
  rewrite repeat_cons, grouping_facts.first_seen_snoc.
  destruct (in_dec string_dec x (repeat x (S n))) as [_|Hout]; [exact IH|].
  exfalso. apply Hout. now left.
Qed.

Section Tally.
Context `{FloatRuntime}.
Variable price_of_cell : cell -> result float.
Variable int_of_cell : cell -> result Z.
Variables World Location : Type.
Variable get_location_id : World -> result Location.
Variable prepare_product_data : row -> string -> result product_data.
Variable create_variant_product :
  product_data -> list variant_data -> Location -> World -> bool * World.
Variable create_simple_product :
  product_data -> Location -> World -> bool * World.

Local Abbreviation step :=
  (process_product price_of_cell int_of_cell prepare_product_data
     create_variant_product create_simple_product).
Local Abbreviation loop :=
  (process_items price_of_cell int_of_cell prepare_product_data
     create_variant_product create_simple_product).

(** One record, as the tally sees it. *)
Lemma process_product_tally loc (st : Run World) item :
  exists more,
    prepared (step loc st item) = prepared st ++ more /\
    length more <= 1 /\
    match loc with
    | Some _ =>
        products_processed (step loc st item) + products_failed (step loc st item) =
        S (products_processed st + products_failed st)
    | None =>
        products_processed (step loc st item) = products_processed st /\
        world (step loc st item) = world st /\
        products_failed (step loc st item) + length more = S (products_failed st)
    end.
Proof.
  unfold process_product.
  assert (Hfail : exists more,
            prepared (count_failed st) = prepared st ++ more /\
            length more <= 1 /\
            match loc with
            | Some _ =>
                products_processed (count_failed st) + products_failed (count_failed st) =
                S (products_processed st + products_failed st)
            | None =>
                products_processed (count_failed st) = products_processed st /\
                world (count_failed st) = world st /\
                products_failed (count_failed st) + length more = S (products_failed st)
            end).
  { exists []. cbn. rewrite app_nil_r.
    destruct loc; repeat split; try reflexivity; lia. }
  destruct (row_item (base_data (snd item)) "DESCRIPCION"); [|exact Hfail].
  destruct (validate_product_data (base_data (snd item))) as [is_valid missing].
  destruct (negb is_valid); [exact Hfail|].
  destruct (prepare_product_data (base_data (snd item)) (fst item)) as [pd|e];
    [|exact Hfail].
  exists [pd]. destruct loc as [loc|].
  - destruct (is_variant_product (snd item)).
    + destruct (prepare_variants_data price_of_cell int_of_cell (variants (snd item)))
        as [variants_data|e]; cbn.
      * destruct (create_variant_product pd variants_data loc (world st)) as [[|] w];
          cbn; repeat split; lia.
      * repeat split; lia.
    + cbn. destruct (create_simple_product pd loc (world st)) as [[|] w];
        cbn; repeat split; lia.
  - cbn. repeat split; lia.
Qed.

(** X19: the tally of a run.  The loop only ever extends the list of
    prepared products and never lowers a counter.  Against the shop every
    record ends up counted, as processed or as failed.  In display mode
    nothing is counted as processed and the world is left alone: a record
    is either counted as failed or prepared for display, so the
    summary of a display run counts the valid records nowhere. *)
Theorem loop_tally (loc : option Location) (st : Run World) (items : dict bucket) :
  exists more,
    prepared (loop loc st items) = prepared st ++ more /\
    length more <= length items /\
    match loc with
    | Some _ =>
        products_processed (loop loc st items) + products_failed (loop loc st items) =
        products_processed st + products_failed st + length items
    | None =>
        products_processed (loop loc st items) = products_processed st /\
        world (loop loc st items) = world st /\
        products_failed (loop loc st items) + length more =
        products_failed st + length items
    end.
Proof.
  unfold process_items. revert st.
  induction items as [|item items IH]; intros st; cbn [fold_left length].
  - exists []. rewrite app_nil_r. cbn [length].
    destruct loc; repeat split; try reflexivity; lia.
  - destruct (process_product_tally loc st item) as (m1 & Hp1 & H1).
    destruct (IH (step loc st item)) as (m2 & Hp2 & Hlen2 & H2).
    exists (m1 ++ m2). rewrite Hp2, Hp1, <- app_assoc, length_app.
    split; [reflexivity|]. destruct H1 as [Hm1 H1]. destruct loc as [l|].
    + split; lia.
    + destruct H1 as (Hproc1 & Hw1 & Hf1). destruct H2 as (Hproc2 & Hw2 & Hf2).
      split; [lia|]. repeat split; try congruence; lia.
Qed.

(** X20: rows without a reference.  A sheet whose rows all have an empty
    reference cell is grouped into a single bucket under the empty key,
    and the run over it counts exactly one failure, however many rows
    there are: nothing is prepared, nothing is created. *)
Theorem rows_without_reference_fail_once (df : list row) (display_mode : bool)
  (w : World) (loc : Location) :
  df <> [] ->
  Forall lacks_reference df ->
  display_mode = true \/ get_location_id w = Ok loc ->
  process_products price_of_cell int_of_cell get_location_id prepare_product_data
    create_variant_product create_simple_product df display_mode w =
  Ok {| products_processed := 0; products_failed := 1; world := w; prepared := [] |}.
Proof.
  intros Hne Hall Hloc.
  assert (Hempty : forall r, lacks_reference r -> reference_of r = EmptyString).
  { intros r (v & Hv & Hblank). unfold reference_of. rewrite Hv.
    apply cleaning_facts.clean_value_empty_iff. tauto. }
  assert (Href : Forall has_reference df).
  { eapply Forall_impl; [|exact Hall]. intros r (v & Hv & _).
    unfold has_reference. congruence. }
  destruct (grouping_facts.group_variants_total df Href) as [products Hp].
  destruct df as [|first rest]; [contradiction|].
  assert (Hbases : bases (first :: rest) = repeat EmptyString (length (first :: rest))).
  { clear Hp Hne Href. induction Hall as [|r l Hr _ IH]; [reflexivity|].
    unfold bases in *. cbn [map length repeat]. rewrite IH, (Hempty r Hr). reflexivity. }
  assert (Hkeys : map fst products = [EmptyString]).
  { rewrite (grouping_facts.group_variants_keys _ _ Hp), Hbases.
    apply first_seen_repeat. }
  pose proof (grouping_facts.group_variants_bucket _ _ Hp EmptyString) as Hbucket.
  unfold bucket_for in Hbucket. cbn [filter] in Hbucket.
  assert (Hfirst : in_bucket EmptyString first = true).
  { unfold in_bucket. inversion Hall as [|? ? Hr _]; subst.
    now rewrite (Hempty first Hr). }
  rewrite Hfirst in Hbucket. cbn [bucket_of_rows] in Hbucket.
  destruct products as [|[k B] [|? ?]]; try discriminate Hkeys.
  cbn in Hkeys. injection Hkeys as ->. cbn in Hbucket. injection Hbucket as HB.
  unfold process_products.
  assert (Hlocation : exists location_id,
            (if display_mode then Ok None
             else bind (get_location_id w) (fun l => Ok (Some l))) = Ok location_id).
  { destruct Hloc as [->| ->]; [eauto|]. destruct display_mode; cbn; eauto. }
  destruct Hlocation as [location_id ->]. cbn [bind]. rewrite Hp. cbn [bind].
  unfold process_items, process_product. cbn [fold_left fst snd].
  rewrite HB. cbn [base_data].
  destruct (row_item first "DESCRIPCION"); [|reflexivity].
  assert (Hinvalid : fst (validate_product_data first) = false).
  { apply sync_facts.validate_product_data_spec. exists "REFERENCIA".
    split; [now left|]. inversion Hall as [|? ? (v & Hv & Hblank) _]; subst.
    unfold absent_or_blank. rewrite Hv. destruct Hblank as [->|Hb]; [tauto|].
    right. right. eauto. }
  destruct (validate_product_data first) as [is_valid missing].
  cbn in Hinvalid. subst is_valid. reflexivity.
Qed.

End Tally.

Lemma variant_data_follow_rows_witness :
  exists vds,
    prepare_variants_data sample_price_of_cell sample_int_of_cell sized_sheet = Ok vds /\
    map vd_sku vds = ["ABC/12"; "ABC/14"] /\
    map vd_size vds = ["12"; "14"].
Proof.
  eexists. split; [reflexivity|].
  destruct (variant_data_follow_rows (H := written_floats)
              sample_price_of_cell sample_int_of_cell sized_sheet _ eq_refl)
    as (_ & Hsku & Hsz & _ & _).
  split; [exact Hsku|exact Hsz].
Defined.

Lemma offered_sizes_witness :
  exists products B vds,
    group_variants sized_sheet = Ok products /\
    dict_get products "ABC" = Some B /\
    length (variants B) = 4 /\
    prepare_variants_data sample_price_of_cell sample_int_of_cell (variants B) = Ok vds /\
    map vd_size vds = ["12"; "14"].
Proof.
  eexists _, _, _. split; [reflexivity|]. split; [reflexivity|].
  split; [reflexivity|]. split; [reflexivity|].
  exact (proj1 (offered_sizes (H := written_floats)
                  sample_price_of_cell sample_int_of_cell sized_sheet _ "ABC" _ _
                  eq_refl eq_refl eq_refl)).
Defined.

Lemma rows_without_reference_fail_once_witness :
  process_products (fun _ => Raise ValueError) (fun _ => Raise ValueError)
    (fun (_ : nat) => Ok tt) (fun _ _ => Ok sample_product_data)
    counting_variant_creator counting_simple_creator empty_rows false 0 =
  Ok {| products_processed := 0; products_failed := 1; world := 0; prepared := [] |}.
Proof.
  apply (rows_without_reference_fail_once (H := written_floats)
           (fun _ => Raise ValueError) (fun _ => Raise ValueError) nat unit
           (fun (_ : nat) => Ok tt) (fun _ _ => Ok sample_product_data)
           counting_variant_creator counting_simple_creator empty_rows false 0 tt).
  - discriminate.
  - repeat constructor.
    + exists CNull. split; [reflexivity|now left].
    + exists (CStr "  "). split; [reflexivity|now right].
    + exists CNull. split; [reflexivity|now left].
  - right. reflexivity.
Defined.

End loop_facts.

(** ** The creators of main.py *)

Module creator_facts.
Import py helpers migrations mysql_connector product_mapper main main_creators.
Import store_vocabulary store_more_vocabulary creator_vocabulary.
Import store_facts store_more_facts.
Import sync_vocabulary sync_samples store_samples.

Section Keys.
Context `{Collation}.

Lemma has_product_upsert_self ref pid handle ttl t rows :
  has_product ref (upsert_product ref pid handle ttl t rows) = true.
Proof.
  rewrite has_product_count, upsert_product_keys.
  destruct (has_product ref rows) eqn:E.
  - rewrite <- has_product_count. exact E.
  - rewrite count_key_app. unfold count_key at 2. simpl.
    rewrite key_eqb_refl. simpl.
    apply Bool.negb_true_iff, Nat.eqb_neq. lia.
Qed.

(** A product upsert, as far as the keys of the tables go. *)
Lemma save_product_mapping_keys ref p srv c :
  exists ok c',
    save_product_mapping ref p srv c = (Ok ok, c') /\
    variant_mappings (database c') = variant_mappings (database c) /\
    (forall k, has_product k (product_mappings (database c)) = true ->
               has_product k (product_mappings (database c')) = true) /\
    (ok = true -> has_product ref (product_mappings (database c')) = true).
Proof.
  change (save_product_mapping ref p) with (run_mutation (SaveProduct ref p)).
  rewrite run_mutation_run. unfold primary_outcome. cbn [primary_statement].
  unfold sql_upsert_product.
  destruct (fault srv (statements c)) as [msg|].
  - eexists false, _. split; [reflexivity|]. cbn [database].
    match goal with
    | |- context [log_attempt ?a ?b ?d ?e ?f ?g ?h] =>
        destruct (log_attempt_mappings a b d e f g h) as [-> ->]
    end.
    split; [reflexivity|]. split; [trivial|discriminate].
  - eexists true, _. split; [reflexivity|]. cbn [database].
    match goal with
    | |- context [log_attempt ?a ?b ?d ?e ?f ?g ?h] =>
        destruct (log_attempt_mappings a b d e f g h) as [-> ->]
    end.
    cbn [product_mappings variant_mappings].
    split; [reflexivity|]. split.
    + intros k. apply has_product_upsert.
    + intros _. apply has_product_upsert_self.
Qed.

(** A variant upsert, as far as the keys of the tables go. *)
Lemma save_variant_mapping_keys sku v parent sz pr srv c :
  exists ok c',
    save_variant_mapping sku v parent sz pr srv c = (Ok ok, c') /\
    product_mappings (database c') = product_mappings (database c) /\
    (forall k, has_variant k (variant_mappings (database c)) = true ->
               has_variant k (variant_mappings (database c')) = true) /\
    (ok = true -> has_variant sku (variant_mappings (database c')) = true).
Proof.
  rewrite save_variant_mapping_run. unfold primary_outcome.
  cbn [primary_statement]. rewrite sql_upsert_variant_cases.
  destruct (fault srv (statements c)) as [msg|];
    [|destruct (has_variant sku (variant_mappings (database c))) eqn:Hhas;
      [|destruct (has_product parent (product_mappings (database c)))]];
    eexists _, _; (split; [reflexivity|]); cbn [database];
    match goal with
    | |- context [log_attempt ?a ?b ?d ?e ?f ?g ?h] =>
        destruct (log_attempt_mappings a b d e f g h) as [-> ->]
    end;
    cbn [product_mappings variant_mappings];
    (split; [reflexivity|]).
  - split; [trivial|discriminate].
  - split.
    + intros k. now rewrite !has_variant_count, update_variant_keys.
    + intros _. now rewrite has_variant_count, update_variant_keys, <- has_variant_count.
  - split.
    + intros k Hk. unfold has_variant. rewrite existsb_app.
      unfold has_variant in Hk. now rewrite Hk.
    + intros _. unfold has_variant. rewrite existsb_app. simpl.
      rewrite key_eqb_refl. now rewrite Bool.orb_true_r.
  - split; [trivial|discriminate].
Qed.

End Keys.

Lemma removelast_cons_true (b : bool) (l : list bool) :
  b = true ->
  Forall (fun x => x = true) (removelast l) ->
  Forall (fun x => x = true) (removelast (b :: l)).
Proof.
  intros Hb Hl. destruct l as [|x l]; [constructor|].
  change (removelast (b :: x :: l)) with (b :: removelast (x :: l)).
  now constructor.
Qed.

Lemma in_firstn_combine {A B} (l1 : list A) : forall (l2 : list B) y,
  In y (firstn (length l1) l2) -> exists x, In (x, y) (combine l1 l2).
Proof.
  induction l1 as [|a l1 IH]; intros [|b l2] y; simpl; try tauto.
  intros [->|Hin].
  - exists a. now left.
  - destruct (IH l2 y Hin) as [x Hx]. exists x. now right.
Qed.

Section Creators.
Context `{FloatRuntime} `{Collation}.
Variable grams_of_weight : string -> result Z.
Variable decimal_of_price : float -> option Z.
Variables Shop Location : Type.
Variable save_variant_product : Product -> Shop -> result (option Saved) * Shop.
Variable save_simple_product : SimpleProduct -> Shop -> result (option Saved) * Shop.
Variable inventory_level_set : Location -> Z -> Z -> Shop -> result unit * Shop.
Variable decorate : product_data -> Z -> Shop -> Shop.
Variable srv : Server.

Local Abbreviation variant_loop :=
  (map_variants decimal_of_price inventory_level_set srv).
Local Abbreviation variant_creator :=
  (create_variant_product grams_of_weight decimal_of_price save_variant_product
     inventory_level_set decorate srv).
Local Abbreviation simple_creator :=
  (create_simple_product grams_of_weight save_simple_product
     inventory_level_set decorate srv).
Local Abbreviation plan :=
  (planned_calls grams_of_weight decimal_of_price save_variant_product).

(** The loop over the variants sends the planned calls one after the
    other and stops at the first that fails or whose stock cannot be
    set. *)
Lemma map_variants_calls parent loc pairs : forall w : Shop * Connection,
  exists k oks,
    run_all (firstn k (variant_calls decimal_of_price parent pairs)) srv (snd w) =
      (Ok oks, snd (snd (variant_loop parent loc pairs w))) /\
    Forall (fun b => b = true) (removelast oks) /\
    (fst (variant_loop parent loc pairs w) = true ->
     k = length pairs /\ Forall (fun b => b = true) oks).
Proof.
  induction pairs as [|[variant var_data] rest IH]; intros w.
  - exists 0, []. cbn. repeat split; constructor.
  - cbn [map_variants variant_calls map fst snd].
    destruct (save_variant_mapping_keys (vd_sku var_data) (rv_variant variant) parent
                (Some (vd_size var_data)) (decimal_of_price (vd_price var_data))
                srv (snd w)) as (ok & c1 & E & _).
    rewrite E.
    assert (Hone : run_all
                     (firstn 1 (SaveVariant (vd_sku var_data) (rv_variant variant) parent
                                  (Some (vd_size var_data))
                                  (decimal_of_price (vd_price var_data))
                                :: variant_calls decimal_of_price parent rest))
                     srv (snd w) = (Ok [ok], c1)).
    { cbn [firstn]. eapply run_all_cons; [exact E|reflexivity]. }
    destruct ok.
    + destruct (inventory_item_id variant) as [item|].
      * destruct (inventory_level_set loc item (vd_stock var_data) (fst w))
          as [[u|e] shop1].
        -- destruct (IH (shop1, c1)) as (k & oks & Hrun & Hlast & Hall).
           exists (S k), (true :: oks). cbn [firstn]. split; [|split].
           ++ eapply run_all_cons; [exact E|exact Hrun].
           ++ now apply removelast_cons_true.
           ++ intros Hok. destruct (Hall Hok) as [-> Hoks].
              split; [reflexivity|now constructor].
        -- exists 1, [true]. split; [exact Hone|].
           split; [constructor|discriminate].
      * exists 1, [true]. split; [exact Hone|].
        split; [constructor|discriminate].
    + exists 1, [false]. split; [exact Hone|].
      split; [constructor|discriminate].
Qed.

(** What a loop that ran to its end has stored. *)
Lemma map_variants_keys parent loc pairs : forall (w w' : Shop * Connection),
  variant_loop parent loc pairs w = (true, w') ->
  product_mappings (database (snd w')) = product_mappings (database (snd w)) /\
  (forall k, has_variant k (variant_mappings (database (snd w))) = true ->
             has_variant k (variant_mappings (database (snd w'))) = true) /\
  (forall pair, In pair pairs ->
     has_variant (vd_sku (snd pair)) (variant_mappings (database (snd w'))) = true).
Proof.
  induction pairs as [|[variant var_data] rest IH]; intros w w'.
  - cbn. intros [= <-]. repeat split; [trivial|intros _ []].
  - cbn [map_variants].
    destruct (save_variant_mapping_keys (vd_sku var_data) (rv_variant variant) parent
                (Some (vd_size var_data)) (decimal_of_price (vd_price var_data))
                srv (snd w)) as (ok & c1 & E & Hprod & Hkeep & Hnew).
    rewrite E. destruct ok; [|discriminate].
    destruct (inventory_item_id variant) as [item|]; [|discriminate].
    destruct (inventory_level_set loc item (vd_stock var_data) (fst w))
      as [[u|e] shop1]; [|discriminate].
    intros Hrest. destruct (IH _ _ Hrest) as (Hp & Hk & Hin). cbn [snd] in *.
    split; [congruence|]. split.
    + intros k Hk0. apply Hk, Hkeep, Hk0.
    + intros pair [<-|Hpair]; [apply Hk, Hnew; reflexivity|now apply Hin].
Qed.



(** X23: [create_simple_product] stores no variant row.  Whatever the
    shop and the server do, the variant table is left as it was, so that
    the SKU of a simple product is known to [get_product_mapping] only;
    at most one mapper call is made, and on [True] the product table
    holds a row under the SKU. *)
Theorem simple_product_maps_no_variant (pd : product_data) (loc : Location)
  (w : Shop * Connection) :
  variant_mappings (database (snd (snd (simple_creator pd loc w)))) =
    variant_mappings (database (snd w)) /\
  (snd (snd (simple_creator pd loc w)) = snd w \/
   exists saved ok,
     save_product_mapping (pd_sku pd) saved srv (snd w) =
       (Ok ok, snd (snd (simple_creator pd loc w)))) /\
  (fst (simple_creator pd loc w) = true ->
   has_product (pd_sku pd)
     (product_mappings (database (snd (snd (simple_creator pd loc w))))) = true).
Proof.
  unfold create_simple_product.
  destruct (new_simple_product grams_of_weight pd) as [new_product|e];
    [|cbn; split; [reflexivity|split; [now left|discriminate]]].
  destruct (save_simple_product new_product (fst w)) as [[[saved|]|e] shop1];
    try (cbn; split; [reflexivity|split; [now left|discriminate]]).
  destruct (save_product_mapping_keys (pd_sku pd) (saved_product saved) srv (snd w))
    as (ok & c1 & E & Hvar & _ & Hnew).
  rewrite E.
  assert (Hcall : exists saved0 ok0,
             save_product_mapping (pd_sku pd) saved0 srv (snd w) = (Ok ok0, c1))
    by (exists (saved_product saved), ok; exact E).
  destruct ok; [|cbn; split; [exact Hvar|split; [now right|discriminate]]].
  destruct (saved_variants saved) as [|first others];
    [cbn; split; [exact Hvar|split; [now right|discriminate]]|].
  destruct (inventory_item_id first) as [item|];
    [|cbn; split; [exact Hvar|split; [now right|discriminate]]].
  destruct (inventory_level_set loc item (pd_stock pd) shop1) as [[u|e] shop2];
    cbn; (split; [exact Hvar|split; [now right|]]); [|discriminate].
  intros _. now apply Hnew.
Qed.

End Creators.


End creator_facts.

(** ** The mode argument of main.py *)

Module argument_facts.
Import py main_arguments update_vocabulary reference_facts.

Lemma prefix_app p : forall s, prefix p s = true -> exists rest, s = (p ++ rest)%string.
Proof.
  induction p as [|a p IH]; intros s.
  - intros _. now exists s.
  - destruct s as [|b s]; simpl; [discriminate|].
    destruct (ascii_dec a b) as [->|]; [|discriminate].
    intros Hp. destruct (IH s Hp) as [rest ->]. now exists rest.
Qed.

Lemma prefix_of_app p rest : prefix p (p ++ rest) = true.
Proof.
  induction p as [|a p IH]; simpl; [now destruct rest|].
  destruct (ascii_dec a a); [exact IH|congruence].
Qed.

Lemma skip_spaces_contains c s :
  contains c (skip_spaces s) = true -> contains c s = true.
Proof.
  induction s as [|d s IH]; simpl; [trivial|].
  destruct (int_space d); [|trivial].
  intros Hc. rewrite (IH Hc). now destruct (d =? c)%char.
Qed.

Lemma int_digits_nonneg s : forall acc count after n k,
  (0 <= acc)%Z -> int_digits acc count after s = Some (n, k) -> (0 <= n)%Z.
Proof.
  induction s as [|c s IH]; intros acc count after n k Hacc; cbn [int_digits].
  - destruct after; [|discriminate]. now intros [= <- _].
  - destruct (isdigit c) eqn:Hd.
    + apply IH. unfold digit_value. unfold isdigit in Hd.
      apply andb_true_iff in Hd. destruct Hd as [Hlo _].
      apply Nat.leb_le in Hlo. lia.
    + destruct (c =? "_")%char.
      * destruct after; [|discriminate]. now apply IH.
      * destruct (after && _); [|discriminate]. now intros [= <- _].
Qed.

(** The digits [str()] writes are read back one by one. *)
Lemma uint_string_digits d : forall acc cnt,
  int_digits (Zpos acc) cnt true (NilEmpty.string_of_uint d) =
  Some (Zpos (Pos.of_uint_acc d acc), cnt + String.length (NilEmpty.string_of_uint d)).
Proof.
  induction d as [|d IH|d IH|d IH|d IH|d IH|d IH|d IH|d IH|d IH|d IH];
    intros acc cnt;
    cbn [NilEmpty.string_of_uint Pos.of_uint_acc String.length];
    [cbn; now rewrite Nat.add_0_r|..];
    match goal with
    | |- int_digits ?a ?c true (String ?ch ?r) = _ =>
        let v := eval vm_compute in (digit_value ch) in
        change (int_digits a c true (String ch r))
          with (int_digits (10 * a + v) (S c) true r)
    end;
    match goal with
    | |- int_digits ?z _ _ _ = Some (Zpos (Pos.of_uint_acc _ ?p), _) =>
        replace z with (Zpos p) by lia
    end;
    rewrite IH; do 2 f_equal; lia.
Qed.

Lemma uint_string_value d : forall cnt after,
  after = true \/ d <> Decimal.Nil ->
  int_digits 0 cnt after (NilEmpty.string_of_uint d) =
  Some (Z.of_N (Pos.of_uint d), cnt + String.length (NilEmpty.string_of_uint d)).
Proof.
  induction d as [|d IH|d IH|d IH|d IH|d IH|d IH|d IH|d IH|d IH|d IH];
    intros cnt after Hstart;
    cbn [NilEmpty.string_of_uint Pos.of_uint String.length].
  - destruct Hstart as [-> | Hnil]; [|contradiction]. cbn. now rewrite Nat.add_0_r.
  - change (int_digits 0 cnt after (String "0" (NilEmpty.string_of_uint d)))
      with (int_digits 0 (S cnt) true (NilEmpty.string_of_uint d)).
    rewrite IH by (now left). do 2 f_equal; lia.
  - change (int_digits 0 cnt after (String "1" (NilEmpty.string_of_uint d)))
      with (int_digits 1 (S cnt) true (NilEmpty.string_of_uint d)).
    rewrite uint_string_digits. cbn [Z.of_N]. do 2 f_equal; lia.
  - change (int_digits 0 cnt after (String "2" (NilEmpty.string_of_uint d)))
      with (int_digits 2 (S cnt) true (NilEmpty.string_of_uint d)).
    rewrite uint_string_digits. cbn [Z.of_N]. do 2 f_equal; lia.
  - change (int_digits 0 cnt after (String "3" (NilEmpty.string_of_uint d)))
      with (int_digits 3 (S cnt) true (NilEmpty.string_of_uint d)).
    rewrite uint_string_digits. cbn [Z.of_N]. do 2 f_equal; lia.
  - change (int_digits 0 cnt after (String "4" (NilEmpty.string_of_uint d)))
      with (int_digits 4 (S cnt) true (NilEmpty.string_of_uint d)).
    rewrite uint_string_digits. cbn [Z.of_N]. do 2 f_equal; lia.
  - change (int_digits 0 cnt after (String "5" (NilEmpty.string_of_uint d)))
      with (int_digits 5 (S cnt) true (NilEmpty.string_of_uint d)).
    rewrite uint_string_digits. cbn [Z.of_N]. do 2 f_equal; lia.
  - change (int_digits 0 cnt after (String "6" (NilEmpty.string_of_uint d)))
      with (int_digits 6 (S cnt) true (NilEmpty.string_of_uint d)).
    rewrite uint_string_digits. cbn [Z.of_N]. do 2 f_equal; lia.
  - change (int_digits 0 cnt after (String "7" (NilEmpty.string_of_uint d)))
      with (int_digits 7 (S cnt) true (NilEmpty.string_of_uint d)).
    rewrite uint_string_digits. cbn [Z.of_N]. do 2 f_equal; lia.
  - change (int_digits 0 cnt after (String "8" (NilEmpty.string_of_uint d)))
      with (int_digits 8 (S cnt) true (NilEmpty.string_of_uint d)).
    rewrite uint_string_digits. cbn [Z.of_N]. do 2 f_equal; lia.
  - change (int_digits 0 cnt after (String "9" (NilEmpty.string_of_uint d)))
      with (int_digits 9 (S cnt) true (NilEmpty.string_of_uint d)).
    rewrite uint_string_digits. cbn [Z.of_N]. do 2 f_equal; lia.
Qed.

Lemma uint_string_no_minus d : contains "-" (NilEmpty.string_of_uint d) = false.
Proof. induction d; simpl; trivial. Qed.

(** A numeral as [str()] writes it begins with a digit. *)
Lemma numeral_string d :
  d <> Decimal.Nil ->
  NilZero.string_of_uint d = NilEmpty.string_of_uint d /\
  skip_spaces (NilEmpty.string_of_uint d) = NilEmpty.string_of_uint d /\
  split_sign (NilEmpty.string_of_uint d) = (false, NilEmpty.string_of_uint d) /\
  contains "-" (NilEmpty.string_of_uint d) = false.
Proof.
  intros Hnil. split; [|split; [|split]].
  - destruct d; [contradiction|reflexivity..].
  - destruct d; [contradiction|reflexivity..].
  - destruct d; [contradiction|reflexivity..].
  - apply uint_string_no_minus.
Qed.

Section Modes.
Variable max_str_digits : nat.

Local Abbreviation to_int := (int_of_str max_str_digits).
Local Abbreviation check := (check_mode max_str_digits).

(** Without a minus sign [int()] gives no negative number. *)
Lemma int_of_str_nonneg s n :
  contains "-" s = false -> to_int s = Ok n -> (0 <= n)%Z.
Proof.
  intros Hminus. unfold int_of_str, split_sign.
  destruct (skip_spaces s) as [|c rest] eqn:Es.
  - simpl. discriminate.
  - destruct (Ascii.eqb_spec c "-") as [->|Hc].
    + assert (Hin : contains "-" s = true)
        by (apply skip_spaces_contains; rewrite Es; reflexivity).
      congruence.
    + destruct (c =? "+")%char;
        match goal with
        | |- context [int_digits 0 0 false ?d] =>
            destruct (int_digits 0 0 false d) as [[m k]|] eqn:Ed; [|discriminate]
        end;
        (destruct (_ && _); [discriminate|]);
        intros [= <-]; apply (int_digits_nonneg _ _ _ _ _ _ (Z.le_refl 0) Ed).
Qed.

(** The check on a mode that begins as asked. *)
Lemma check_mode_prefixed t rest :
  t = "screen" \/ t = "api" ->
  check (t ++ String "-" rest) =
  if contains "-" rest then Refused InvalidFormat
  else match to_int rest with
       | Ok n => if (n <=? 0)%Z then Refused NotPositive else Accepted t n
       | Raise _ => Refused InvalidFormat
       end.
Proof.
  intros Ht. unfold check_mode.
  assert (Hpre : prefix "screen-" (t ++ String "-" rest)
                 || prefix "api-" (t ++ String "-" rest) = true).
  { destruct Ht as [-> | ->].
    - change ("screen" ++ String "-" rest)%string with ("screen-" ++ rest)%string.
      now rewrite prefix_of_app.
    - change ("api" ++ String "-" rest)%string with ("api-" ++ rest)%string.
      rewrite prefix_of_app. apply Bool.orb_true_r. }
  rewrite Hpre. cbn [negb].
  assert (Ht0 : contains "-" t = false) by (destruct Ht as [-> | ->]; reflexivity).
  rewrite (split_at_first "-" t rest Ht0).
  destruct (contains "-" rest) eqn:Hrest.
  - pose proof (split_two_segments "-" rest Hrest) as Hlen.
    destruct (split "-" rest) as [|a [|b l]]; simpl in Hlen; try lia. reflexivity.
  - rewrite (split_without _ _ Hrest). reflexivity.
Qed.

(** A mode either begins as asked or is refused for its beginning. *)
Lemma check_mode_cases mode :
  check mode = Refused WrongPrefix \/
  exists t rest, (t = "screen" \/ t = "api") /\ mode = (t ++ String "-" rest)%string.
Proof.
  unfold check_mode.
  destruct (prefix "screen-" mode) eqn:Hs.
  - right. destruct (prefix_app _ _ Hs) as [rest ->].
    exists "screen", rest. split; [now left|reflexivity].
  - destruct (prefix "api-" mode) eqn:Ha.
    + right. destruct (prefix_app _ _ Ha) as [rest ->].
      exists "api", rest. split; [now right|reflexivity].
    + now left.
Qed.

(** X24: the mode argument of [main].  It is accepted exactly when it is
    [screen-] or [api-] followed by a text without hyphen that [int()]
    reads as a number above zero; the mode type handed on is then
    [screen] or [api] and nothing else.  The refusal for a count that is
    not positive is met exactly by a count that reads as zero: a minus
    sign makes the argument a format error. *)
Theorem mode_argument (mode : string) :
  (forall t n,
     check mode = Accepted t n <->
     (t = "screen" \/ t = "api") /\
     exists body, mode = (t ++ String "-" body)%string /\
                  contains "-" body = false /\ to_int body = Ok n /\ (0 < n)%Z) /\
  (check mode = Refused NotPositive <->
   exists t body, (t = "screen" \/ t = "api") /\
                  mode = (t ++ String "-" body)%string /\
                  contains "-" body = false /\ to_int body = Ok 0%Z).
Proof.
  split; [intros t n|]; split.
  - destruct (check_mode_cases mode) as [E|(t0 & rest & Ht0 & ->)];
      [rewrite E; discriminate|].
    rewrite (check_mode_prefixed _ rest Ht0).
    destruct (contains "-" rest) eqn:Hrest; [discriminate|].
    destruct (to_int rest) as [m|e] eqn:Em; [|discriminate].
    destruct (Z.leb_spec m 0); [discriminate|].
    intros [= <- <-]. split; [exact Ht0|].
    exists rest. repeat split; assumption.
  - intros (Ht & body & -> & Hbody & Eint & Hpos).
    rewrite (check_mode_prefixed _ body Ht), Hbody, Eint.
    destruct (Z.leb_spec n 0); [lia|reflexivity].
  - destruct (check_mode_cases mode) as [E|(t0 & rest & Ht0 & ->)];
      [rewrite E; discriminate|].
    rewrite (check_mode_prefixed _ rest Ht0).
    destruct (contains "-" rest) eqn:Hrest; [discriminate|].
    destruct (to_int rest) as [m|e] eqn:Em; [|discriminate].
    destruct (Z.leb_spec m 0); [|discriminate].
    intros _. exists t0, rest. repeat split; try assumption.
    pose proof (int_of_str_nonneg _ _ Hrest Em).
    replace m with 0%Z in Em by lia. exact Em.
  - intros (t & body & Ht & -> & Hbody & Eint).
    rewrite (check_mode_prefixed _ body Ht), Hbody, Eint. reflexivity.
Qed.

(** [int()] reads back what [str()] writes for a number above zero. *)
Lemma int_of_plain_numeral (n : Z) :
  (0 < n)%Z ->
  max_str_digits = 0 \/ String.length (plain_numeral n) <= max_str_digits ->
  to_int (plain_numeral n) = Ok n /\ contains "-" (plain_numeral n) = false.
Proof.
  intros Hpos Hlimit. destruct n as [|p|p]; try lia.
  unfold plain_numeral, str_of_int in *. cbn [Z.to_int NilZero.string_of_int] in *.
  pose proof (DecimalPos.Unsigned.to_uint_nonnil p) as Hnil.
  pose proof (DecimalPos.Unsigned.of_to p) as Hback.
  destruct (numeral_string _ Hnil) as (Estr & Eskip & Esign & Hminus).
  rewrite Estr in *. split; [|exact Hminus].
  unfold int_of_str. rewrite Eskip, Esign.
  rewrite (uint_string_value _ 0 false (or_intror Hnil)), Hback.
  cbn [Nat.add Z.of_N].
  destruct Hlimit as [-> | Hle]; [reflexivity|].
  destruct (Nat.ltb_spec max_str_digits
              (String.length (NilEmpty.string_of_uint (Pos.to_uint p)))); [lia|].
  now rewrite Bool.andb_false_r.
Qed.

(** X25: every count above zero can be asked for.  Written as [str()]
    writes it, and within the limit the interpreter sets to the digits of
    a numeral, the count [n] after [api-] or [screen-] is accepted as
    that mode with that count. *)
Theorem positive_count_is_accepted (n : Z) :
  (0 < n)%Z ->
  max_str_digits = 0 \/ String.length (plain_numeral n) <= max_str_digits ->
  check ("api-" ++ plain_numeral n) = Accepted "api" n /\
  check ("screen-" ++ plain_numeral n) = Accepted "screen" n.
Proof.
  intros Hpos Hlimit.
  destruct (int_of_plain_numeral n Hpos Hlimit) as [Eint Hminus].
  change ("api-" ++ plain_numeral n)%string
    with ("api" ++ String "-" (plain_numeral n))%string.
  change ("screen-" ++ plain_numeral n)%string
    with ("screen" ++ String "-" (plain_numeral n))%string.
  rewrite !check_mode_prefixed by (auto).
  rewrite Hminus, Eint.
  destruct (Z.leb_spec n 0); [lia|]. split; reflexivity.
Qed.

End Modes.

Lemma positive_count_is_accepted_witness :
  check_mode 4300 "api-50" = Accepted "api" 50 /\
  check_mode 4300 "screen-50" = Accepted "screen" 50.
Proof.
  apply (positive_count_is_accepted 4300 50); [lia|].
  right. vm_compute. lia.
Defined.

End argument_facts.

(** ** The images of a row *)

Module image_facts.
Import py helpers main_images helper_vocabulary update_vocabulary.
Import cleaning_facts argument_facts.

Lemma rstrip_app_kept p x :
  x <> EmptyString -> rstrip x = x -> rstrip (p ++ x) = (p ++ x)%string.
Proof.
  intros Hx Ex. induction p as [|c p IH]; [exact Ex|].
  change (String c p ++ x)%string with (String c (p ++ x)).
  rewrite rstrip_cons, IH.
  destruct (p ++ x)%string eqn:E; [|reflexivity].
  destruct p; [simpl in E; contradiction|discriminate].
Qed.

(** One column gives no image or one, whose address has a scheme and no
    whitespace around it. *)
Lemma image_of_cases r n col :
  (clean_value (image_cell r col) = EmptyString /\ image_of r (n, col) = []) \/
  (clean_value (image_cell r col) <> EmptyString /\
   exists s, image_of r (n, col) = [ {| src := s; position := n |} ] /\
             has_scheme s = true /\ strip s = s).
Proof.
  unfold image_of, image_cell. cbn [fst snd].
  destruct (clean_value_stripped
              match row_lookup r col with Some v => v | None => CStr EmptyString end)
    as [Hl Hr].
  destruct (clean_value _) as [|c rest] eqn:E; [now left|].
  right. split; [discriminate|]. eexists. split; [reflexivity|].
  destruct (has_scheme (String c rest)) eqn:Hs.
  - split; [exact Hs|]. unfold strip. now rewrite Hl, Hr.
  - split.
    + unfold has_scheme. rewrite (prefix_of_app "https://").
      apply Bool.orb_true_r.
    + unfold strip.
      change (lstrip ("https://" ++ String c rest))
        with ("https://" ++ String c rest)%string.
      apply rstrip_app_kept; [discriminate|exact Hr].
Qed.

(** X26: the images [prepare_images_data] prepares.  Each of the three
    image columns gives an image exactly when its cell cleans to a text
    that is not empty; the image keeps the number of its column as
    position, so that positions ascend and may leave gaps; and every
    address begins with http:// or https:// and has no whitespace around
    it. *)
Theorem prepared_images (r : row) :
  subsequence (map position (prepare_images_data r)) [1; 2; 3] /\
  Forall (fun i => has_scheme (src i) = true /\ strip (src i) = src i)
         (prepare_images_data r) /\
  forall n col,
    In (n, col) (enumerate 1 image_columns) ->
    (In n (map position (prepare_images_data r)) <->
     clean_value (image_cell r col) <> EmptyString).
Proof.
  unfold prepare_images_data, enumerate, image_columns.
  cbn [flat_map combine seq length].
  destruct (image_of_cases r 1 "IMAGEN 1") as [[E1 ->]|[E1 (s1 & -> & H1)]];
  destruct (image_of_cases r 2 "IMAGEN 2") as [[E2 ->]|[E2 (s2 & -> & H2)]];
  destruct (image_of_cases r 3 "IMAGEN 3") as [[E3 ->]|[E3 (s3 & -> & H3)]];
  cbn [app map position src];
  (split; [repeat first [apply sub_nil | apply sub_keep | apply sub_skip]|]);
  (split; [repeat (apply Forall_cons; [assumption|]); apply Forall_nil|]);
  intros n col [[= <- <-]|[[= <- <-]|[[= <- <-]|[]]]]; cbn [In];
  split; intros Hin; try congruence; try tauto;
  repeat (destruct Hin as [Hin|Hin]; try discriminate Hin); try contradiction.
Qed.

End image_facts.

(** ** The update scripts *)

Module update_facts.
Import py helpers migrations mysql_connector product_mapper.
Import update_products update_vocabulary store_vocabulary sync_vocabulary.
Import store_samples grouping_facts sync_facts store_facts store_more_facts.

Lemma filed_under_app k es1 es2 :
  filed_under k (es1 ++ es2) = filed_under k es1 ++ filed_under k es2.
Proof. apply filter_app. Qed.

Lemma filed_under_one k e :
  filed_under k [e] = if (key_of e =? k)%string then [e] else [].
Proof. reflexivity. Qed.

Lemma summary_none k es : summary k es = None <-> filed_under k es = [].
Proof.
  unfold summary. destruct (filed_under k es); split; congruence.
Qed.

(** The summary of a key after one more referenced row. *)
Lemma summary_snoc k pre e :
  summary k (pre ++ [e]) =
  if (key_of e =? k)%string
  then Some match summary k pre with
            | None => {| count := 1; first_occurrence := row_of e;
                         row_numbers := [number_of e] |}
            | Some s => {| count := S (count s);
                           first_occurrence := first_occurrence s;
                           row_numbers := row_numbers s ++ [number_of e] |}
            end
  else summary k pre.
Proof.
  unfold summary. rewrite filed_under_app. unfold filed_under at 2. cbn [filter].
  destruct (key_of e =? k)%string.
  - destruct (filed_under k pre) as [|e0 more]; cbn [app]; [reflexivity|].
    cbn [count first_occurrence row_numbers].
    now rewrite length_app, map_app, Nat.add_1_r.
  - now rewrite app_nil_r.
Qed.

Lemma nodup_snoc {A} (l : list A) x : NoDup l -> ~ In x l -> NoDup (l ++ [x]).
Proof.
  intros Hl Hx. apply (Permutation_NoDup (l := x :: l)).
  - apply Permutation_cons_append.
  - now constructor.
Qed.

(** One round of the loop keeps the books. *)
Lemma analyze_row_analysed idx r d dups pre :
  analysed d dups pre ->
  analysed (fst (analyze_row idx r (d, dups))) (snd (analyze_row idx r (d, dups)))
           (pre ++ referenced idx [r]).
Proof.
  intros (Hget & Hdups & Hlen & Hnodup).
  unfold analyze_row. cbn [referenced fst snd]. rewrite app_nil_r.
  destruct (isna (row_get r "Variant SKU" (CStr EmptyString))
            || eq_str (row_get r "Variant SKU" (CStr EmptyString)) EmptyString).
  { cbn [fst snd]. rewrite app_nil_r. repeat split; assumption. }
  set (key := reference_key (row_get r "Variant SKU" (CStr EmptyString))).
  set (e := (key, idx + 1, r)).
  unfold dict_mem. destruct (dict_get d key) as [s|] eqn:Eget; cbn [negb fst snd].
  - (* the key is known: one more duplicated row *)
    assert (Hfiled : exists e0 more, filed_under key pre = e0 :: more).
    { rewrite Hget in Eget. unfold summary in Eget.
      destruct (filed_under key pre) as [|e0 more]; [discriminate|].
      now exists e0, more. }
    split; [|split; [|split]].
    + intros k. rewrite dict_get_alter, summary_snoc. cbn [key_of e fst].
      destruct (key =? k)%string eqn:Ek; [|apply Hget].
      apply String.eqb_eq in Ek. subst k.
      rewrite <- Hget, Eget. reflexivity.
    + intros k. rewrite filter_app, filed_under_app, Hdups, filed_under_one.
      cbn [filter dup_reference key_of e fst].
      destruct (key =? k)%string eqn:Ek.
      * apply String.eqb_eq in Ek. subst k.
        destruct Hfiled as (e0 & more & ->). cbn [app tl].
        now rewrite map_app.
      * now rewrite !app_nil_r.
    + rewrite <- (length_map fst), dict_alter_keys, length_map, !length_app.
      cbn [length]. lia.
    + now rewrite dict_alter_keys.
  - (* a new key *)
    assert (Hfiled : filed_under key pre = []).
    { apply summary_none. now rewrite <- Hget. }
    split; [|split; [|split]].
    + intros k. rewrite dict_get_set, summary_snoc. cbn [key_of e fst].
      destruct (key =? k)%string eqn:Ek; [|apply Hget].
      apply String.eqb_eq in Ek. subst k.
      now rewrite <- Hget, Eget.
    + intros k. rewrite filed_under_app, Hdups, filed_under_one.
      cbn [key_of e fst].
      destruct (key =? k)%string eqn:Ek.
      * apply String.eqb_eq in Ek. subst k. now rewrite Hfiled.
      * now rewrite app_nil_r.
    + rewrite <- (length_map fst), (dict_set_fresh_keys _ _ _ Eget), !length_app,
        length_map. cbn [length]. lia.
    + rewrite (dict_set_fresh_keys _ _ _ Eget). apply nodup_snoc; [exact Hnodup|].
      now apply dict_get_none_keys.
Qed.

Lemma analyze_rows_analysed df : forall idx d dups pre,
  analysed d dups pre ->
  analysed (fst (analyze_rows idx df (d, dups))) (snd (analyze_rows idx df (d, dups)))
           (pre ++ referenced idx df).
Proof.
  induction df as [|r df IH]; intros idx d dups pre Hinv.
  - cbn. now rewrite app_nil_r.
  - cbn [analyze_rows].
    pose proof (analyze_row_analysed idx r _ _ _ Hinv) as Hstep.
    destruct (analyze_row idx r (d, dups)) as [d1 dups1]. cbn [fst snd] in Hstep.
    specialize (IH (S idx) d1 dups1 _ Hstep).
    replace (pre ++ referenced idx (r :: df))
      with ((pre ++ referenced idx [r]) ++ referenced (S idx) df); [exact IH|].
    cbn [referenced]. now rewrite app_nil_r, app_assoc.
Qed.

(** Sorting the items of a dict. *)
Lemma insert_item_perm {V} (x : string * V) l : Permutation (insert_item x l) (x :: l).
Proof.
  induction l as [|y l IH]; simpl; [reflexivity|].
  destruct (String.leb (fst x) (fst y)); [reflexivity|].
  rewrite IH. apply perm_swap.
Qed.

Lemma sorted_items_perm {V} (d : dict V) : Permutation (sorted_items d) d.
Proof.
  induction d as [|x d IH]; [reflexivity|].
  unfold sorted_items in *. cbn [fold_right]. rewrite insert_item_perm.
  now constructor.
Qed.

Lemma insert_item_keys {V} (x : string * V) l :
  map fst (insert_item x l) = insert_sorted (fst x) (map fst l).
Proof.
  induction l as [|y l IH]; simpl; [reflexivity|].
  destruct (String.leb (fst x) (fst y)); simpl; [reflexivity|now rewrite IH].
Qed.

Lemma sorted_items_keys {V} (d : dict V) : map fst (sorted_items d) = sorted (map fst d).
Proof.
  induction d as [|x d IH]; [reflexivity|].
  unfold sorted_items, sorted in *. cbn [fold_right map].
  now rewrite insert_item_keys, IH.
Qed.

(** With distinct keys, a lookup does not depend on the order of the
    items. *)
Lemma dict_get_perm {V} (d d' : dict V) k :
  Permutation d d' -> NoDup (map fst d) -> dict_get d k = dict_get d' k.
Proof.
  induction 1 as [|[k0 v0] l l' Hperm IH|[k1 v1] [k2 v2] l|l1 l2 l3 H12 IH12 H23 IH23];
    intros Hnodup.
  - reflexivity.
  - simpl. inversion Hnodup; subst. now rewrite IH.
  - simpl. simpl in Hnodup. inversion Hnodup as [|? ? Hnotin _]; subst.
    destruct (k1 =? k)%string eqn:E1; destruct (k2 =? k)%string eqn:E2; try reflexivity.
    apply String.eqb_eq in E1, E2. subst. exfalso. apply Hnotin. now left.
  - rewrite IH12 by assumption. apply IH23.
    eapply Permutation_NoDup; [|exact Hnodup]. now apply Permutation_map.
Qed.

(** What the loop has filed when [analyze_references] sorts. *)
Lemma analyze_references_analysed df :
  exists d,
    analyze_references df = (sorted_items d, snd (analyze_references df)) /\
    analysed d (snd (analyze_references df)) (referenced 0 df).
Proof.
  unfold analyze_references.
  assert (Hstart : analysed [] [] []).
  { repeat split; try reflexivity. constructor. }
  set (out := analyze_rows 0 df ([], [])).
  assert (Hinv : analysed (fst out) (snd out) (referenced 0 df))
    by exact (analyze_rows_analysed df 0 [] [] [] Hstart).
  clearbody out. destruct out as [d dups]. cbn [fst snd] in *.
  exists d. split; [reflexivity|exact Hinv].
Qed.

(** X27: the books of [analyze_references].  For every key, the dict
    holds an entry exactly when a row is filed under the key; the entry
    counts the rows filed under it, lists their row numbers in sheet
    order and keeps the first of them as first occurrence.  The
    duplicated rows of a key are its rows after the first, in sheet
    order, and keys and duplicated rows together account for every row
    that has a reference. *)
Theorem reference_tally (df : list row) :
  (forall k, dict_get (fst (analyze_references df)) k = summary k (referenced 0 df)) /\
  (forall k,
     filter (fun x => (dup_reference x =? k)%string) (snd (analyze_references df)) =
     map duplicate_of (tl (filed_under k (referenced 0 df)))) /\
  length (fst (analyze_references df)) + length (snd (analyze_references df)) =
    length (referenced 0 df).
Proof.
  destruct (analyze_references_analysed df) as (d & E & Hget & Hdups & Hlen & Hnodup).
  rewrite E. cbn [fst snd].
  split; [|split].
  - intros k. rewrite <- Hget. symmetry.
    apply dict_get_perm; [symmetry; apply sorted_items_perm|exact Hnodup].
  - exact Hdups.
  - rewrite (Permutation_length (sorted_items_perm d)). exact Hlen.
Qed.

(** X28: the keys of the dict [analyze_references] returns ascend
    strictly, by code points, and are the keys of the rows that have a
    reference: the order in which [process_csv_updates] visits the
    products is that of the sorted keys, not that of the sheet. *)
Theorem references_come_sorted (df : list row) :
  StronglySorted string_lt (map fst (fst (analyze_references df))) /\
  forall k, In k (map fst (fst (analyze_references df))) <->
            In k (map key_of (referenced 0 df)).
Proof.
  destruct (analyze_references_analysed df) as (d & E & Hget & _ & _ & Hnodup).
  rewrite E. cbn [fst]. rewrite sorted_items_keys. split.
  - apply strictly_sorted; [|apply sorted_ordered].
    eapply Permutation_NoDup; [symmetry; apply sorted_perm|exact Hnodup].
  - intros k.
    assert (Hkeys : In k (map fst d) <-> In k (map key_of (referenced 0 df))).
    { split.
      - intros Hin. destruct (dict_get d k) eqn:Eg.
        + rewrite Hget in Eg. unfold summary in Eg.
          destruct (filed_under k (referenced 0 df)) as [|e more] eqn:Ef;
            [discriminate|].
          assert (He : In e (filed_under k (referenced 0 df)))
            by (rewrite Ef; now left).
          apply filter_In in He. destruct He as [He Hk].
          apply String.eqb_eq in Hk. subst k. now apply in_map.
        + apply dict_get_none_keys in Eg. contradiction.
      - intros Hin. apply in_map_iff in Hin. destruct Hin as (e & <- & He).
        destruct (dict_get d (key_of e)) eqn:Eg.
        + destruct (in_dec string_dec (key_of e) (map fst d)) as [Hyes|Hno];
            [exact Hyes|].
          apply dict_get_none_keys in Hno. congruence.
        + rewrite Hget in Eg. apply summary_none in Eg.
          assert (Hf : In e (filed_under (key_of e) (referenced 0 df))).
          { apply filter_In. split; [exact He|apply String.eqb_refl]. }
          rewrite Eg in Hf. contradiction. }
    rewrite <- Hkeys. split.
    + apply Permutation_in, sorted_perm.
    + apply Permutation_in. symmetry. apply sorted_perm.
Qed.

Lemma zeros_length n s : String.length (zeros n ++ s) = n + String.length s.
Proof. induction n as [|n IH]; simpl; [reflexivity|now rewrite IH]. Qed.

Lemma zeros_digits n s : all_digits s = true -> all_digits (zeros n ++ s) = true.
Proof. intros Hs. induction n as [|n IH]; simpl; [exact Hs|exact IH]. Qed.

Lemma zfill_long s : 4 <= String.length s -> zfill 4 s = s.
Proof.
  intros Hlen. unfold zfill. replace (4 - String.length s) with 0 by lia.
  cbn [zeros]. destruct s as [|c rest]; [reflexivity|].
  now destruct ((c =? "+")%char || (c =? "-")%char).
Qed.

(** Filling a text of digits with zeros gives digits again, at least
    four of them. *)
Lemma zfill_digits s :
  str_isdigit s = true ->
  str_isdigit (zfill 4 s) = true /\ 4 <= String.length (zfill 4 s).
Proof.
  unfold str_isdigit, zfill. destruct s as [|c rest]; [discriminate|].
  intros Hd.
  assert (Hsign : (c =? "+")%char || (c =? "-")%char = false).
  { destruct (Ascii.eqb_spec c "+") as [->|_]; [discriminate Hd|].
    destruct (Ascii.eqb_spec c "-") as [->|_]; [discriminate Hd|reflexivity]. }
  rewrite Hsign. split.
  - destruct (zeros (4 - String.length (String c rest)) ++ String c rest)%string eqn:E.
    + apply (f_equal String.length) in E. rewrite zeros_length in E.
      simpl in E. lia.
    + rewrite <- E. now apply zeros_digits.
  - rewrite zeros_length. lia.
Qed.

(** X30: the key under which a row is analysed and the key under which
    its product is looked up.  [process_csv_updates] hands the keys of
    [analyze_references] to [get_product_by_reference], which fills with
    zeros once more.  The two keys differ exactly for a reference that
    does not consist of digits as it stands but does once stripped, to
    fewer than four digits (as 12 between spaces): it is analysed under
    the stripped text and looked up under the filled one. *)
Theorem lookup_pads_again (v : cell) :
  (lookup_key (reference_key v) <> reference_key v <->
   str_isdigit (str v) = false /\ str_isdigit (strip (str v)) = true /\
   String.length (strip (str v)) < 4) /\
  (lookup_key (reference_key v) = reference_key v \/
   (reference_key v = strip (str v) /\
    lookup_key (reference_key v) = zfill 4 (strip (str v)))).
Proof.
  unfold reference_key, lookup_key.
  destruct (str_isdigit (str v)) eqn:Ed.
  - destruct (zfill_digits _ Ed) as [Hd Hlen]. rewrite Hd, (zfill_long _ Hlen).
    split; [|now left]. split; [congruence|]. intros [Hno _]. discriminate.
  - destruct (str_isdigit (strip (str v))) eqn:Et.
    + destruct (Nat.lt_ge_cases (String.length (strip (str v))) 4) as [Hshort|Hlong].
      * destruct (zfill_digits _ Et) as [_ Hlen].
        split; [|right; split; reflexivity].
        split; [intros _; repeat split; assumption|].
        intros _ E. rewrite E in Hlen. lia.
      * rewrite (zfill_long _ Hlong). split; [|now left].
        split; [congruence|]. intros (_ & _ & Hshort). lia.
    + split; [|now left]. split; [congruence|]. intros (_ & Hyes & _). discriminate.
Qed.

Section Lookups.
Context `{Collation}.
Variable Document : Type.
Variable fetch_product : Z -> option Document.

Lemma get_product_by_reference_run ref srv c :
  get_product_by_reference fetch_product ref srv c =
  (Ok match fst (get_product_mapping (lookup_key ref) srv c) with
      | Ok (Some m) => fetch_product (shopify_product_id (product m))
      | _ => None
      end,
   snd (get_product_mapping (lookup_key ref) srv c)).
Proof.
  unfold get_product_by_reference, lookup_key.
  rewrite (get_product_mapping_cases _ srv c).
  unfold try_except at 1. unfold mysql_connector.bind at 1.
  rewrite (get_product_mapping_cases _ srv c).
  destruct (fault srv (statements c)); [reflexivity|].
  destruct (filter _ (product_mappings (database c))); [reflexivity|].
  destruct (fault srv (S (statements c))); reflexivity.
Qed.

Lemma no_product_no_rows k rows :
  has_product k rows = false ->
  filter (fun p => key_eqb (internal_reference p) k) rows = [].
Proof.
  unfold has_product. induction rows as [|p rows IH]; simpl; [reflexivity|].
  destruct (key_eqb (internal_reference p) k); [discriminate|exact IH].
Qed.

(** X29: main.py stores a product under its reference as it stands, the
    update scripts look it up under the reference filled with zeros to
    four digits when it consists of digits.  With a server that takes
    the statements, a product just stored is found again, and its
    document fetched, when the key looked up compares equal to the
    reference; when it does not (as for 12 and 0012) and no other product
    is stored under the key looked up, the product is reported as
    missing. *)
Theorem padded_lookup (srv : Server) (c : Connection) (ref : string)
  (p : ShopifyProduct) :
  fault srv (statements c) = None ->
  fault srv (2 + statements c) = None ->
  fault srv (3 + statements c) = None ->
  exists c1 c2 found,
    save_product_mapping ref p srv c = (Ok true, c1) /\
    get_product_by_reference fetch_product ref srv c1 = (Ok found, c2) /\
    product_mappings (database c2) = product_mappings (database c1) /\
    (key_eqb (lookup_key ref) ref = true -> found = fetch_product (sp_id p)) /\
    (key_eqb (lookup_key ref) ref = false ->
     has_product (lookup_key ref) (product_mappings (database c)) = false ->
     found = None).
Proof.
  intros Hf0 Hf2 Hf3.
  destruct (save_product_mapping_run ref p srv c Hf0)
    as (c1 & Esave & Hstat & Hprod & _).
  exists c1. rewrite get_product_by_reference_run, get_product_mapping_cases.
  rewrite Hstat, Hf2, Hprod.
  destruct (key_eqb (lookup_key ref) ref) eqn:Ekey.
  - destruct (upsert_product_head ref (sp_id p) (sp_handle p) (sp_title p)
                (now srv (statements c)) (product_mappings (database c)))
      as (row & rest & Efilter & Hid & _).
    rewrite (filter_ext _ (fun q => key_eqb (internal_reference q) ref)).
    2:{ intros q. apply key_eqb_compat_r. exact Ekey. }
    rewrite Efilter. change (S (2 + statements c)) with (3 + statements c).
    rewrite Hf3. cbn [fst snd].
    eexists _, _. split; [exact Esave|]. split; [reflexivity|].
    cbn [database product product_mappings].
    split; [now rewrite Hprod|]. split; [intros _; now rewrite Hid|discriminate].
  - destruct (filter (fun q => key_eqb (internal_reference q) (lookup_key ref))
                (upsert_product ref (sp_id p) (sp_handle p) (sp_title p)
                   (now srv (statements c)) (product_mappings (database c))))
      as [|row rest] eqn:Efilter.
    + cbn [fst snd]. eexists _, _. split; [exact Esave|]. split; [reflexivity|].
      cbn [database]. split; [exact Hprod|]. split; [discriminate|reflexivity].
    + change (S (2 + statements c)) with (3 + statements c).
      rewrite Hf3. cbn [fst snd].
      eexists _, _. split; [exact Esave|]. split; [reflexivity|].
      cbn [database product]. split; [exact Hprod|]. split; [discriminate|].
      intros _ Hnone. exfalso.
      assert (Hhas : has_product (lookup_key ref)
                       (upsert_product ref (sp_id p) (sp_handle p) (sp_title p)
                          (now srv (statements c)) (product_mappings (database c)))
                     = false).
      { rewrite has_product_count, upsert_product_keys.
        rewrite has_product_count in Hnone.
        destruct (has_product ref (product_mappings (database c))); [exact Hnone|].
        rewrite count_key_app. unfold count_key at 2. cbn [filter].
        rewrite key_eqb_sym, Ekey. cbn [length]. now rewrite Nat.add_0_r. }
      rewrite (no_product_no_rows _ _ Hhas) in Efilter. discriminate.
Qed.

End Lookups.

Lemma padded_lookup_witness :
  (exists c1 c2,
     save_product_mapping (H := binary_collation) "12" (remote_product 7)
       steady_server fresh_connection = (Ok true, c1) /\
     get_product_by_reference (H := binary_collation) sample_fetch "12"
       steady_server c1 = (Ok None, c2)) /\
  (exists c1 c2,
     save_product_mapping (H := binary_collation) "AB12" (remote_product 7)
       steady_server fresh_connection = (Ok true, c1) /\
     get_product_by_reference (H := binary_collation) sample_fetch "AB12"
       steady_server c1 = (Ok (Some 7%Z), c2)).
Proof.
  split.
  - destruct (padded_lookup (H := binary_collation) Z sample_fetch steady_server
                fresh_connection "12" (remote_product 7) eq_refl eq_refl eq_refl)
      as (c1 & c2 & found & Esave & Eget & _ & _ & Hmiss).
    rewrite (Hmiss eq_refl eq_refl) in Eget.
    exists c1, c2. split; [exact Esave|exact Eget].
  - destruct (padded_lookup (H := binary_collation) Z sample_fetch steady_server
                fresh_connection "AB12" (remote_product 7) eq_refl eq_refl eq_refl)
      as (c1 & c2 & found & Esave & Eget & _ & Hfound & _).
    rewrite (Hfound eq_refl) in Eget.
    exists c1, c2. split; [exact Esave|exact Eget].
Defined.

End update_facts.
